(** * Bible Databases API (main.py): query routing and dataset resolution

    A shallow embedding of the request handlers of [main.py] and the
    properties of its specification that they decide.

    Modelling conventions.
    - Python [int] is [Z]; Python [str] is [string], read as ASCII text
      ([str.upper] acts on the letters a-z only).
    - The file system is a finite map from path strings to files, together
      with the listing of the base directory that [os.listdir] returns.
    - A SQLite file is modelled by the relations the handlers read.  The
      table name that a handler interpolates into its statement is passed to
      the database as text; the database answers with rows or with an engine
      error ([sqlite3.Error]).  The clauses a handler writes around the name
      are read as the handler wrote them, which is how the engine reads them
      when the interpolated name is a single SQL name: the properties that
      depend on the rows assume an identifier made of letters, digits and
      underscores ([allow_listed]).
    - An [int] bound to a statement has to fit SQLite's 64-bit INTEGER:
      otherwise [cursor.execute] raises [OverflowError], which is not a
      [sqlite3.Error].
    - [ORDER BY] is computed by a stable sort of the selected rows, one of
      the orders the engine may produce; the properties rely on the result
      being sorted and being a permutation of the selected rows, not on the
      order among rows with equal keys.  [LIMIT n] is [take n], [fetchone]
      is [head].
    - Every handler runs in the monad [Py], which threads the trace of
      connection events and carries the raised Python exception, if any.
    - The columns of book, verse and cross-reference rows are not NULL; the
      columns of the catalog row may be.
    - [os.listdir] of the base directory succeeds and paths are POSIX paths.
    - [serve] is the annotation store under requests served one after
      another; [run_schedule] is [add_annotation] under overlapping
      requests, thread switches being possible wherever the function reads
      or writes a module variable. *)

From Stdlib Require Import ZArith String Ascii List DecimalString Lia.
From Stdlib Require DecimalZ DecimalPos.
From stdpp Require Import base gmap strings list fin_maps sorting.

(** ** Python string primitives *)

Module PyStr.

Definition nl : string := String (ascii_of_nat 10) EmptyString.

Definition is_ascii_lower (c : ascii) : bool :=
  (N.leb 97 (N_of_ascii c) && N.leb (N_of_ascii c) 122)%bool.

Definition is_ascii_upper (c : ascii) : bool :=
  (N.leb 65 (N_of_ascii c) && N.leb (N_of_ascii c) 90)%bool.

Definition upper_ascii (c : ascii) : ascii :=
  if is_ascii_lower c then ascii_of_N (N_of_ascii c - 32) else c.

Definition lower_ascii (c : ascii) : ascii :=
  if is_ascii_upper c then ascii_of_N (N_of_ascii c + 32) else c.

(* str.upper() *)
Fixpoint upper (s : string) : string :=
  match s with
  | EmptyString => EmptyString
  | String c s' => String (upper_ascii c) (upper s')
  end.

(* str.endswith(suffix) *)
Definition endswith (s suffix : string) : bool :=
  let n := String.length s in
  let k := String.length suffix in
  (Nat.leb k n && String.eqb (substring (n - k) k s) suffix)%bool.

(* str(i) for an int *)
Definition str (i : Z) : string := NilZero.string_of_int (Z.to_int i).

(* int(s) on the decimal strings [str] produces; [None] is ValueError *)
Definition int (s : string) : option Z := Z.of_int <$> NilZero.int_of_string s.

(* posixpath.join(a, b) *)
Definition path_join (a b : string) : string :=
  if String.prefix "/" b then b
  else if (String.eqb a EmptyString || endswith a "/")%bool then a +:+ b
  else a +:+ "/" +:+ b.

(* [a-zA-Z0-9_] *)
Definition is_word_char (c : ascii) : bool :=
  (is_ascii_lower c || is_ascii_upper c
   || (N.leb 48 (N_of_ascii c) && N.leb (N_of_ascii c) 57)
   || Ascii.eqb c "_")%bool.

Fixpoint all_chars (p : ascii → bool) (s : string) : bool :=
  match s with
  | EmptyString => true
  | String c s' => (p c && all_chars p s')%bool
  end.

End PyStr.

Import PyStr.

(* Base directory for the databases *)
Definition BASE_DB_PATH : string :=
  path_join (path_join "bible_databases" "formats") "sqlite".

(* Global database *)
Definition GLOBAL_DB_FILE : string := path_join BASE_DB_PATH "translations.db".

(** ** Data model *)

(* class Translation(BaseModel) *)
Record Translation := mkTranslation {
  translation : string;
  title : string;
  license : option string }.

(* class Book(BaseModel) *)
Record Book := mkBook { id : Z; name : string }.

(* class Verse(BaseModel) *)
Record Verse := mkVerse { verse : Z; text : string }.

(** Rows of the relations stored in a dataset. *)

(* translations(translation, title, license); any column may be NULL *)
Record CatalogRow := mkCatalogRow {
  cat_translation : option string;
  cat_title : option string;
  cat_license : option string }.

(* <ID>_books(id, name) *)
Record BookRow := mkBookRow { b_id : Z; b_name : string }.

(* <ID>_verses(book_id, chapter, verse, text) *)
Record VerseRow := mkVerseRow {
  r_book_id : Z;
  r_chapter : Z;
  r_verse : Z;
  r_text : string }.

(* cross_references(from_book, ..., votes) *)
Record CrossReference := mkCrossReference {
  from_book : string;
  from_chapter : Z;
  from_verse : Z;
  to_book : string;
  to_chapter : Z;
  to_verse_start : Z;
  to_verse_end : Z;
  votes : Z }.

(* What the engine answers to a statement: rows, or sqlite3.Error *)
Inductive QueryResult (A : Type) : Type :=
| Rows (rows : list A)
| EngineError (msg : string).
Arguments Rows {A} rows.
Arguments EngineError {A} msg.

Definition qmap {A B} (f : list A → list B) (q : QueryResult A) : QueryResult B :=
  match q with
  | Rows rows => Rows (f rows)
  | EngineError msg => EngineError msg
  end.

(* A SQLite file.  [books_of] and [verses_of] take the text interpolated
   after FROM. *)
Record Database := mkDatabase {
  translations : QueryResult CatalogRow;
  books_of : string → QueryResult BookRow;
  verses_of : string → QueryResult VerseRow;
  cross_references : QueryResult CrossReference }.

Inductive File : Type :=
| FDir
| FFile (db : Database).

Record World := mkWorld {
  listdir_base : list string;     (* os.listdir(BASE_DB_PATH) *)
  files : gmap string File }.     (* os.path.exists / sqlite3.connect *)

(** ** Exceptions, events and the handler monad *)

Inductive PyExc : Type :=
| HTTPException (status_code : Z) (detail : string)
| sqlite3_Error (msg : string)
| ValidationError (msg : string)
| ValueError (msg : string)
| OverflowError (msg : string).

(* str(e) *)
Definition exc_str (e : PyExc) : string :=
  match e with
  | HTTPException status_code detail => str status_code +:+ ": " +:+ detail
  | sqlite3_Error msg => msg
  | ValidationError msg => msg
  | ValueError msg => msg
  | OverflowError msg => msg
  end.

Inductive SqlParam : Type :=
| PInt (i : Z)
| PText (s : string).

Inductive Event : Type :=
| EConnect (db_path : string)
| EExecute (db_path : string) (sql : string) (params : list SqlParam)
| EClose (db_path : string)
| EPrint (line : string).

Inductive Outcome (A : Type) : Type :=
| Returned (a : A)
| Raised (e : PyExc).
Arguments Returned {A} a.
Arguments Raised {A} e.

Definition Py (A : Type) : Type := list Event → list Event * Outcome A.

Definition py_ret {A} (a : A) : Py A := λ tr, (tr, Returned a).

Definition py_bind {A B} (f : A → Py B) (m : Py A) : Py B :=
  λ tr, match m tr with
        | (tr', Returned a) => f a tr'
        | (tr', Raised e) => (tr', Raised e)
        end.

#[export] Instance Py_ret : MRet Py := @py_ret.
#[export] Instance Py_bind : MBind Py := @py_bind.

Definition raise {A} (e : PyExc) : Py A := λ tr, (tr, Raised e).

Definition emit (ev : Event) : Py unit := λ tr, (tr ++ [ev], Returned tt).

(* try: body / except sqlite3.Error as e: handler *)
Definition try_except_sqlite {A} (body : Py A) (handler : string → Py A) : Py A :=
  λ tr, match body tr with
        | (tr', Raised (sqlite3_Error msg)) => handler msg tr'
        | r => r
        end.

(* try: body / except Exception as e: handler *)
Definition try_except {A} (body : Py A) (handler : PyExc → Py A) : Py A :=
  λ tr, match body tr with
        | (tr', Raised e) => handler e tr'
        | r => r
        end.

(* try: body / finally: final *)
Definition try_finally {A} (body : Py A) (final : Py unit) : Py A :=
  λ tr, match body tr with
        | (tr', r) =>
            match final tr' with
            | (tr'', Returned _) => (tr'', r)
            | (tr'', Raised e) => (tr'', Raised e)
            end
        end.

Definition run {A} (m : Py A) : list Event * Outcome A := m [].
Definition trace_of {A} (m : Py A) : list Event := (run m).1.
Definition outcome_of {A} (m : Py A) : Outcome A := (run m).2.

(** ** Utility database functions *)

Record Connection := mkConnection { conn_path : string; conn_db : Database }.

Definition get_db_connection (w : World) (db_path : string) : Py Connection :=
  match files w !! db_path with
  | None =>
      raise (HTTPException 404 ("Database file " +:+ db_path +:+ " not found"))
  | Some FDir => raise (sqlite3_Error "unable to open database file")
  | Some (FFile db) =>
      emit (EConnect db_path);;
      mret (mkConnection db_path db)
  end.

Definition translation_file (translation_id : string) : string :=
  path_join BASE_DB_PATH (upper translation_id +:+ ".db").

Definition get_translation_db (w : World) (translation_id : string) : Py Connection :=
  (* Assume the file is named <translation_id>.db (case-insensitive match) *)
  let file_name := upper translation_id +:+ ".db" in
  let db_file := path_join BASE_DB_PATH file_name in
  get_db_connection w db_file.

(* A Python int that sqlite3 can bind: SQLite's INTEGER has 64 bits *)
Definition sqlite_int (i : Z) : bool := ((- 2 ^ 63 <=? i) && (i <? 2 ^ 63))%Z.

Definition bindable (p : SqlParam) : bool :=
  match p with
  | PInt i => sqlite_int i
  | PText _ => true
  end.

(* What cursor.execute raises on an int outside 64 bits *)
Definition int_too_large : PyExc :=
  OverflowError "Python int too large to convert to SQLite INTEGER".

(* cursor.execute(sql, params) followed by fetchall().  The statement is
   compiled first: an unknown table or a syntax error is a sqlite3.Error.
   Then the parameters are bound: an int outside 64 bits is an
   OverflowError.  Then the rows are computed: [meaning] is the relation the
   statement denotes on the connected database, [failure] the error of a
   function of the statement on those rows, if any. *)
Definition execute_with {A} (conn : Connection) (sql : string) (params : list SqlParam)
    (meaning : Database → QueryResult A) (failure : Database → option string)
    : Py (list A) :=
  emit (EExecute (conn_path conn) sql params);;
  match meaning (conn_db conn) with
  | EngineError msg => raise (sqlite3_Error msg)
  | Rows rows =>
      if forallb bindable params then
        match failure (conn_db conn) with
        | Some msg => raise (sqlite3_Error msg)
        | None => mret rows
        end
      else raise int_too_large
  end.

Definition execute {A} (conn : Connection) (sql : string) (params : list SqlParam)
    (meaning : Database → QueryResult A) : Py (list A) :=
  execute_with conn sql params meaning (λ _, None).

(* conn.close() *)
Definition close (conn : Connection) : Py unit := emit (EClose (conn_path conn)).

(** ** ORDER BY: stable insertion sort *)

Section OrderBy.
Context {A : Type} (R : relation A) `{∀ x y, Decision (R x y)}.

Fixpoint insert_by (x : A) (l : list A) : list A :=
  match l with
  | [] => [x]
  | y :: l' => if decide (R x y) then x :: y :: l' else y :: insert_by x l'
  end.

Fixpoint order_by (l : list A) : list A :=
  match l with
  | [] => []
  | x :: l' => insert_by x (order_by l')
  end.
End OrderBy.

(** ** The part of SQLite the statements rely on *)

Module Sqlite.

(* LIKE compares ASCII letters without regard to case *)
Definition eq_nocase (a b : ascii) : bool :=
  Ascii.eqb (lower_ascii a) (lower_ascii b).

(* [like pattern s] is [s LIKE pattern]: % matches any run of characters,
   _ matches exactly one character, no ESCAPE character *)
Fixpoint like (pattern : string) : string → bool :=
  match pattern with
  | EmptyString => λ s, match s with EmptyString => true | String _ _ => false end
  | String c pattern' =>
      if Ascii.eqb c "%" then
        fix star (s : string) : bool :=
          (like pattern' s
           || match s with EmptyString => false | String _ s' => star s' end)%bool
      else if Ascii.eqb c "_" then
        λ s, match s with
             | EmptyString => false
             | String _ s' => like pattern' s'
             end
      else
        λ s, match s with
             | EmptyString => false
             | String d s' => (eq_nocase c d && like pattern' s')%bool
             end
  end.

(* What the LIKE function reads of a text: the characters before the first
   NUL *)
Fixpoint cut_nul (s : string) : string :=
  match s with
  | EmptyString => EmptyString
  | String c s' => if Ascii.eqb c Ascii.zero then EmptyString else String c (cut_nul s')
  end.

(* [text LIKE pattern] as the engine evaluates it on two text values *)
Definition sqlite_like (pattern s : string) : bool := like (cut_nul pattern) (cut_nul s).

(* SQLITE_MAX_LIKE_PATTERN_LENGTH is 50000 bytes: a longer pattern makes the
   LIKE function fail with this message on the first row it is applied to *)
Definition like_too_complex (pattern : string) : bool :=
  N.ltb 50000 (N.of_nat (String.length pattern)).

Definition like_failure {A} (pattern : string) (table : QueryResult A) : option string :=
  match table with
  | Rows (_ :: _) =>
      if like_too_complex pattern then Some "LIKE or GLOB pattern too complex" else None
  | _ => None
  end.

(* ORDER BY id *)
Definition by_id : relation BookRow := λ a b, (b_id a ≤ b_id b)%Z.
(* ORDER BY verse *)
Definition by_verse : relation VerseRow := λ a b, (r_verse a ≤ r_verse b)%Z.
(* ORDER BY chapter, verse *)
Definition by_chapter_verse : relation VerseRow := λ a b,
  (r_chapter a < r_chapter b ∨ (r_chapter a = r_chapter b ∧ r_verse a ≤ r_verse b))%Z.
(* ORDER BY votes DESC *)
Definition by_votes_desc : relation CrossReference := λ a b, (votes b ≤ votes a)%Z.

#[export] Instance by_id_dec : RelDecision by_id.
Proof. intros a b; unfold by_id; apply _. Defined.
#[export] Instance by_verse_dec : RelDecision by_verse.
Proof. intros a b; unfold by_verse; apply _. Defined.
#[export] Instance by_chapter_verse_dec : RelDecision by_chapter_verse.
Proof. intros a b; unfold by_chapter_verse; apply _. Defined.
#[export] Instance by_votes_desc_dec : RelDecision by_votes_desc.
Proof. intros a b; unfold by_votes_desc; apply _. Defined.

(* SELECT chapter, COUNT( * ) ... GROUP BY chapter ORDER BY chapter *)
Definition group_count_by_chapter (rows : list VerseRow) : list (Z * Z) :=
  map (λ c, (c, Z.of_nat (length (filter (λ r, r_chapter r = c) rows))))
      (order_by Z.le (remove_dups (map r_chapter rows))).

End Sqlite.

Import Sqlite.

(* The text of a triple-quoted statement written at [indent] spaces *)
Definition spaces (n : nat) : string := String.concat EmptyString (replicate n " ").

Definition sql_block (indent : nat) (lines : list string) : string :=
  nl +:+ String.concat EmptyString (map (λ line, spaces (indent + 4) +:+ line +:+ nl) lines)
     +:+ spaces indent.

(* {k: v for ...}: later items replace earlier ones with the same key *)
Definition py_dict `{Countable K} {V} (items : list (K * V)) : gmap K V :=
  list_to_map (reverse items).

(** ** Global endpoints *)

(* Translation( **dict(row)) *)
Definition Translation_of_row (row : CatalogRow) : Py Translation :=
  match cat_translation row, cat_title row with
  | Some t, Some ti => mret (mkTranslation t ti (cat_license row))
  | _, _ => raise (ValidationError "validation error for Translation")
  end.

Definition sql_catalog : string :=
  "SELECT translation, title, license FROM translations LIMIT 1".

(* One iteration of the loop of get_all_translations over [filename];
   [conn] is the local variable of that name, unbound before the first
   successful connection *)
Definition scan_file (w : World) (filename : string)
    (conn : option Connection) (translations_list : list Translation)
    : Py (option Connection * list Translation) :=
  if endswith filename ".db" then
    let db_path := path_join BASE_DB_PATH filename in
    let report e := emit (EPrint ("Error reading " +:+ filename +:+ ": " +:+ exc_str e)) in
    opened ← try_except (c ← get_db_connection w db_path; mret (Some c))
                        (λ e, report e;; mret (@None Connection));
    match opened with
    | None =>
        (* finally: if 'conn' in locals(): conn.close() *)
        match conn with Some c => close c | None => mret tt end;;
        mret (conn, translations_list)
    | Some c =>
        found ← try_except
                  (rows ← execute c sql_catalog [] (λ db, qmap (take 1) (translations db));
                   match head rows with
                   | Some row => t ← Translation_of_row row; mret [t]
                   | None => mret (@nil Translation)
                   end)
                  (λ e, report e;; mret []);
        close c;;
        mret (Some c, translations_list ++ found)
    end
  else mret (conn, translations_list).

Fixpoint scan_files (w : World) (filenames : list string)
    (conn : option Connection) (translations_list : list Translation)
    : Py (list Translation) :=
  match filenames with
  | [] => mret translations_list
  | filename :: rest =>
      st ← scan_file w filename conn translations_list;
      scan_files w rest st.1 st.2
  end.

Definition get_all_translations (w : World) : Py (list Translation) :=
  translations_list ← scan_files w (listdir_base w) None [];
  match translations_list with
  | [] => raise (HTTPException 404 "No translations found")
  | _ => mret translations_list
  end.

(** ** Translation-specific endpoints *)

Definition get_books_for_translation (w : World) (translation_id : string)
    : Py (list Book) :=
  conn ← get_translation_db w translation_id;
  let table_name := upper translation_id +:+ "_books" in
  try_finally
    (try_except_sqlite
       (rows ← execute conn ("SELECT id, name FROM " +:+ table_name +:+ " ORDER BY id") []
                  (λ db, qmap (order_by by_id) (books_of db table_name));
        mret (map (λ row, mkBook (b_id row) (b_name row)) rows))
       (λ e, raise (HTTPException 500 ("Error fetching books: " +:+ e))))
    (close conn).

Definition get_chapter_counts (w : World) (translation_id : string) (book_id : Z)
    : Py (gmap Z Z) :=
  conn ← get_translation_db w translation_id;
  let table_name := upper translation_id +:+ "_verses" in
  try_finally
    (try_except_sqlite
       (let query := sql_block 8
          [ "SELECT chapter, COUNT(*) as verse_count";
            "FROM " +:+ table_name;
            "WHERE book_id = ?";
            "GROUP BY chapter";
            "ORDER BY chapter" ] in
        rows ← execute conn query [PInt book_id]
                  (λ db, qmap (λ t, group_count_by_chapter
                                      (filter (λ r, r_book_id r = book_id) t))
                              (verses_of db table_name));
        (* Return as dictionary: chapter -> verse_count *)
        let result := py_dict rows in
        if decide (result = ∅)
        then raise (HTTPException 404 "No chapters found for given book")
        else mret result)
       (λ e, raise (HTTPException 500 ("Error fetching chapters: " +:+ e))))
    (close conn).

Definition get_verses_in_chapter (w : World) (translation_id : string)
    (book_id chapter : Z) : Py (list Verse) :=
  conn ← get_translation_db w translation_id;
  let table_name := upper translation_id +:+ "_verses" in
  try_finally
    (try_except_sqlite
       (let query := sql_block 8
          [ "SELECT verse, text";
            "FROM " +:+ table_name;
            "WHERE book_id = ? AND chapter = ?";
            "ORDER BY verse" ] in
        rows ← execute conn query [PInt book_id; PInt chapter]
                  (λ db, qmap (λ t, order_by by_verse
                                      (filter (λ r, r_book_id r = book_id
                                                    ∧ r_chapter r = chapter) t))
                              (verses_of db table_name));
        let verses := map (λ row, mkVerse (r_verse row) (r_text row)) rows in
        match verses with
        | [] => raise (HTTPException 404 "No verses found for given chapter")
        | _ => mret verses
        end)
       (λ e, raise (HTTPException 500 ("Error fetching verses: " +:+ e))))
    (close conn).

(** ** Additional endpoints *)

Definition search_verses (w : World) (translation query : string) (book : option Z)
    : Py (list Verse) :=
  conn ← get_translation_db w translation;
  let table_name := upper translation +:+ "_verses" in
  try_finally
    (try_except_sqlite
       (let sql := "SELECT verse, text FROM " +:+ table_name +:+ " WHERE text LIKE ?" in
        let params := [PText ("%" +:+ query +:+ "%")] in
        let sql := match book with Some _ => sql +:+ " AND book_id = ?" | None => sql end in
        let params := match book with Some b => params ++ [PInt b] | None => params end in
        let sql := sql +:+ " ORDER BY chapter, verse LIMIT 100" in
        rows ← execute_with conn sql params
                  (λ db, qmap (λ t,
                      let matching :=
                        filter (λ r, sqlite_like ("%" +:+ query +:+ "%") (r_text r)) t in
                      let scoped := match book with
                                    | Some b => filter (λ r, r_book_id r = b) matching
                                    | None => matching
                                    end in
                      take 100 (order_by by_chapter_verse scoped))
                    (verses_of db table_name))
                  (λ db, like_failure ("%" +:+ query +:+ "%") (verses_of db table_name));
        let verses := map (λ row, mkVerse (r_verse row) (r_text row)) rows in
        mret verses)
       (λ e, raise (HTTPException 500 ("Error in search: " +:+ e))))
    (close conn).

(* WHERE clause of the one-chapter statement of get_passage *)
Definition in_one_chapter (book chapter start_verse end_verse : Z) (r : VerseRow) : Prop :=
  r_book_id r = book ∧ r_chapter r = chapter
  ∧ (start_verse ≤ r_verse r ∧ r_verse r ≤ end_verse)%Z.

(* WHERE clause of the statement of get_passage across chapters *)
Definition in_chapter_span (book start_chapter start_verse end_chapter end_verse : Z)
    (r : VerseRow) : Prop :=
  r_book_id r = book
  ∧ ((r_chapter r = start_chapter ∧ (r_verse r >= start_verse)%Z)
     ∨ ((r_chapter r > start_chapter)%Z ∧ (r_chapter r < end_chapter)%Z)
     ∨ (r_chapter r = end_chapter ∧ (r_verse r ≤ end_verse)%Z)).

#[export] Instance in_one_chapter_dec b c sv ev r : Decision (in_one_chapter b c sv ev r).
Proof. unfold in_one_chapter; apply _. Defined.
#[export] Instance in_chapter_span_dec b sc sv ec ev r :
  Decision (in_chapter_span b sc sv ec ev r).
Proof. unfold in_chapter_span; apply _. Defined.

Definition get_passage (w : World) (translation : string)
    (book start_chapter start_verse end_chapter end_verse : Z) : Py (list Verse) :=
  conn ← get_translation_db w translation;
  let table_name := upper translation +:+ "_verses" in
  try_finally
    (try_except_sqlite
       (rows ←
          (* If the passage is within one chapter *)
          (if decide (start_chapter = end_chapter) then
             let query := sql_block 12
               [ "SELECT chapter, verse, text";
                 "FROM " +:+ table_name;
                 "WHERE book_id = ? AND chapter = ? AND verse BETWEEN ? AND ?";
                 "ORDER BY verse" ] in
             execute conn query
               [PInt book; PInt start_chapter; PInt start_verse; PInt end_verse]
               (λ db, qmap (λ t, order_by by_verse
                                   (filter (in_one_chapter book start_chapter
                                              start_verse end_verse) t))
                           (verses_of db table_name))
           else
             (* Passage across chapters *)
             let query := sql_block 12
               [ "SELECT chapter, verse, text";
                 "FROM " +:+ table_name;
                 "WHERE book_id = ? AND (";
                 "    (chapter = ? AND verse >= ?) OR";
                 "    (chapter > ? AND chapter < ?) OR";
                 "    (chapter = ? AND verse <= ?)";
                 ")";
                 "ORDER BY chapter, verse" ] in
             execute conn query
               [PInt book; PInt start_chapter; PInt start_verse; PInt start_chapter;
                PInt end_chapter; PInt end_chapter; PInt end_verse]
               (λ db, qmap (λ t, order_by by_chapter_verse
                                   (filter (in_chapter_span book start_chapter
                                              start_verse end_chapter end_verse) t))
                           (verses_of db table_name)));
        match rows with
        | [] => raise (HTTPException 404 "Passage not found")
        | _ => mret (map (λ row, mkVerse (r_verse row) (r_text row)) rows)
        end)
       (λ e, raise (HTTPException 500 ("Error fetching passage: " +:+ e))))
    (close conn).

Definition get_cross_references (w : World) (translation_id : string)
    (book_id chapter verse : Z) : Py (list CrossReference) :=
  (* we assume the book abbreviation is the same as the book_id string *)
  let from_book_ := str book_id in
  conn ← get_db_connection w GLOBAL_DB_FILE;
  try_finally
    (try_except_sqlite
       (let query := sql_block 8
          [ "SELECT from_book, from_chapter, from_verse,";
            "       to_book, to_chapter, to_verse_start, to_verse_end, votes";
            "FROM cross_references";
            "WHERE from_book = ? AND from_chapter = ? AND from_verse = ?";
            "ORDER BY votes DESC" ] in
        rows ← execute conn query [PText from_book_; PInt chapter; PInt verse]
                  (λ db, qmap (λ t, order_by by_votes_desc
                                      (filter (λ r, from_book r = from_book_
                                                    ∧ from_chapter r = chapter
                                                    ∧ from_verse r = verse) t))
                              (cross_references db));
        match rows with
        | [] => raise (HTTPException 404 "No cross references found")
        | _ => mret rows
        end)
       (λ e, raise (HTTPException 500 ("Error fetching cross references: " +:+ e))))
    (close conn).

(* chapter, verse, text of a row, as dict(r) keeps them *)
Record ChapterVerse := mkChapterVerse { cv_chapter : Z; cv_verse : Z; cv_text : string }.

(* The values compare_translations stores per translation *)
Inductive CompareValue : Type :=
| CmpVerse (v : Verse)                 (* dict(row) *)
| CmpMessage (s : string)              (* "Verse not found" or f"Error: {e}" *)
| CmpChapter (rows : list ChapterVerse). (* [dict(r) for r in rows] *)

(* [if verse:] on an Optional[int] *)
Definition truthy (verse : option Z) : option Z :=
  match verse with
  | Some v => if decide (v = 0%Z) then None else Some v
  | None => None
  end.

(* Body of the loop of compare_translations for translation [t] *)
Definition compare_side (w : World) (t : string) (book chapter : Z) (verse : option Z)
    (result : gmap string CompareValue) : Py (gmap string CompareValue) :=
  conn ← get_translation_db w t;
  let table_name := upper t +:+ "_verses" in
  try_finally
    (try_except_sqlite
       (match truthy verse with
        | Some v =>
            let query := sql_block 16
              [ "SELECT verse, text";
                "FROM " +:+ table_name;
                "WHERE book_id = ? AND chapter = ? AND verse = ?" ] in
            rows ← execute conn query [PInt book; PInt chapter; PInt v]
                      (λ db, qmap (filter (λ r, r_book_id r = book ∧ r_chapter r = chapter
                                                ∧ r_verse r = v))
                                  (verses_of db table_name));
            match head rows with
            | Some row =>
                mret (<[upper t := CmpVerse (mkVerse (r_verse row) (r_text row))]> result)
            | None => mret (<[upper t := CmpMessage "Verse not found"]> result)
            end
        | None =>
            let query := sql_block 16
              [ "SELECT chapter, verse, text";
                "FROM " +:+ table_name;
                "WHERE book_id = ? AND chapter = ?";
                "ORDER BY verse" ] in
            rows ← execute conn query [PInt book; PInt chapter]
                      (λ db, qmap (λ tbl, order_by by_verse
                                     (filter (λ r, r_book_id r = book ∧ r_chapter r = chapter)
                                             tbl))
                                  (verses_of db table_name));
            mret (<[upper t := CmpChapter
                      (map (λ r, mkChapterVerse (r_chapter r) (r_verse r) (r_text r)) rows)]>
                    result)
        end)
       (λ e, mret (<[upper t := CmpMessage ("Error: " +:+ e)]> result)))
    (close conn).

Fixpoint compare_loop (w : World) (ts : list string) (book chapter : Z)
    (verse : option Z) (result : gmap string CompareValue)
    : Py (gmap string CompareValue) :=
  match ts with
  | [] => mret result
  | t :: rest =>
      result' ← compare_side w t book chapter verse result;
      compare_loop w rest book chapter verse result'
  end.

Definition compare_translations (w : World) (translation1 translation2 : string)
    (book chapter : Z) (verse : option Z) : Py (gmap string CompareValue) :=
  compare_loop w [translation1; translation2] book chapter verse ∅.

(** ** User annotations (in memory) *)

Record AnnotationDict := mkAnnotation {
  a_id : Z;
  a_translation : string;
  a_book : string;
  a_chapter : Z;
  a_verse : Z;
  a_note : string }.

(* The module-level variables ANNOTATIONS and annotation_id_counter *)
Record Globals := mkGlobals {
  ANNOTATIONS : list AnnotationDict;
  annotation_id_counter : Z }.

Definition initial_globals : Globals :=
  {| ANNOTATIONS := []; annotation_id_counter := 1 |}.

Definition add_annotation (translation : string) (book chapter verse : Z) (note : string)
    (g : Globals) : AnnotationDict * Globals :=
  let new_annotation :=
    {| a_id := annotation_id_counter g;
       a_translation := upper translation;
       a_book := str book;
       a_chapter := chapter;
       a_verse := verse;
       a_note := note |} in
  (new_annotation,
   {| ANNOTATIONS := ANNOTATIONS g ++ [new_annotation];
      annotation_id_counter := (annotation_id_counter g + 1)%Z |}).

(* [a for a in filtered if int(a["book"]) == book]; ValueError if some
   a["book"] is not a decimal number *)
Fixpoint filter_by_book (book : Z) (filtered : list AnnotationDict)
    : Outcome (list AnnotationDict) :=
  match filtered with
  | [] => Returned []
  | a :: rest =>
      match int (a_book a) with
      | None => Raised (ValueError "invalid literal for int() with base 10")
      | Some b =>
          match filter_by_book book rest with
          | Returned kept => Returned (if decide (b = book) then a :: kept else kept)
          | Raised e => Raised e
          end
      end
  end.

Definition get_annotations (translation : option string) (book chapter verse : option Z)
    (g : Globals) : Outcome (list AnnotationDict) :=
  let filtered := ANNOTATIONS g in
  let filtered :=
    match translation with
    | Some t => if decide (t = EmptyString) then filtered
                else filter (λ a, a_translation a = upper t) filtered
    | None => filtered
    end in
  let filtered :=
    match book with
    | Some b => filter_by_book b filtered
    | None => Returned filtered
    end in
  match filtered with
  | Raised e => Raised e
  | Returned filtered =>
      let filtered :=
        match chapter with
        | Some c => filter (λ a, a_chapter a = c) filtered
        | None => filtered
        end in
      let filtered :=
        match verse with
        | Some v => filter (λ a, a_verse a = v) filtered
        | None => filtered
        end in
      Returned filtered
  end.

(* The requests that read or write the annotation store *)
Inductive AnnotationRequest : Type :=
| PostAnnotation (translation : string) (book chapter verse : Z) (note : string)
| GetAnnotations (translation : option string) (book chapter verse : option Z).

Inductive AnnotationResponse : Type :=
| Created (a : AnnotationDict)
| Listed (r : Outcome (list AnnotationDict)).

Definition handle (g : Globals) (rq : AnnotationRequest) : AnnotationResponse * Globals :=
  match rq with
  | PostAnnotation translation book chapter verse note =>
      let (a, g') := add_annotation translation book chapter verse note g in
      (Created a, g')
  | GetAnnotations translation book chapter verse =>
      (Listed (get_annotations translation book chapter verse g), g)
  end.

(* The process from its start: the requests are served one after another *)
Fixpoint serve_from (g : Globals) (rqs : list AnnotationRequest)
    : list AnnotationResponse * Globals :=
  match rqs with
  | [] => ([], g)
  | rq :: rest =>
      let (resp, g') := handle g rq in
      let (resps, g'') := serve_from g' rest in
      (resp :: resps, g'')
  end.

Definition serve (rqs : list AnnotationRequest) : list AnnotationResponse * Globals :=
  serve_from initial_globals rqs.

(* The ids handed out by the POST requests, in order *)
Definition created_ids (resps : list AnnotationResponse) : list Z :=
  omap (λ r, match r with Created a => Some (a_id a) | Listed _ => None end) resps.

(** add_annotation under overlapping requests.  FastAPI runs a sync endpoint
    in a worker thread and main.py takes no lock, so the interpreter may
    switch threads between any two of the steps below: they are the places
    where add_annotation reads or writes ANNOTATIONS and
    annotation_id_counter. *)

Inductive AddState : Type :=
| AddCalled                                      (* the call has started *)
| AddBuilt (new_annotation : AnnotationDict)     (* the dict is built: the counter was read *)
| AddAppended (new_annotation : AnnotationDict)  (* ANNOTATIONS.append(new_annotation) *)
| AddLoaded (new_annotation : AnnotationDict) (counter : Z)
                                                 (* the read of annotation_id_counter += 1 *)
| AddReturned (new_annotation : AnnotationDict). (* its write; return new_annotation *)

Record AddCall := mkAddCall {
  c_translation : string;
  c_book : Z;
  c_chapter : Z;
  c_verse : Z;
  c_note : string;
  c_state : AddState }.

Definition add_annotation_step (c : AddCall) (g : Globals) : AddCall * Globals :=
  let at_state st := mkAddCall (c_translation c) (c_book c) (c_chapter c) (c_verse c)
                       (c_note c) st in
  match c_state c with
  | AddCalled =>
      let new_annotation :=
        {| a_id := annotation_id_counter g;
           a_translation := upper (c_translation c);
           a_book := str (c_book c);
           a_chapter := c_chapter c;
           a_verse := c_verse c;
           a_note := c_note c |} in
      (at_state (AddBuilt new_annotation), g)
  | AddBuilt new_annotation =>
      (at_state (AddAppended new_annotation),
       {| ANNOTATIONS := ANNOTATIONS g ++ [new_annotation];
          annotation_id_counter := annotation_id_counter g |})
  | AddAppended new_annotation =>
      (at_state (AddLoaded new_annotation (annotation_id_counter g)), g)
  | AddLoaded new_annotation counter =>
      (at_state (AddReturned new_annotation),
       {| ANNOTATIONS := ANNOTATIONS g; annotation_id_counter := (counter + 1)%Z |})
  | AddReturned _ => (c, g)
  end.

(* The thread of call number [i] runs one step *)
Definition schedule_step (st : list AddCall * Globals) (i : nat) : list AddCall * Globals :=
  match st.1 !! i with
  | Some c => let (c', g') := add_annotation_step c st.2 in (<[i := c']> st.1, g')
  | None => st
  end.

(* The calls [calls] run from the store [g], their steps interleaved in the
   order of [schedule] *)
Definition run_schedule (schedule : list nat) (calls : list AddCall) (g : Globals)
    : list AddCall * Globals :=
  foldl schedule_step (calls, g) schedule.

(* The annotation a call has returned *)
Definition returned (c : AddCall) : option AnnotationDict :=
  match c_state c with
  | AddReturned new_annotation => Some new_annotation
  | _ => None
  end.

(* A POST request that has just arrived *)
Definition post (translation : string) (book chapter verse : Z) (note : string) : AddCall :=
  mkAddCall translation book chapter verse note AddCalled.

Definition request_of (c : AddCall) : AnnotationRequest :=
  PostAnnotation (c_translation c) (c_book c) (c_chapter c) (c_verse c) (c_note c).

(* The schedule of [n] calls that do not overlap: each call runs its four
   steps before the next one starts *)
Definition one_after_another (n : nat) : list nat :=
  flat_map (replicate 4) (seq 0 n).

(** ** Example datasets *)

Module Examples.

Definition kjv_verses : list VerseRow :=
  [ mkVerseRow 1 1 1 "In the beginning God created the heaven and the earth.";
    mkVerseRow 1 1 2 "And the earth was without form, and void";
    mkVerseRow 1 1 3 "And God said, Let there be light: and there was light.";
    mkVerseRow 1 2 1 "Thus the heavens and the earth were finished";
    mkVerseRow 1 2 2 "And on the seventh day God ended his work";
    mkVerseRow 1 3 1 "Now the serpent was more subtil";
    mkVerseRow 2 1 1 "Now these are the names of the children of Israel" ].

Definition no_such_table {A} (table_name : string) : QueryResult A :=
  EngineError ("no such table: " +:+ table_name).

Definition kjv_db : Database :=
  {| translations :=
       Rows [mkCatalogRow (Some "KJV") (Some "King James Version") (Some "Public Domain")];
     books_of := λ table_name,
       if String.eqb table_name "KJV_books"
       then Rows [mkBookRow 2 "Exodus"; mkBookRow 1 "Genesis"]
       else no_such_table table_name;
     verses_of := λ table_name,
       if String.eqb table_name "KJV_verses" then Rows kjv_verses
       else no_such_table table_name;
     cross_references := no_such_table "cross_references" |}.

(* A dataset whose catalog row has no title *)
Definition untitled_db : Database :=
  {| translations := Rows [mkCatalogRow (Some "BAD") None None];
     books_of := no_such_table;
     verses_of := no_such_table;
     cross_references := no_such_table "cross_references" |}.

(* A dataset whose file name is not a word; its tables are named alike *)
Definition odd_db : Database :=
  {| translations := Rows [mkCatalogRow (Some "K-V") (Some "Odd") None];
     books_of := λ table_name, EngineError "near -: syntax error";
     verses_of := λ table_name, EngineError "near -: syntax error";
     cross_references := no_such_table "cross_references" |}.

Definition xrefs : list CrossReference :=
  [ mkCrossReference "1" 1 1 "43" 1 1 3 10;
    mkCrossReference "1" 1 1 "58" 11 3 3 25;
    mkCrossReference "1" 1 2 "24" 4 23 23 7;
    mkCrossReference "1" 1 1 "19" 33 6 6 10;
    mkCrossReference "1" 1 1 "23" 45 18 18 25 ].

Definition global_db : Database :=
  {| translations :=
       Rows [mkCatalogRow (Some "KJV") (Some "King James Version") (Some "Public Domain");
             mkCatalogRow (Some "ASV") (Some "American Standard Version") None];
     books_of := no_such_table;
     verses_of := no_such_table;
     cross_references := Rows xrefs |}.

(* A shared dataset keyed by book abbreviations, as the table is documented *)
Definition abbrev_xrefs : list CrossReference :=
  [ mkCrossReference "Gen" 1 1 "John" 1 1 3 10;
    mkCrossReference "Gen" 1 1 "Heb" 11 3 3 25 ].

Definition abbrev_db : Database :=
  {| translations := no_such_table "translations";
     books_of := no_such_table;
     verses_of := no_such_table;
     cross_references := Rows abbrev_xrefs |}.

Definition abbrev_world : World :=
  {| listdir_base := ["translations.db"];
     files := {[ GLOBAL_DB_FILE := FFile abbrev_db ]} |}.

Definition world : World :=
  {| listdir_base := ["KJV.db"; "README.md"; "BAD.db"; "translations.db"; "K-V.db"];
     files :=
       {[ translation_file "KJV" := FFile kjv_db;
          translation_file "BAD" := FFile untitled_db;
          translation_file "K-V" := FFile odd_db;
          GLOBAL_DB_FILE := FFile global_db ]} |}.

End Examples.

(** ** Specification-side definitions used in the statements *)

(* The identifier consists of letters, digits and underscores only *)
Definition allow_listed (translation_id : string) : bool :=
  all_chars is_word_char translation_id.

Definition is_execute (ev : Event) : bool :=
  match ev with EExecute _ _ _ => true | _ => false end.

Definition is_print (ev : Event) : bool :=
  match ev with EPrint _ => true | _ => false end.

(* The paths a trace connects to or runs statements on *)
Definition event_path (ev : Event) : option string :=
  match ev with
  | EConnect p | EExecute p _ _ | EClose p => Some p
  | EPrint _ => None
  end.

(* The claim of the allow-list, at one input: an identifier with a character
   outside [A-Za-z0-9_] is turned away, and no statement is executed *)
Definition rejected_before_query (w : World) (translation_id : string) : Prop :=
  allow_listed translation_id = false →
  (∃ e, outcome_of (get_books_for_translation w translation_id) = Raised e)
  ∧ Forall (λ ev, is_execute ev = false)
           (trace_of (get_books_for_translation w translation_id)).

(* Verse(verse=row["verse"], text=row["text"]) *)
Definition verse_of_row (row : VerseRow) : Verse := mkVerse (r_verse row) (r_text row).

(* sum(result.values()) for the dictionary of get_chapter_counts *)
Definition dict_sum (counts : gmap Z Z) : Z :=
  foldr Z.add 0%Z (map snd (map_to_list counts)).

(* len(get_verses_in_chapter(...)) *)
Definition chapter_length (w : World) (translation_id : string) (book_id chapter : Z) : Z :=
  match outcome_of (get_verses_in_chapter w translation_id book_id chapter) with
  | Returned verses => Z.of_nat (length verses)
  | Raised _ => 0%Z
  end.

(* The verses of get_verses_in_chapter, counted over the chapters of [counts] *)
Definition verses_total (w : World) (translation_id : string) (book_id : Z)
    (counts : gmap Z Z) : Z :=
  foldr Z.add 0%Z
    (map (λ kv, chapter_length w translation_id book_id kv.1) (map_to_list counts)).

(* What compare_translations records for translation [t] once its dataset
   [db] is connected *)
Definition side_value (db : Database) (t : string) (book chapter : Z) (verse : option Z)
    : CompareValue :=
  match verses_of db (upper t +:+ "_verses") with
  | EngineError msg => CmpMessage ("Error: " +:+ msg)
  | Rows tbl =>
      match truthy verse with
      | Some v =>
          match head (filter (λ r, r_book_id r = book ∧ r_chapter r = chapter
                                   ∧ r_verse r = v) tbl) with
          | Some row => CmpVerse (verse_of_row row)
          | None => CmpMessage "Verse not found"
          end
      | None =>
          CmpChapter
            (map (λ r, mkChapterVerse (r_chapter r) (r_verse r) (r_text r))
                 (order_by by_verse
                    (filter (λ r, r_book_id r = book ∧ r_chapter r = chapter) tbl)))
      end
  end.

(* The claim of compare, at one input: the call returns a result, with an
   entry for each of the two translations *)
Definition reports_both_sides (w : World) (translation1 translation2 : string)
    (book chapter : Z) (verse : option Z) : Prop :=
  ∃ result,
    outcome_of (compare_translations w translation1 translation2 book chapter verse)
    = Returned result
    ∧ is_Some (result !! upper translation1)
    ∧ is_Some (result !! upper translation2).

(* [needle] is at the start of [s], ASCII letters compared without case *)
Fixpoint prefix_nocase (needle s : string) : bool :=
  match needle, s with
  | EmptyString, _ => true
  | String _ _, EmptyString => false
  | String a needle', String b s' => (eq_nocase a b && prefix_nocase needle' s')%bool
  end.

(* [needle] occurs in [haystack], ASCII letters compared without case *)
Fixpoint contains_nocase (needle haystack : string) : bool :=
  (prefix_nocase needle haystack
   || match haystack with
      | EmptyString => false
      | String _ haystack' => contains_nocase needle haystack'
      end)%bool.

(* The claim of crossReferences, at one coordinate of the table [tbl]: some
   request is answered with the rows stored for the coordinate *)
Definition serves_coordinate (w : World) (tbl : list CrossReference)
    (from_book_abbrev : string) (chapter verse : Z) : Prop :=
  ∃ translation_id book_id rows,
    outcome_of (get_cross_references w translation_id book_id chapter verse)
    = Returned rows
    ∧ rows ≡ₚ filter (λ r, from_book r = from_book_abbrev ∧ from_chapter r = chapter
                          ∧ from_verse r = verse) tbl.

(* The claim of the id counter, on a store: each annotation appended has an
   id greater than those appended before it *)
Definition ids_increase (g : Globals) : Prop :=
  StronglySorted Z.lt (a_id <$> ANNOTATIONS g).

(* The text has no NUL character *)
Definition nul_free (s : string) : bool :=
  all_chars (λ c, negb (Ascii.eqb c Ascii.zero)) s.

(* The pattern search_verses builds from the query fits the engine's limit *)
Definition pattern_fits (query : string) : bool :=
  negb (like_too_complex ("%" +:+ query +:+ "%")).

(* The query has none of the characters LIKE reads as wildcards *)
Definition wildcard_free (query : string) : bool :=
  all_chars (λ c, negb (Ascii.eqb c "%" || Ascii.eqb c "_")) query.

(* The claim of search on the returned texts, at one input *)
Definition rows_contain_query (w : World) (translation query : string) (book : option Z)
    : Prop :=
  ∀ verses,
    outcome_of (search_verses w translation query book) = Returned verses →
    Forall (λ v, contains_nocase query (text v) = true) verses.

(* What the scan of get_all_translations finds in one dataset file: the
   first catalog row as a Translation, nothing when the catalog has no row,
   or the exception raised on the way *)
Definition read_catalog (w : World) (filename : string) : Outcome (option Translation) :=
  let db_path := path_join BASE_DB_PATH filename in
  match files w !! db_path with
  | None => Raised (HTTPException 404 ("Database file " +:+ db_path +:+ " not found"))
  | Some FDir => Raised (sqlite3_Error "unable to open database file")
  | Some (FFile db) =>
      match translations db with
      | EngineError msg => Raised (sqlite3_Error msg)
      | Rows [] => Returned None
      | Rows (row :: _) =>
          match cat_translation row, cat_title row with
          | Some t, Some ti => Returned (Some (mkTranslation t ti (cat_license row)))
          | _, _ => Raised (ValidationError "validation error for Translation")
          end
      end
  end.

(* The entry a dataset file contributes to the listing *)
Definition catalog_entry (w : World) (filename : string) : option Translation :=
  match read_catalog w filename with
  | Returned (Some t) => Some t
  | _ => None
  end.

(* The line logged for a dataset file that is skipped on an exception *)
Definition catalog_report (w : World) (filename : string) : option Event :=
  match read_catalog w filename with
  | Raised e => Some (EPrint ("Error reading " +:+ filename +:+ ": " +:+ exc_str e))
  | Returned _ => None
  end.

(* The statement run on a dataset file that could be opened *)
Definition catalog_query (w : World) (filename : string) : option Event :=
  match files w !! path_join BASE_DB_PATH filename with
  | Some (FFile _) => Some (EExecute (path_join BASE_DB_PATH filename) sql_catalog [])
  | _ => None
  end.

(* The physical datasets: the .db files of the base directory *)
Definition datasets (w : World) : list string :=
  filter (λ filename, endswith filename ".db") (listdir_base w).

(** ** Further handlers and scripts *)

(* GET .../verses/{verse} *)
Definition get_single_verse (w : World) (translation_id : string)
    (book_id chapter verse : Z) : Py Verse :=
  conn ← get_translation_db w translation_id;
  let table_name := upper translation_id +:+ "_verses" in
  try_finally
    (try_except_sqlite
       (let query := sql_block 8
          [ "SELECT verse, text";
            "FROM " +:+ table_name;
            "WHERE book_id = ? AND chapter = ? AND verse = ?" ] in
        rows ← execute conn query [PInt book_id; PInt chapter; PInt verse]
                  (λ db, qmap (filter (λ r, r_book_id r = book_id ∧ r_chapter r = chapter
                                            ∧ r_verse r = verse))
                              (verses_of db table_name));
        match head rows with
        | None => raise (HTTPException 404 "Verse not found")
        | Some row => mret (mkVerse (r_verse row) (r_text row))
        end)
       (λ e, raise (HTTPException 500 ("Error fetching verse: " +:+ e))))
    (close conn).

(* cursor.execute(sql) of an aggregate without GROUP BY followed by
   cursor.fetchone()["count"]: such a statement has exactly one row *)
Definition execute_count {A} (conn : Connection) (sql : string)
    (meaning : Database → QueryResult A) (count : list A → Z) : Py Z :=
  emit (EExecute (conn_path conn) sql []);;
  match meaning (conn_db conn) with
  | Rows rows => mret (count rows)
  | EngineError msg => raise (sqlite3_Error msg)
  end.

(* The dictionary get_translation_stats returns *)
Record Stats := mkStats { books_count : Z; chapters_count : Z; verses_count : Z }.

Definition get_translation_stats (w : World) (translation_id : string) : Py Stats :=
  conn ← get_translation_db w translation_id;
  let books_table := upper translation_id +:+ "_books" in
  let verses_table := upper translation_id +:+ "_verses" in
  try_finally
    (try_except_sqlite
       (books_count ← execute_count conn ("SELECT COUNT(*) as count FROM " +:+ books_table)
                        (λ db, books_of db books_table) (λ t, Z.of_nat (length t));
        (* Total chapters: distinct chapters count across all books *)
        chapters_count ← execute_count conn
                           ("SELECT COUNT(DISTINCT chapter) as count FROM " +:+ verses_table)
                           (λ db, verses_of db verses_table)
                           (λ t, Z.of_nat (length (remove_dups (map r_chapter t))));
        (* Total verses: sum of verses *)
        verses_count ← execute_count conn ("SELECT COUNT(*) as count FROM " +:+ verses_table)
                         (λ db, verses_of db verses_table) (λ t, Z.of_nat (length t));
        mret (mkStats books_count chapters_count verses_count))
       (λ e, raise (HTTPException 500 ("Error fetching statistics: " +:+ e))))
    (close conn).

(* The connections a trace leaves open; closing a closed connection does
   nothing *)
Fixpoint close_one (p : string) (open : list string) : list string :=
  match open with
  | [] => []
  | q :: open' => if decide (p = q) then open' else q :: close_one p open'
  end.

Definition track (open : list string) (ev : Event) : list string :=
  match ev with
  | EConnect p => p :: open
  | EClose p => close_one p open
  | EExecute _ _ _ | EPrint _ => open
  end.

Definition still_open (tr : list Event) : list string := foldl track [] tr.

(* The events of a computation neither open nor close a connection *)
Definition quiet {A} (m : Py A) : Prop :=
  ∀ tr, ∃ evs, (m tr).1 = tr ++ evs ∧ Forall (λ ev, ∀ open, track open ev = open) evs.

(* Run from a state without open connection, a computation leaves none *)
Definition releases {A} (m : Py A) : Prop :=
  ∀ tr, ∃ evs, (m tr).1 = tr ++ evs ∧ foldl track [] evs = [].

(** Text layout of get_verse_quote_image *)

(* str.isascii() on a character: str.upper and str.lower are modelled on
   ASCII letters only, which is what Python does on such text *)
Definition is_ascii (c : ascii) : bool := N.ltb (N_of_ascii c) 128.

(* str.isspace() on an ASCII character *)
Definition is_space (c : ascii) : bool :=
  let n := N_of_ascii c in
  ((N.leb 9 n && N.leb n 13) || (N.leb 28 n && N.leb n 32))%bool.

Definition cons_word (word : string) (words : list string) : list string :=
  match word with
  | EmptyString => words
  | String _ _ => word :: words
  end.

(* The word at the start of [s] (empty when there is none) and the words
   after it *)
Fixpoint split_from (s : string) : string * list string :=
  match s with
  | EmptyString => (EmptyString, [])
  | String c s' =>
      let (word, words) := split_from s' in
      if is_space c then (EmptyString, cons_word word words)
      else (String c word, words)
  end.

(* str.split() *)
Definition split (s : string) : list string :=
  let (word, words) := split_from s in cons_word word words.

Section QuoteImage.
(* draw.textlength(line, font=verse_font) <= max_width *)
Variable fits : string → bool.

(* for word in words[1:]: ... ; lines.append(current_line) *)
Fixpoint wrap_loop (words : list string) (current_line : string) (lines : list string)
    : list string :=
  match words with
  | [] => lines ++ [current_line]
  | word :: rest =>
      let test_line := current_line +:+ " " +:+ word in
      if fits test_line then wrap_loop rest test_line lines
      else wrap_loop rest word (lines ++ [current_line])
  end.

(* The lines drawn for [verse_text]; [None] is the IndexError of words[0] *)
Definition wrap_verse_text (verse_text : string) : option (list string) :=
  let words := split verse_text in
  match words with
  | [] => None
  | current_line :: rest => Some (wrap_loop rest current_line [])
  end.
End QuoteImage.

(** The renaming scripts *)

(* str.lower() *)
Fixpoint lower (s : string) : string :=
  match s with
  | EmptyString => EmptyString
  | String c s' => String (lower_ascii c) (lower s')
  end.

(* s.rfind(c) *)
Fixpoint rfind (c : ascii) (s : string) : option nat :=
  match s with
  | EmptyString => None
  | String a s' =>
      match rfind c s' with
      | Some i => Some (S i)
      | None => if Ascii.eqb a c then Some 0 else None
      end
  end.

(* s[:i] and s[i:] *)
Fixpoint str_take (i : nat) (s : string) : string :=
  match i, s with
  | S i', String c s' => String c (str_take i' s')
  | _, _ => EmptyString
  end.

Fixpoint str_drop (i : nat) (s : string) : string :=
  match i, s with
  | S i', String _ s' => str_drop i' s'
  | _, _ => s
  end.

(* Some character of [s] is not a dot *)
Fixpoint has_non_dot (s : string) : bool :=
  match s with
  | EmptyString => false
  | String c s' => (negb (Ascii.eqb c ".") || has_non_dot s')%bool
  end.

(* os.path.splitext: the extension starts at the last dot, unless that dot
   is before the last separator or has only dots between the separator and
   itself *)
Definition splitext (p : string) : string * string :=
  let filename_index := match rfind "/" p with Some i => S i | None => 0 end in
  match rfind "." p with
  | Some dot_index =>
      if (Nat.leb filename_index dot_index
          && has_non_dot (str_drop filename_index (str_take dot_index p)))%bool
      then (str_take dot_index p, str_drop dot_index p)
      else (p, EmptyString)
  | None => (p, EmptyString)
  end.

(* uppercase.py: the name a file is renamed to *)
Definition new_file_name (filename : string) : string :=
  let (file_name, file_extension) := splitext filename in
  upper file_name +:+ file_extension.

(* rename_to_uppercase.py: what the loop does with one directory entry *)
Inductive RenameStep : Type :=
| NotADatabase                              (* filename does not end with .db *)
| AlreadyUppercase                          (* "... is already uppercase. Skipping." *)
| CaseConflict                              (* "Warning: Cannot rename ..." *)
| Move (old_path new_path : string).        (* shutil.move(old_path, new_path) *)

Definition rename_step (path_exists : string → bool) (filename : string) : RenameStep :=
  if endswith filename ".db" then
    let old_path := path_join BASE_DB_PATH filename in
    let new_filename := upper filename in
    let new_path := path_join BASE_DB_PATH new_filename in
    if String.eqb filename new_filename then AlreadyUppercase
    else if (path_exists new_path
             && negb (String.eqb (lower old_path) (lower new_path)))%bool
    then CaseConflict
    else Move old_path new_path
  else NotADatabase.

(** * Properties *)

(** ** Strings *)

Lemma upper_ascii_idemp (c : ascii) : upper_ascii (upper_ascii c) = upper_ascii c.
Proof. destruct c as [[] [] [] [] [] [] [] []]; reflexivity. Qed.

Lemma upper_idemp (s : string) : upper (upper s) = upper s.
Proof.
  induction s as [|c s IH]; simpl; [reflexivity|].
  now rewrite upper_ascii_idemp, IH.
Qed.

Lemma upper_ascii_not_lower (c : ascii) : is_ascii_lower (upper_ascii c) = false.
Proof. destruct c as [[] [] [] [] [] [] [] []]; reflexivity. Qed.

Lemma upper_no_lower (s : string) :
  all_chars (λ c, negb (is_ascii_lower c)) (upper s) = true.
Proof.
  induction s as [|c s IH]; simpl; [reflexivity|].
  now rewrite upper_ascii_not_lower, IH.
Qed.

Lemma path_join_base (name : string) :
  path_join BASE_DB_PATH name
  = if String.prefix "/" name then name else BASE_DB_PATH +:+ "/" +:+ name.
Proof. unfold path_join. now destruct (String.prefix "/" name). Qed.

Lemma lower_upper_ascii (c : ascii) : lower_ascii (upper_ascii c) = lower_ascii c.
Proof. destruct c as [[] [] [] [] [] [] [] []]; reflexivity. Qed.

Lemma lower_upper (s : string) : lower (upper s) = lower s.
Proof.
  induction s as [|c s IH]; [reflexivity|]. cbn. now rewrite lower_upper_ascii, IH.
Qed.

Lemma upper_length (s : string) : String.length (upper s) = String.length s.
Proof. induction s as [|x s IH]; [reflexivity|]. cbn. now rewrite IH. Qed.

Lemma int_str (z : Z) : int (str z) = Some z.
Proof.
  unfold int, str. rewrite NilZero.isi.
  - cbn. now rewrite DecimalZ.of_to.
  - destruct z; cbn; try discriminate.
    intros [= H]. now apply DecimalPos.Unsigned.to_uint_nonnil in H.
  - destruct z; cbn; try discriminate.
    intros [= H]. now apply DecimalPos.Unsigned.to_uint_nonnil in H.
Qed.

Lemma str_inj (a b : Z) : str a = str b → a = b.
Proof.
  intros Heq. apply (f_equal int) in Heq. rewrite !int_str in Heq. congruence.
Qed.

(** ** Running the handler monad *)

Lemma run_bind {A B} (m : Py A) (f : A → Py B) (tr : list Event) :
  (m ≫= f) tr =
  match m tr with
  | (tr', Returned a) => f a tr'
  | (tr', Raised e) => (tr', Raised e)
  end.
Proof. reflexivity. Qed.

Lemma get_db_connection_run (w : World) (db_path : string) (tr : list Event) :
  get_db_connection w db_path tr =
  match files w !! db_path with
  | None =>
      (tr, Raised (HTTPException 404 ("Database file " +:+ db_path +:+ " not found")))
  | Some FDir => (tr, Raised (sqlite3_Error "unable to open database file"))
  | Some (FFile db) => (tr ++ [EConnect db_path], Returned (mkConnection db_path db))
  end.
Proof.
  unfold get_db_connection.
  destruct (files w !! db_path) as [[|db]|]; reflexivity.
Qed.

Lemma get_translation_db_run (w : World) (translation_id : string) (tr : list Event) :
  get_translation_db w translation_id tr =
  get_db_connection w (translation_file translation_id) tr.
Proof. reflexivity. Qed.

Lemma get_translation_db_open (w : World) (translation_id : string) (db : Database)
    (tr : list Event) :
  files w !! translation_file translation_id = Some (FFile db) →
  get_translation_db w translation_id tr =
  (tr ++ [EConnect (translation_file translation_id)],
   Returned (mkConnection (translation_file translation_id) db)).
Proof.
  intros Hf. rewrite get_translation_db_run, get_db_connection_run.
  now rewrite Hf.
Qed.

Lemma execute_with_run {A} (conn : Connection) (sql : string) (params : list SqlParam)
    (meaning : Database → QueryResult A) (failure : Database → option string)
    (tr : list Event) :
  execute_with conn sql params meaning failure tr =
  (tr ++ [EExecute (conn_path conn) sql params],
   match meaning (conn_db conn) with
   | Rows rows =>
       if forallb bindable params then
         match failure (conn_db conn) with
         | Some msg => Raised (sqlite3_Error msg)
         | None => Returned rows
         end
       else Raised int_too_large
   | EngineError msg => Raised (sqlite3_Error msg)
   end).
Proof.
  unfold execute_with. rewrite run_bind. unfold emit.
  destruct (meaning (conn_db conn)); [|reflexivity].
  destruct (forallb bindable params); [|reflexivity].
  destruct (failure (conn_db conn)); reflexivity.
Qed.

Lemma execute_run_any {A} (conn : Connection) (sql : string) (params : list SqlParam)
    (meaning : Database → QueryResult A) (tr : list Event) :
  execute conn sql params meaning tr =
  (tr ++ [EExecute (conn_path conn) sql params],
   match meaning (conn_db conn) with
   | Rows rows => if forallb bindable params then Returned rows else Raised int_too_large
   | EngineError msg => Raised (sqlite3_Error msg)
   end).
Proof. unfold execute. now rewrite execute_with_run. Qed.

(* With parameters that can be bound, the statement gives its rows or the
   engine's error *)
Lemma execute_run {A} (conn : Connection) (sql : string) (params : list SqlParam)
    (meaning : Database → QueryResult A) (tr : list Event) :
  forallb bindable params = true →
  execute conn sql params meaning tr =
  (tr ++ [EExecute (conn_path conn) sql params],
   match meaning (conn_db conn) with
   | Rows rows => Returned rows
   | EngineError msg => Raised (sqlite3_Error msg)
   end).
Proof. intros Hbound. now rewrite execute_run_any, Hbound. Qed.

(* Discharges the side condition of [execute_run] from the hypotheses on the
   ints of the request *)
Ltac bound :=
  cbn [forallb bindable option_list option_rect];
  repeat match goal with
         | H : forallb sqlite_int _ = true |- _ =>
             cbn [forallb option_list option_rect] in H
         | H : (_ && _)%bool = true |- _ => apply andb_prop in H as [? ?]
         end;
  repeat match goal with
         | H : sqlite_int _ = true |- _ => rewrite ?H; clear H
         end;
  reflexivity.

(* The parameters of a statement can be bound when its ints fit 64 bits *)
Lemma bindable_ints (ints : list Z) :
  forallb sqlite_int ints = true → forallb bindable (PInt <$> ints) = true.
Proof.
  induction ints as [|i ints IH]; [reflexivity|]. cbn.
  intros [Hi Hints]%andb_prop. now rewrite Hi, IH.
Qed.

Lemma sqlite_int_bounds (i : Z) : sqlite_int i = true ↔ (- 2 ^ 63 ≤ i < 2 ^ 63)%Z.
Proof. unfold sqlite_int. rewrite andb_true_iff, Z.leb_le, Z.ltb_lt. reflexivity. Qed.

(** ** Dataset Locator *)

(** C8.  The locator puts the identifier in upper case: the canonical form
    has no letter a-z, is left as it is by a second normalisation and, for an
    ASCII identifier, is the identifier up to the case of its letters (same
    length, same text in lower case).  It derives the path of the dataset
    from that canonical form alone (two identifiers with the same canonical
    form behave alike), and raises the 404 "Database file ... not found"
    exactly when nothing exists at that path; when a SQLite file is there it
    connects to it. *)
Theorem get_translation_db_locates (w : World) (translation_id : string) :
  let canonical := upper translation_id in
  let db_path := path_join BASE_DB_PATH (canonical +:+ ".db") in
  upper canonical = canonical
  ∧ all_chars (λ c, negb (is_ascii_lower c)) canonical = true
  ∧ (all_chars is_ascii translation_id = true →
       lower canonical = lower translation_id
       ∧ String.length canonical = String.length translation_id)
  ∧ (∀ other, upper other = canonical →
       get_translation_db w other = get_translation_db w translation_id)
  ∧ (files w !! db_path = None ↔
       ∃ status_code detail,
         outcome_of (get_translation_db w translation_id)
         = Raised (HTTPException status_code detail))
  ∧ (files w !! db_path = None →
       run (get_translation_db w translation_id)
       = ([], Raised (HTTPException 404
                        ("Database file " +:+ db_path +:+ " not found"))))
  ∧ (∀ db, files w !! db_path = Some (FFile db) →
       run (get_translation_db w translation_id)
       = ([EConnect db_path], Returned (mkConnection db_path db))).
Proof.
  intros canonical db_path.
  assert (Hrun : run (get_translation_db w translation_id)
                 = get_db_connection w db_path []) by reflexivity.
  split; [apply upper_idemp|].
  split; [apply upper_no_lower|].
  split; [intros _; split; [apply lower_upper|apply upper_length]|].
  split.
  { intros other Hother. unfold get_translation_db. now rewrite Hother. }
  split; [split|split].
  - intros Hnone. eexists _, _. unfold outcome_of. rewrite Hrun.
    rewrite get_db_connection_run, Hnone. reflexivity.
  - intros (sc & d & Hout). unfold outcome_of in Hout. rewrite Hrun in Hout.
    rewrite get_db_connection_run in Hout.
    destruct (files w !! db_path) as [[|db]|]; [discriminate..|reflexivity].
  - intros Hnone. rewrite Hrun, get_db_connection_run, Hnone. reflexivity.
  - intros db Hdb. rewrite Hrun, get_db_connection_run, Hdb. reflexivity.
Qed.

Lemma get_books_for_translation_run (w : World) (translation_id : string) (db : Database) :
  files w !! translation_file translation_id = Some (FFile db) →
  run (get_books_for_translation w translation_id) =
  ([EConnect (translation_file translation_id);
    EExecute (translation_file translation_id)
      ("SELECT id, name FROM " +:+ (upper translation_id +:+ "_books") +:+ " ORDER BY id") [];
    EClose (translation_file translation_id)],
   match books_of db (upper translation_id +:+ "_books") with
   | Rows rows =>
       Returned (map (λ row, mkBook (b_id row) (b_name row)) (order_by by_id rows))
   | EngineError msg => Raised (HTTPException 500 ("Error fetching books: " +:+ msg))
   end).
Proof.
  intros Hf. unfold run, get_books_for_translation.
  rewrite run_bind, (get_translation_db_open _ _ _ _ Hf).
  unfold try_finally, try_except_sqlite.
  rewrite run_bind, execute_run by reflexivity. cbn [conn_db conn_path].
  destruct (books_of db _) as [rows|msg]; reflexivity.
Qed.

Lemma get_books_for_translation_missing (w : World) (translation_id : string) :
  files w !! translation_file translation_id = None →
  run (get_books_for_translation w translation_id) =
  ([], Raised (HTTPException 404
                 ("Database file " +:+ translation_file translation_id +:+ " not found"))).
Proof.
  intros Hf. unfold run, get_books_for_translation.
  rewrite run_bind, get_translation_db_run, get_db_connection_run, Hf.
  reflexivity.
Qed.

(** C2, as the code has it.  The locator has no allow-list: whatever the
    characters of the identifier, the handler is turned away only when no
    file exists at the derived path (with the 404 of a missing dataset, never
    a validation error), and once the file is there the derived name
    <ID>_books is interpolated into the statement as it is and the statement
    is executed. *)
Theorem identifier_interpolated_unvalidated (w : World) (translation_id : string) :
  (∀ msg, outcome_of (get_books_for_translation w translation_id)
          ≠ Raised (ValidationError msg))
  ∧ (files w !! translation_file translation_id = None →
       run (get_books_for_translation w translation_id) =
       ([], Raised (HTTPException 404
                      ("Database file " +:+ translation_file translation_id
                       +:+ " not found"))))
  ∧ (∀ db, files w !! translation_file translation_id = Some (FFile db) →
       EExecute (translation_file translation_id)
         ("SELECT id, name FROM " +:+ (upper translation_id +:+ "_books")
          +:+ " ORDER BY id") []
       ∈ trace_of (get_books_for_translation w translation_id)).
Proof.
  split; [|split].
  - intros msg. unfold outcome_of.
    destruct (files w !! translation_file translation_id) as [[|db]|] eqn:Hf.
    + unfold run, get_books_for_translation.
      rewrite run_bind, get_translation_db_run, get_db_connection_run, Hf.
      discriminate.
    + rewrite (get_books_for_translation_run _ _ _ Hf). cbn [snd].
      destruct (books_of db _); discriminate.
    + rewrite (get_books_for_translation_missing _ _ Hf). discriminate.
  - apply get_books_for_translation_missing.
  - intros db Hf. unfold trace_of.
    rewrite (get_books_for_translation_run _ _ _ Hf). cbn [fst].
    set_solver.
Qed.

Lemma identifier_interpolated_unvalidated_witness :
  allow_listed "k-v" = false
  ∧ files Examples.world !! translation_file "k-v" = Some (FFile Examples.odd_db)
  ∧ EExecute "bible_databases/formats/sqlite/K-V.db"
      "SELECT id, name FROM K-V_books ORDER BY id" []
    ∈ trace_of (get_books_for_translation Examples.world "k-v").
Proof.
  split; [reflexivity|]. split; [reflexivity|].
  exact (proj2 (proj2 (identifier_interpolated_unvalidated Examples.world "k-v"))
           Examples.odd_db eq_refl).
Defined.

(** C2, as stated, fails for the identifier "k-v" when the file K-V.db
    exists: the identifier is not turned away and the statement with
    K-V_books in it is executed. *)
Lemma unlisted_identifier_reaches_query :
  ¬ rejected_before_query Examples.world "k-v".
Proof.
  intros Hclaim. destruct (Hclaim eq_refl) as [_ Hnone].
  vm_compute in Hnone.
  inversion Hnone as [|? ? _ Hrest]; subst.
  inversion Hrest as [|? ? Hexec _]; subst.
  discriminate Hexec.
Qed.

(** ** ORDER BY *)

Section OrderByFacts.
Context {A : Type} (R : relation A) `{!RelDecision R}.

Lemma insert_by_Permutation (x : A) (l : list A) : insert_by R x l ≡ₚ x :: l.
Proof.
  induction l as [|y l IH]; simpl; [reflexivity|].
  destruct (decide (R x y)); [reflexivity|].
  rewrite IH. apply Permutation_swap.
Qed.

Lemma order_by_Permutation (l : list A) : order_by R l ≡ₚ l.
Proof.
  induction l as [|x l IH]; simpl; [reflexivity|].
  now rewrite insert_by_Permutation, IH.
Qed.

Lemma order_by_length (l : list A) : length (order_by R l) = length l.
Proof. now rewrite order_by_Permutation. Qed.

Lemma order_by_nil (l : list A) : order_by R l = [] ↔ l = [].
Proof.
  split; [|now intros ->].
  intros Hnil. apply Permutation_nil.
  rewrite <- Hnil. apply order_by_Permutation.
Qed.

Lemma insert_by_StronglySorted `{!Total R, !Transitive R} (x : A) (l : list A) :
  StronglySorted R l → StronglySorted R (insert_by R x l).
Proof.
  induction 1 as [|y l Hl IH Hy]; simpl.
  - repeat constructor.
  - destruct (decide (R x y)) as [Hxy|Hxy].
    + constructor; [now constructor|].
      constructor; [exact Hxy|].
      eapply Forall_impl; [exact Hy|]. intros z Hyz. now transitivity y.
    + constructor; [exact IH|].
      rewrite insert_by_Permutation. constructor; [|exact Hy].
      destruct (total R x y); [contradiction|assumption].
Qed.

Lemma order_by_StronglySorted `{!Total R, !Transitive R} (l : list A) :
  StronglySorted R (order_by R l).
Proof.
  induction l as [|x l IH]; simpl; [constructor|].
  now apply insert_by_StronglySorted.
Qed.

End OrderByFacts.

#[export] Instance by_id_total : Total by_id.
Proof. intros a b. unfold by_id. lia. Qed.
#[export] Instance by_id_trans : Transitive by_id.
Proof. intros a b c. unfold by_id. lia. Qed.
#[export] Instance by_verse_total : Total by_verse.
Proof. intros a b. unfold by_verse. lia. Qed.
#[export] Instance by_verse_trans : Transitive by_verse.
Proof. intros a b c. unfold by_verse. lia. Qed.
#[export] Instance by_chapter_verse_total : Total by_chapter_verse.
Proof. intros a b. unfold by_chapter_verse. lia. Qed.
#[export] Instance by_chapter_verse_trans : Transitive by_chapter_verse.
Proof. intros a b c. unfold by_chapter_verse. lia. Qed.
#[export] Instance by_votes_desc_total : Total by_votes_desc.
Proof. intros a b. unfold by_votes_desc. lia. Qed.
#[export] Instance by_votes_desc_trans : Transitive by_votes_desc.
Proof. intros a b c. unfold by_votes_desc. lia. Qed.

(* Within one chapter, ORDER BY verse is ORDER BY chapter, verse *)
Lemma by_verse_in_chapter (c : Z) (l : list VerseRow) :
  Forall (λ r, r_chapter r = c) l →
  StronglySorted by_verse l → StronglySorted by_chapter_verse l.
Proof.
  intros Hc Hs. induction Hs as [|x l Hl IH Hx]; [constructor|].
  apply Forall_cons in Hc as [Hxc Hlc].
  constructor; [now apply IH|].
  rewrite Forall_forall in Hx, Hlc |- *. intros y Hy.
  right. split; [rewrite Hxc; symmetry; now apply Hlc|now apply Hx].
Qed.

(* The rows selected by a disjunction of exclusive conditions *)
Lemma filter_or_app {A} (P Q : A → Prop) `{!∀ x, Decision (P x), !∀ x, Decision (Q x)}
    (l : list A) :
  (∀ x, P x → Q x → False) →
  filter (λ x, P x ∨ Q x) l ≡ₚ filter P l ++ filter Q l.
Proof.
  intros Hex. induction l as [|x l IH]; [reflexivity|].
  rewrite !filter_cons.
  destruct (decide (P x)) as [HP|HP], (decide (Q x)) as [HQ|HQ].
  - destruct (Hex x HP HQ).
  - rewrite decide_True by now left. simpl. now rewrite IH.
  - rewrite decide_True by now right. rewrite IH.
    apply Permutation_middle.
  - rewrite decide_False by tauto. exact IH.
Qed.

(** ** Cross-Reference Resolver *)

Lemma get_cross_references_run (w : World) (translation_id : string)
    (book_id chapter verse : Z) (db : Database) :
  files w !! GLOBAL_DB_FILE = Some (FFile db) →
  forallb sqlite_int [chapter; verse] = true →
  ∃ sql params,
    run (get_cross_references w translation_id book_id chapter verse) =
    ([EConnect GLOBAL_DB_FILE; EExecute GLOBAL_DB_FILE sql params; EClose GLOBAL_DB_FILE],
     match cross_references db with
     | Rows tbl =>
         match order_by by_votes_desc
                 (filter (λ r, from_book r = str book_id ∧ from_chapter r = chapter
                               ∧ from_verse r = verse) tbl) with
         | [] => Raised (HTTPException 404 "No cross references found")
         | rows => Returned rows
         end
     | EngineError msg =>
         Raised (HTTPException 500 ("Error fetching cross references: " +:+ msg))
     end).
Proof.
  intros Hf Hints. eexists _, _. unfold run, get_cross_references.
  rewrite run_bind, get_db_connection_run, Hf.
  unfold try_finally, try_except_sqlite.
  rewrite run_bind, execute_run by exact (bindable_ints [chapter; verse] Hints).
  cbn [conn_db conn_path].
  destruct (cross_references db) as [tbl|msg]; [|reflexivity].
  cbn [qmap]. destruct (order_by _ _); reflexivity.
Qed.

(* Whatever the request, the rows it is answered with are keyed by the
   decimal text of its book id *)
Lemma get_cross_references_rows (w : World) (translation_id : string)
    (book_id chapter verse : Z) (rows : list CrossReference) :
  outcome_of (get_cross_references w translation_id book_id chapter verse)
  = Returned rows →
  Forall (λ r, from_book r = str book_id) rows.
Proof.
  unfold outcome_of, run, get_cross_references.
  rewrite run_bind, get_db_connection_run.
  destruct (files w !! GLOBAL_DB_FILE) as [[|db]|]; [discriminate| |discriminate].
  unfold try_finally, try_except_sqlite.
  rewrite run_bind, execute_run_any. cbn [conn_db conn_path].
  destruct (cross_references db) as [tbl|msg]; [|discriminate].
  cbn [qmap]. destruct (forallb bindable _); [|discriminate].
  set (sel := filter _ tbl).
  assert (Hsel : Forall (λ r, from_book r = str book_id) (order_by by_votes_desc sel)).
  { rewrite order_by_Permutation. apply Forall_forall. intros r Hr.
    unfold sel in Hr. now apply list_elem_of_filter in Hr as [[Hb _] _]. }
  destruct (order_by by_votes_desc sel) as [|row more]; [discriminate|].
  intros [= <-]. exact Hsel.
Qed.

(* uppercase.py gives no file a name that starts with a letter a-z *)
Lemma new_file_name_head (filename : string) :
  match new_file_name filename with
  | EmptyString => True
  | String c _ => is_ascii_lower c = false
  end.
Proof.
  assert (Hhead : ∀ stem ext, (stem = EmptyString → ext = EmptyString) →
            match upper stem +:+ ext with
            | EmptyString => True
            | String c _ => is_ascii_lower c = false
            end).
  { intros [|c stem] ext Hext; [now rewrite Hext|].
    change (upper (String c stem) +:+ ext) with (String (upper_ascii c) (upper stem +:+ ext)).
    apply upper_ascii_not_lower. }
  unfold new_file_name, splitext.
  destruct (rfind "." filename) as [dot_index|]; [|now apply Hhead].
  destruct (Nat.leb _ dot_index && has_non_dot _)%bool eqn:Hcond; [|now apply Hhead].
  apply Hhead. intros Hstem. rewrite Hstem in Hcond.
  apply andb_prop in Hcond as [_ Hdots].
  now destruct (match rfind "/" filename with Some i => S i | None => 0 end).
Qed.

(** C7, as the code has it.  The request carries a numeric book id, and the
    key looked up is its decimal text, never an abbreviation; the translation
    of the request is not used.  With chapter and verse in the 64-bit range:
    when the shared file is at <BASE>/translations.db and its
    cross_references relation is readable, only that file is touched, the
    rows whose from_book is that decimal text and whose chapter and verse are
    the requested ones are returned, each once, by votes descending, and the
    404 "No cross references found" is raised exactly when no row matches;
    when nothing is at that path the request fails with the 404 "Database
    file ... not found".  uppercase.py, which main.py runs when it is
    imported, gives no file the name translations.db. *)
Theorem get_cross_references_spec (w : World) (translation_id : string)
    (book_id chapter verse : Z) :
  forallb sqlite_int [chapter; verse] = true →
  let call := get_cross_references w translation_id book_id chapter verse in
  int (str book_id) = Some book_id
  ∧ (∀ rows, outcome_of call = Returned rows →
       Forall (λ r, int (from_book r) = Some book_id) rows)
  ∧ (∀ other, get_cross_references w other book_id chapter verse = call)
  ∧ (∀ filename, path_join BASE_DB_PATH (new_file_name filename) ≠ GLOBAL_DB_FILE)
  ∧ (files w !! GLOBAL_DB_FILE = None →
       run call
       = ([], Raised (HTTPException 404
                        ("Database file " +:+ GLOBAL_DB_FILE +:+ " not found"))))
  ∧ (∀ db tbl,
       files w !! GLOBAL_DB_FILE = Some (FFile db) →
       cross_references db = Rows tbl →
       let matching :=
         filter (λ r, from_book r = str book_id ∧ from_chapter r = chapter
                      ∧ from_verse r = verse) tbl in
       Forall (λ ev, event_path ev = Some GLOBAL_DB_FILE) (trace_of call)
       ∧ (matching = [] ↔
            outcome_of call = Raised (HTTPException 404 "No cross references found"))
       ∧ (matching ≠ [] →
            ∃ rows, outcome_of call = Returned rows
                    ∧ rows ≡ₚ matching
                    ∧ StronglySorted (λ a b, (votes b ≤ votes a)%Z) rows)).
Proof.
  intros Hints call.
  split; [apply int_str|].
  split.
  { intros rows Hout. apply get_cross_references_rows in Hout.
    eapply Forall_impl; [exact Hout|]. cbv beta. intros r ->. apply int_str. }
  split; [reflexivity|].
  split.
  { intros filename Hname.
    pose proof (new_file_name_head filename) as Hhead.
    rewrite path_join_base in Hname.
    destruct (new_file_name filename) as [|c rest]; [vm_compute in Hname; discriminate|].
    destruct (String.prefix "/" (String c rest));
      vm_compute in Hname; inversion Hname; subst; discriminate Hhead. }
  split.
  { intros Hnone. unfold run, call, get_cross_references.
    now rewrite run_bind, get_db_connection_run, Hnone. }
  intros db tbl Hf Htbl matching.
  destruct (get_cross_references_run w translation_id book_id chapter verse db Hf Hints)
    as (sql & params & Hrun).
  rewrite Htbl in Hrun. fold matching in Hrun.
  split.
  { unfold call, trace_of. rewrite Hrun. cbn [fst]. repeat constructor. }
  assert (Hout : outcome_of call =
                 match order_by by_votes_desc matching with
                 | [] => Raised (HTTPException 404 "No cross references found")
                 | rows => Returned rows
                 end).
  { unfold call, outcome_of. now rewrite Hrun. }
  split; [split|].
  - intros Hnil. rewrite Hout, Hnil. reflexivity.
  - intros Hraised. rewrite Hout in Hraised.
    destruct (order_by by_votes_desc matching) eqn:Hsorted; [|discriminate].
    now apply (order_by_nil by_votes_desc).
  - intros Hne. exists (order_by by_votes_desc matching).
    split; [|split].
    + rewrite Hout.
      destruct (order_by by_votes_desc matching) eqn:Hsorted; [|reflexivity].
      apply (proj1 (order_by_nil by_votes_desc _)) in Hsorted. contradiction.
    + apply order_by_Permutation.
    + apply order_by_StronglySorted; apply _.
Qed.

Lemma get_cross_references_spec_witness :
  forallb sqlite_int [1; 1]%Z = true
  ∧ files Examples.world !! GLOBAL_DB_FILE = Some (FFile Examples.global_db)
  ∧ cross_references Examples.global_db = Rows Examples.xrefs
  ∧ ∃ rows,
      outcome_of (get_cross_references Examples.world "kjv" 1 1 1) = Returned rows
      ∧ map votes rows = [25; 25; 10; 10]%Z.
Proof.
  split; [reflexivity|]. split; [reflexivity|]. split; [reflexivity|].
  destruct (get_cross_references_spec Examples.world "kjv" 1 1 1 eq_refl)
    as (_ & _ & _ & _ & _ & Hfound).
  destruct (Hfound Examples.global_db Examples.xrefs eq_refl eq_refl)
    as (_ & _ & Hrows).
  destruct Hrows as (rows & Hout & _); [vm_compute; discriminate|].
  exists rows. split; [exact Hout|].
  vm_compute in Hout. injection Hout as <-. reflexivity.
Defined.

(** C7, as stated, fails at a coordinate given by a book abbreviation: the
    rows stored for ("Gen", 1, 1) are returned to no request, whatever its
    translation and book id. *)
Lemma abbreviation_coordinate_not_served :
  ¬ serves_coordinate Examples.abbrev_world Examples.abbrev_xrefs "Gen" 1 1.
Proof.
  intros (translation_id & book_id & rows & Hout & Hperm).
  apply get_cross_references_rows in Hout.
  assert (Hin : mkCrossReference "Gen" 1 1 "John" 1 1 3 10 ∈ rows).
  { rewrite Hperm. apply list_elem_of_filter. split; [now repeat split|left]. }
  rewrite Forall_forall in Hout. specialize (Hout _ Hin). cbn in Hout.
  pose proof (int_str book_id) as Hint. rewrite <- Hout in Hint.
  vm_compute in Hint. discriminate Hint.
Qed.

Lemma get_translation_db_locates_witness :
  all_chars is_ascii "kjv" = true
  ∧ files Examples.world !! translation_file "kjv" = Some (FFile Examples.kjv_db)
  ∧ lower (upper "kjv") = "kjv"
  ∧ run (get_translation_db Examples.world "kjv")
    = ([EConnect "bible_databases/formats/sqlite/KJV.db"],
       Returned (mkConnection "bible_databases/formats/sqlite/KJV.db" Examples.kjv_db)).
Proof.
  split; [reflexivity|]. split; [reflexivity|].
  destruct (get_translation_db_locates Examples.world "kjv")
    as (_ & _ & Hcase & _ & _ & _ & Hopen).
  split; [exact (proj1 (Hcase eq_refl))|].
  exact (Hopen Examples.kjv_db eq_refl).
Defined.

(** ** Passages *)

Lemma get_passage_outcome (w : World) (translation : string)
    (book start_chapter start_verse end_chapter end_verse : Z)
    (db : Database) (tbl : list VerseRow) :
  files w !! translation_file translation = Some (FFile db) →
  verses_of db (upper translation +:+ "_verses") = Rows tbl →
  forallb sqlite_int [book; start_chapter; start_verse; end_chapter; end_verse] = true →
  outcome_of (get_passage w translation book start_chapter start_verse
                end_chapter end_verse) =
  match (if decide (start_chapter = end_chapter)
         then order_by by_verse
                (filter (in_one_chapter book start_chapter start_verse end_verse) tbl)
         else order_by by_chapter_verse
                (filter (in_chapter_span book start_chapter start_verse
                           end_chapter end_verse) tbl)) with
  | [] => Raised (HTTPException 404 "Passage not found")
  | rows => Returned (map verse_of_row rows)
  end.
Proof.
  intros Hf Htbl Hints. unfold outcome_of, run, get_passage.
  rewrite run_bind, (get_translation_db_open _ _ _ _ Hf).
  unfold try_finally, try_except_sqlite. rewrite run_bind.
  destruct (decide (start_chapter = end_chapter)) as [Heq|Hne];
    rewrite execute_run by bound; cbn [conn_db conn_path]; rewrite Htbl; cbn [qmap];
    destruct (order_by _ _); reflexivity.
Qed.

(** C3.  On a resolved dataset whose verses relation is readable, for an
    identifier of letters, digits and underscores and numbers in the 64-bit
    range, a passage
    within one chapter is made of the rows of that book and chapter with
    verse in [start_verse, end_verse]; a passage across chapters is made of
    the rows of the start chapter from start_verse on, the rows of the
    chapters strictly in between, and the rows of the end chapter up to
    end_verse.  The handler returns these rows (each exactly once) in
    ascending (chapter, verse) order as verses, and raises the 404 "Passage
    not found" exactly when there is none. *)
Theorem get_passage_spec (w : World) (translation : string)
    (book start_chapter start_verse end_chapter end_verse : Z)
    (db : Database) (tbl : list VerseRow) :
  allow_listed translation = true →
  forallb sqlite_int [book; start_chapter; start_verse; end_chapter; end_verse] = true →
  files w !! translation_file translation = Some (FFile db) →
  verses_of db (upper translation +:+ "_verses") = Rows tbl →
  let union :=
    if decide (start_chapter = end_chapter) then
      filter (λ r, r_book_id r = book ∧ r_chapter r = start_chapter
                   ∧ (start_verse ≤ r_verse r ≤ end_verse)%Z) tbl
    else
      filter (λ r, r_book_id r = book ∧ r_chapter r = start_chapter
                   ∧ (start_verse ≤ r_verse r)%Z) tbl
      ++ filter (λ r, r_book_id r = book
                      ∧ (start_chapter < r_chapter r < end_chapter)%Z) tbl
      ++ filter (λ r, r_book_id r = book ∧ r_chapter r = end_chapter
                      ∧ (r_verse r ≤ end_verse)%Z) tbl in
  let call := get_passage w translation book start_chapter start_verse
                end_chapter end_verse in
  (union = [] ↔ outcome_of call = Raised (HTTPException 404 "Passage not found"))
  ∧ (union ≠ [] →
       ∃ rows, outcome_of call = Returned (map verse_of_row rows)
               ∧ rows ≡ₚ union
               ∧ StronglySorted
                   (λ a b, (r_chapter a < r_chapter b
                            ∨ (r_chapter a = r_chapter b ∧ r_verse a ≤ r_verse b))%Z)
                   rows).
Proof.
  intros _ Hints Hf Htbl union call.
  pose proof (get_passage_outcome w translation book start_chapter start_verse
                end_chapter end_verse db tbl Hf Htbl Hints) as Hout.
  fold call in Hout.
  set (rows := if decide (start_chapter = end_chapter)
               then order_by by_verse
                      (filter (in_one_chapter book start_chapter start_verse
                                 end_verse) tbl)
               else order_by by_chapter_verse
                      (filter (in_chapter_span book start_chapter start_verse
                                 end_chapter end_verse) tbl)) in Hout.
  assert (Hperm : rows ≡ₚ union).
  { unfold rows, union.
    destruct (decide (start_chapter = end_chapter)) as [Heq|Hne].
    - rewrite order_by_Permutation.
      erewrite list_filter_iff; [reflexivity|].
      intros r. unfold in_one_chapter. tauto.
    - rewrite order_by_Permutation.
      rewrite <- !filter_or_app by (intros r; cbv beta; lia).
      erewrite list_filter_iff; [reflexivity|].
      intros r. unfold in_chapter_span. cbv beta. lia. }
  assert (Hsorted : StronglySorted by_chapter_verse rows).
  { unfold rows.
    destruct (decide (start_chapter = end_chapter)) as [Heq|Hne].
    - apply (by_verse_in_chapter start_chapter).
      + rewrite order_by_Permutation.
        apply Forall_forall. intros r Hr.
        apply list_elem_of_filter in Hr as [Hin _]. apply Hin.
      + apply order_by_StronglySorted; apply _.
    - apply order_by_StronglySorted; apply _. }
  assert (Hnil : union = [] ↔ rows = []).
  { split; intros Hn.
    - apply Permutation_nil. rewrite <- Hn. symmetry. exact Hperm.
    - apply Permutation_nil. rewrite <- Hn. exact Hperm. }
  split; [split|].
  - intros Hu. apply Hnil in Hu. rewrite Hout, Hu. reflexivity.
  - intros Hraised. apply Hnil. rewrite Hout in Hraised.
    destruct rows; [reflexivity|discriminate].
  - intros Hne. exists rows. split; [|split; assumption].
    rewrite Hout. destruct rows as [|r rows'] eqn:Hrows; [|reflexivity].
    destruct Hne. now apply Hnil.
Qed.

Lemma get_passage_spec_witness :
  allow_listed "kjv" = true
  ∧ forallb sqlite_int [1; 1; 2; 2; 1]%Z = true
  ∧ files Examples.world !! translation_file "kjv" = Some (FFile Examples.kjv_db)
  ∧ verses_of Examples.kjv_db (upper "kjv" +:+ "_verses") = Rows Examples.kjv_verses
  ∧ ∃ rows,
      outcome_of (get_passage Examples.world "kjv" 1 1 2 2 1)
      = Returned (map verse_of_row rows)
      ∧ length rows = 3
      ∧ StronglySorted
          (λ a b, (r_chapter a < r_chapter b
                   ∨ (r_chapter a = r_chapter b ∧ r_verse a ≤ r_verse b))%Z)
          rows.
Proof.
  split; [reflexivity|]. split; [reflexivity|].
  split; [reflexivity|]. split; [reflexivity|].
  destruct (get_passage_spec Examples.world "kjv" 1 1 2 2 1
              Examples.kjv_db Examples.kjv_verses eq_refl eq_refl eq_refl eq_refl)
    as (_ & Hrows).
  destruct Hrows as (rows & Hout & Hperm & Hsorted); [vm_compute; discriminate|].
  exists rows. split; [exact Hout|]. split; [|exact Hsorted].
  rewrite Hperm. reflexivity.
Defined.

(** ** Chapter counts *)

Lemma Zsum_Permutation (l l' : list Z) :
  l ≡ₚ l' → foldr Z.add 0%Z l = foldr Z.add 0%Z l'.
Proof. induction 1; simpl; lia. Qed.

Lemma fst_map_pair {A B} (g : A → B) (l : list A) : (map (λ a, (a, g a)) l).*1 = l.
Proof. induction l as [|a l IH]; [reflexivity|]. cbn. f_equal. exact IH. Qed.

Lemma elem_of_map_pair {A B} (g : A → B) (l : list A) (a : A) (b : B) :
  (a, b) ∈ map (λ a, (a, g a)) l ↔ a ∈ l ∧ b = g a.
Proof.
  rewrite list_elem_of_In, in_map_iff. setoid_rewrite <- list_elem_of_In.
  split.
  - intros (a' & [= <- <-] & Hin). now split.
  - intros [Hin ->]. now exists a.
Qed.

(* Every row is counted in exactly one group *)
Lemma group_sizes_sum {A} (key : A → Z) (keys : list Z) (rows : list A) :
  NoDup keys → (∀ r, r ∈ rows → key r ∈ keys) →
  foldr Z.add 0%Z
    (map (λ k, Z.of_nat (length (filter (λ r, key r = k) rows))) keys)
  = Z.of_nat (length rows).
Proof.
  intros Hnd. induction rows as [|r rows IH]; intros Hkeys.
  - clear Hkeys. induction keys as [|k keys IHk]; [reflexivity|].
    apply NoDup_cons in Hnd as [_ Hnd]. cbn [map foldr].
    rewrite (IHk Hnd). reflexivity.
  - rewrite length_cons, Nat2Z.inj_succ, <- IH
      by (intros r' Hr'; apply Hkeys; now right).
    assert (Hr : key r ∈ keys) by (apply Hkeys; now left).
    clear IH Hkeys. induction keys as [|k keys IHk]; [inversion Hr|].
    apply NoDup_cons in Hnd as [Hk Hnd]. cbn [map foldr].
    rewrite filter_cons. destruct (decide (key r = k)) as [Heq|Hneq].
    + rewrite length_cons, Nat2Z.inj_succ.
      enough (Hrest :
        foldr Z.add 0%Z
          (map (λ k0, Z.of_nat (length (filter (λ r0, key r0 = k0) (r :: rows)))) keys)
        = foldr Z.add 0%Z
            (map (λ k0, Z.of_nat (length (filter (λ r0, key r0 = k0) rows))) keys))
        by lia.
      f_equal. apply map_ext_in. intros k0 Hk0. rewrite filter_cons.
      rewrite decide_False; [reflexivity|].
      intros Heq0. apply Hk. rewrite <- Heq, Heq0. now apply list_elem_of_In.
    + apply elem_of_cons in Hr as [Hr|Hr]; [contradiction|].
      rewrite (IHk Hnd Hr). lia.
Qed.

Lemma py_dict_lookup `{Countable K} {V} (items : list (K * V)) (k : K) (v : V) :
  NoDup items.*1 → py_dict items !! k = Some v ↔ (k, v) ∈ items.
Proof.
  intros Hnd. unfold py_dict.
  rewrite <- elem_of_list_to_map by now rewrite reverse_Permutation.
  now rewrite reverse_Permutation.
Qed.

Lemma py_dict_items `{Countable K} {V} (items : list (K * V)) :
  NoDup items.*1 → map_to_list (py_dict items) ≡ₚ items.
Proof.
  intros Hnd. unfold py_dict.
  rewrite map_to_list_to_map by now rewrite reverse_Permutation.
  apply reverse_Permutation.
Qed.

Lemma py_dict_empty `{Countable K} {V} (items : list (K * V)) :
  py_dict items = ∅ ↔ items = [].
Proof.
  split; [|now intros ->].
  destruct items as [|[k v] items]; [reflexivity|]. intros Hempty.
  assert (Hk : py_dict ((k, v) :: items) !! k = None) by now rewrite Hempty.
  apply not_elem_of_list_to_map in Hk. destruct Hk.
  rewrite reverse_Permutation. cbn. left.
Qed.

Lemma group_count_keys (rows : list VerseRow) :
  (group_count_by_chapter rows).*1 = order_by Z.le (remove_dups (map r_chapter rows)).
Proof. apply fst_map_pair. Qed.

Lemma group_count_NoDup (rows : list VerseRow) : NoDup (group_count_by_chapter rows).*1.
Proof.
  rewrite group_count_keys, order_by_Permutation. apply NoDup_remove_dups.
Qed.

Lemma group_count_elem (rows : list VerseRow) (c n : Z) :
  (c, n) ∈ group_count_by_chapter rows ↔
  (∃ r, r ∈ rows ∧ r_chapter r = c)
  ∧ n = Z.of_nat (length (filter (λ r, r_chapter r = c) rows)).
Proof.
  unfold group_count_by_chapter. rewrite elem_of_map_pair.
  rewrite order_by_Permutation, elem_of_remove_dups.
  rewrite list_elem_of_In, in_map_iff. setoid_rewrite <- list_elem_of_In.
  split.
  - intros [(r & Hc & Hin) Hn]. split; [now exists r|exact Hn].
  - intros [(r & Hin & Hc) Hn]. split; [now exists r|exact Hn].
Qed.

Lemma group_count_sum (rows : list VerseRow) :
  foldr Z.add 0%Z (map snd (group_count_by_chapter rows)) = Z.of_nat (length rows).
Proof.
  unfold group_count_by_chapter. rewrite map_map. cbn [snd].
  apply (group_sizes_sum r_chapter).
  - rewrite order_by_Permutation. apply NoDup_remove_dups.
  - intros r Hr. rewrite order_by_Permutation, elem_of_remove_dups.
    apply list_elem_of_In, in_map, list_elem_of_In, Hr.
Qed.

Lemma get_chapter_counts_outcome (w : World) (translation_id : string) (book_id : Z)
    (db : Database) (tbl : list VerseRow) :
  files w !! translation_file translation_id = Some (FFile db) →
  verses_of db (upper translation_id +:+ "_verses") = Rows tbl →
  outcome_of (get_chapter_counts w translation_id book_id) =
  if sqlite_int book_id then
    match group_count_by_chapter (filter (λ r, r_book_id r = book_id) tbl) with
    | [] => Raised (HTTPException 404 "No chapters found for given book")
    | rows => Returned (py_dict rows)
    end
  else Raised int_too_large.
Proof.
  intros Hf Htbl. unfold outcome_of, run, get_chapter_counts.
  rewrite run_bind, (get_translation_db_open _ _ _ _ Hf).
  unfold try_finally, try_except_sqlite.
  rewrite run_bind, execute_run_any. cbn [conn_db conn_path forallb bindable].
  rewrite Htbl, andb_true_r. cbn [qmap].
  destruct (sqlite_int book_id); [|reflexivity].
  destruct (group_count_by_chapter _) as [|item items] eqn:Hrows.
  - rewrite decide_True by reflexivity. reflexivity.
  - rewrite decide_False by (rewrite py_dict_empty; discriminate). reflexivity.
Qed.

Lemma get_verses_in_chapter_outcome (w : World) (translation_id : string)
    (book_id chapter : Z) (db : Database) (tbl : list VerseRow) :
  files w !! translation_file translation_id = Some (FFile db) →
  verses_of db (upper translation_id +:+ "_verses") = Rows tbl →
  outcome_of (get_verses_in_chapter w translation_id book_id chapter) =
  if forallb sqlite_int [book_id; chapter] then
    match order_by by_verse
            (filter (λ r, r_book_id r = book_id ∧ r_chapter r = chapter) tbl) with
    | [] => Raised (HTTPException 404 "No verses found for given chapter")
    | rows => Returned (map verse_of_row rows)
    end
  else Raised int_too_large.
Proof.
  intros Hf Htbl. unfold outcome_of, run, get_verses_in_chapter.
  rewrite run_bind, (get_translation_db_open _ _ _ _ Hf).
  unfold try_finally, try_except_sqlite.
  rewrite run_bind, execute_run_any. cbn [conn_db conn_path forallb bindable].
  rewrite Htbl. cbn [qmap].
  destruct (sqlite_int book_id && (sqlite_int chapter && true))%bool; [|reflexivity].
  destruct (order_by _ _); reflexivity.
Qed.

(** C6.  For a book with at least one verse in a resolved dataset (the
    identifier made of letters, digits and underscores, the book id and the
    stored chapter numbers in the 64-bit range of SQLite's INTEGER),
    chapterVerseCounts returns a dictionary whose entry for each chapter is
    the number of verses versesInChapter returns for it, so the sum of its
    counts is the sum of those lengths over the chapters of the book (and is
    the number of verse rows of the book). *)
Theorem chapter_counts_sum_verses (w : World) (translation_id : string) (book_id : Z)
    (db : Database) (tbl : list VerseRow) :
  allow_listed translation_id = true →
  sqlite_int book_id = true →
  files w !! translation_file translation_id = Some (FFile db) →
  verses_of db (upper translation_id +:+ "_verses") = Rows tbl →
  Forall (λ r, sqlite_int (r_chapter r) = true) tbl →
  (∃ r, r ∈ tbl ∧ r_book_id r = book_id) →
  ∃ counts,
    outcome_of (get_chapter_counts w translation_id book_id) = Returned counts
    ∧ (∀ c n, counts !! c = Some n →
         ∃ verses,
           outcome_of (get_verses_in_chapter w translation_id book_id c)
           = Returned verses
           ∧ Z.of_nat (length verses) = n)
    ∧ dict_sum counts = verses_total w translation_id book_id counts
    ∧ dict_sum counts
      = Z.of_nat (length (filter (λ r, r_book_id r = book_id) tbl)).
Proof.
  intros _ Hint Hf Htbl Hstored (r0 & Hr0 & Hbook).
  set (sel := filter (λ r, r_book_id r = book_id) tbl).
  set (items := group_count_by_chapter sel).
  assert (Hsel : r0 ∈ sel) by (apply list_elem_of_filter; now split).
  assert (Hitems : (r_chapter r0, Z.of_nat (length (filter (λ r, r_chapter r = r_chapter r0) sel)))
                   ∈ items).
  { apply group_count_elem. split; [now exists r0|reflexivity]. }
  assert (Hnd : NoDup items.*1) by apply group_count_NoDup.
  exists (py_dict items).
  assert (Hentry : ∀ c n, py_dict items !! c = Some n →
            ∃ verses,
              outcome_of (get_verses_in_chapter w translation_id book_id c)
              = Returned verses
              ∧ Z.of_nat (length verses) = n).
  { intros c n Hlook. apply py_dict_lookup in Hlook; [|exact Hnd].
    apply group_count_elem in Hlook as [(r & Hr & Hc) ->].
    rewrite (get_verses_in_chapter_outcome _ _ _ _ _ _ Hf Htbl).
    assert (Hchapter : sqlite_int c = true).
    { rewrite <- Hc. rewrite Forall_forall in Hstored. apply Hstored.
      unfold sel in Hr. now apply list_elem_of_filter in Hr as [_ Hr]. }
    cbn [forallb]. rewrite Hint, Hchapter. cbn [andb].
    assert (Hsame : filter (λ r, r_chapter r = c) sel
                    = filter (λ r, r_book_id r = book_id ∧ r_chapter r = c) tbl).
    { unfold sel. rewrite list_filter_filter. apply list_filter_iff.
      intros x. tauto. }
    rewrite Hsame.
    assert (Hin : r ∈ filter (λ r, r_book_id r = book_id ∧ r_chapter r = c) tbl).
    { unfold sel in Hr. apply list_elem_of_filter in Hr as [Hb Hr].
      apply list_elem_of_filter. tauto. }
    rewrite <- (order_by_length by_verse).
    destruct (order_by by_verse _) as [|x rows] eqn:Hrows.
    - apply (proj1 (order_by_nil by_verse _)) in Hrows.
      rewrite Hrows in Hin. inversion Hin.
    - exists (map verse_of_row (x :: rows)). split; [reflexivity|].
      now rewrite length_map. }
  split; [|split; [exact Hentry|split]].
  - rewrite (get_chapter_counts_outcome _ _ _ _ _ Hf Htbl), Hint. fold sel items.
    destruct items; [inversion Hitems|reflexivity].
  - unfold dict_sum, verses_total. f_equal. apply map_ext_in.
    intros [c n] Hin. apply list_elem_of_In, elem_of_map_to_list in Hin.
    destruct (Hentry c n Hin) as (verses & Hout & Hlen).
    unfold chapter_length. cbn [fst snd]. now rewrite Hout.
  - unfold dict_sum. rewrite <- (group_count_sum sel). fold items.
    apply Zsum_Permutation, Permutation_map, py_dict_items, Hnd.
Qed.

Lemma chapter_counts_sum_verses_witness :
  allow_listed "kjv" = true
  ∧ sqlite_int 1 = true
  ∧ files Examples.world !! translation_file "kjv" = Some (FFile Examples.kjv_db)
  ∧ verses_of Examples.kjv_db (upper "kjv" +:+ "_verses") = Rows Examples.kjv_verses
  ∧ Forall (λ r, sqlite_int (r_chapter r) = true) Examples.kjv_verses
  ∧ (∃ r, r ∈ Examples.kjv_verses ∧ r_book_id r = 1%Z)
  ∧ ∃ counts,
      outcome_of (get_chapter_counts Examples.world "kjv" 1) = Returned counts
      ∧ dict_sum counts = verses_total Examples.world "kjv" 1 counts
      ∧ dict_sum counts = 6%Z.
Proof.
  assert (Hrow : ∃ r, r ∈ Examples.kjv_verses ∧ r_book_id r = 1%Z).
  { eexists. split; [apply list_elem_of_here|reflexivity]. }
  assert (Hstored : Forall (λ r, sqlite_int (r_chapter r) = true) Examples.kjv_verses)
    by (repeat constructor).
  split; [reflexivity|]. split; [reflexivity|].
  split; [reflexivity|]. split; [reflexivity|].
  split; [exact Hstored|]. split; [exact Hrow|].
  destruct (chapter_counts_sum_verses Examples.world "kjv" 1
              Examples.kjv_db Examples.kjv_verses eq_refl eq_refl eq_refl eq_refl
              Hstored Hrow)
    as (counts & Hout & _ & Htotal & Hlen).
  exists counts. split; [exact Hout|]. split; [exact Htotal|exact Hlen].
Defined.

(** ** Annotation store *)

Lemma add_annotation_spec (translation : string) (book chapter verse : Z) (note : string)
    (g : Globals) :
  let (a, g') := add_annotation translation book chapter verse note g in
  a_id a = annotation_id_counter g
  ∧ ANNOTATIONS g' = ANNOTATIONS g ++ [a]
  ∧ annotation_id_counter g' = (annotation_id_counter g + 1)%Z.
Proof. unfold add_annotation. repeat split. Qed.

Lemma handle_prefix (g : Globals) (rq : AnnotationRequest) :
  ANNOTATIONS g `prefix_of` ANNOTATIONS (handle g rq).2.
Proof.
  destruct rq as [translation book chapter verse note|translation book chapter verse];
    cbn.
  - now apply prefix_app_r.
  - reflexivity.
Qed.

Lemma serve_from_spec (rqs : list AnnotationRequest) (g : Globals) :
  let ids := created_ids (serve_from g rqs).1 in
  let g' := (serve_from g rqs).2 in
  ids = seqZ (annotation_id_counter g) (Z.of_nat (length ids))
  ∧ a_id <$> ANNOTATIONS g' = (a_id <$> ANNOTATIONS g) ++ ids
  ∧ annotation_id_counter g' = (annotation_id_counter g + Z.of_nat (length ids))%Z.
Proof.
  revert g. induction rqs as [|rq rqs IH]; intros g.
  - cbn. rewrite app_nil_r. repeat split. lia.
  - cbn [serve_from].
    destruct (handle g rq) as [resp g1] eqn:Hh.
    specialize (IH g1). destruct (serve_from g1 rqs) as [resps g2].
    cbn [fst snd] in IH |- *. destruct IH as (Hids & Hstore & Hcounter).
    destruct rq as [translation book chapter verse note|translation book chapter verse];
      cbn in Hh; injection Hh as <- <-.
    + cbn [created_ids omap list_omap] in *. cbn [annotation_id_counter ANNOTATIONS] in *.
      fold (created_ids resps) in *.
      set (ids := created_ids resps) in *.
      split; [|split].
      * cbn [length a_id]. rewrite Nat2Z.inj_succ, seqZ_cons by lia.
        f_equal. rewrite Z.pred_succ. exact Hids.
      * rewrite Hstore, fmap_app. cbn. now rewrite <- app_assoc.
      * rewrite Hcounter. cbn [length]. lia.
    + cbn [created_ids omap list_omap] in *. fold (created_ids resps) in *.
      repeat split; assumption.
Qed.

(* One step of the call that stands after [done] in the list of calls *)
Lemma schedule_step_at (done : list AddCall) (c : AddCall) (rest : list AddCall)
    (g : Globals) :
  schedule_step (done ++ c :: rest, g) (length done)
  = ((done ++ (add_annotation_step c g).1 :: rest), (add_annotation_step c g).2).
Proof.
  unfold schedule_step. cbn [fst snd].
  rewrite list_lookup_middle by reflexivity.
  destruct (add_annotation_step c g) as [c' g']. cbn [fst snd]. f_equal.
  replace (length done) with (length done + 0) by lia.
  now rewrite insert_app_r.
Qed.

(* A call that runs its four steps without another call in between does
   what add_annotation does *)
Lemma run_alone (done : list AddCall) (c : AddCall) (rest : list AddCall) (g : Globals) :
  c_state c = AddCalled →
  foldl schedule_step (done ++ c :: rest, g) (replicate 4 (length done))
  = let (a, g') := add_annotation (c_translation c) (c_book c) (c_chapter c)
                     (c_verse c) (c_note c) g in
    (done ++ mkAddCall (c_translation c) (c_book c) (c_chapter c) (c_verse c)
               (c_note c) (AddReturned a) :: rest,
     g').
Proof.
  intros Hstate. destruct c as [translation book chapter verse note st].
  cbn in Hstate. subst st. cbn [replicate foldl].
  rewrite !schedule_step_at. reflexivity.
Qed.

Lemma run_one_after_another (calls done : list AddCall) (g : Globals) :
  Forall (λ c, c_state c = AddCalled) calls →
  (foldl schedule_step (done ++ calls, g)
     (flat_map (replicate 4) (seq (length done) (length calls)))).2
  = (serve_from g (request_of <$> calls)).2.
Proof.
  intros Hcalls. revert done g.
  induction Hcalls as [|c calls Hc _ IH]; intros done g; [reflexivity|].
  cbn [length seq flat_map]. rewrite foldl_app, (run_alone _ _ _ _ Hc).
  cbn [fmap list_fmap serve_from request_of handle].
  destruct (add_annotation _ _ _ _ _ g) as [a g'].
  destruct (serve_from g' (request_of <$> calls)) as [resps g''] eqn:Hserve.
  cbn [snd].
  match goal with
  | |- context [done ++ ?c' :: calls] =>
      rewrite (cons_middle c' done calls), app_assoc;
      replace (S (length done)) with (length (done ++ [c']))
        by (rewrite length_app; cbn; lia)
  end.
  rewrite IH, Hserve. reflexivity.
Qed.

(** C9, as the code has it.  From the start of the process, whatever requests
    are served one after another: the ids handed out by the POST requests are
    1, 2, 3, ... in the order of the requests (so the first one is 1 and each
    later one is greater than every id handed out before it); the store holds
    exactly the annotations created, in that order, and the counter is one
    more than their number; and no request removes or changes an entry
    already in the store: the old store is a prefix of the new one.  Calls of
    add_annotation that do not overlap are such requests: scheduled one
    after another, they leave the store that serving them in turn leaves. *)
Theorem annotation_ids_monotonic (rqs : list AnnotationRequest) :
  let ids := created_ids (serve rqs).1 in
  let g := (serve rqs).2 in
  ids = seqZ 1 (Z.of_nat (length ids))
  ∧ (∀ a, head ids = Some a → a = 1%Z)
  ∧ (∀ i j a b, ids !! i = Some a → ids !! j = Some b → (i < j)%nat → (a < b)%Z)
  ∧ a_id <$> ANNOTATIONS g = ids
  ∧ annotation_id_counter g = (1 + Z.of_nat (length (ANNOTATIONS g)))%Z
  ∧ (∀ rq, ANNOTATIONS g `prefix_of` ANNOTATIONS (handle g rq).2)
  ∧ (∀ translation book chapter verse note,
       let (a, g') := add_annotation translation book chapter verse note g in
       Forall (λ old, (a_id old < a_id a)%Z) (ANNOTATIONS g)
       ∧ ANNOTATIONS g' = ANNOTATIONS g ++ [a])
  ∧ ids_increase g
  ∧ (∀ calls, Forall (λ c, c_state c = AddCalled) calls →
       (run_schedule (one_after_another (length calls)) calls g).2
       = (serve_from g (request_of <$> calls)).2).
Proof.
  intros ids g.
  destruct (serve_from_spec rqs initial_globals) as (Hids & Hstore & Hcounter).
  fold (serve rqs) in Hids, Hstore, Hcounter. fold ids in Hids, Hstore, Hcounter.
  fold g in Hstore, Hcounter. cbn in Hids, Hstore, Hcounter.
  assert (Hlookup : ∀ i a, ids !! i = Some a → a = (1 + Z.of_nat i)%Z).
  { intros i a Hi. rewrite Hids in Hi. apply lookup_seqZ in Hi. lia. }
  assert (Hlen : length (ANNOTATIONS g) = length ids).
  { rewrite <- Hstore. now rewrite length_fmap. }
  split; [exact Hids|].
  split; [|split; [|split; [|split; [|split; [|split; [|split]]]]]].
  - intros a Ha. rewrite head_lookup in Ha. apply Hlookup in Ha. lia.
  - intros i j a b Hi Hj Hij. apply Hlookup in Hi, Hj. lia.
  - exact Hstore.
  - rewrite Hcounter, Hlen. lia.
  - intros rq. apply handle_prefix.
  - intros translation book chapter verse note. cbn. split; [|reflexivity].
    apply Forall_forall. intros old Hold.
    apply list_elem_of_lookup in Hold as [i Hi].
    assert (Hid : ids !! i = Some (a_id old)).
    { rewrite <- Hstore, list_lookup_fmap, Hi. reflexivity. }
    apply lookup_lt_Some in Hi. apply Hlookup in Hid. lia.
  - unfold ids_increase. rewrite Hstore.
    assert (Hgen : ∀ (l : list Z) k,
              (∀ i a, l !! i = Some a → a = (k + Z.of_nat i)%Z) →
              StronglySorted Z.lt l).
    { clear. induction l as [|x l IH]; intros k Hl; constructor.
      - apply (IH (k + 1)%Z). intros i a Hi.
        specialize (Hl (S i) a Hi). lia.
      - apply Forall_forall. intros y Hy.
        apply list_elem_of_lookup in Hy as [i Hi].
        pose proof (Hl 0 x eq_refl) as Hx. pose proof (Hl (S i) y Hi) as Hy. lia. }
    exact (Hgen ids 1%Z Hlookup).
  - intros calls Hcalls. unfold run_schedule, one_after_another.
    exact (run_one_after_another calls [] g Hcalls).
Qed.

Lemma annotation_ids_monotonic_witness :
  created_ids
    (serve [PostAnnotation "kjv" 1 1 1 "first"; GetAnnotations None None None None;
            PostAnnotation "asv" 2 3 4 "second"]).1 = [1; 2]%Z
  ∧ Forall (λ c, c_state c = AddCalled) [post "kjv" 1 1 1 "first"; post "asv" 2 3 4 "second"]
  ∧ a_id <$> ANNOTATIONS
               (run_schedule (one_after_another 2)
                  [post "kjv" 1 1 1 "first"; post "asv" 2 3 4 "second"]
                  initial_globals).2
    = [1; 2]%Z.
Proof.
  destruct (annotation_ids_monotonic
              [PostAnnotation "kjv" 1 1 1 "first"; GetAnnotations None None None None;
               PostAnnotation "asv" 2 3 4 "second"]) as (Hids & _).
  split; [exact Hids|].
  assert (Hcalls : Forall (λ c, c_state c = AddCalled)
                     [post "kjv" 1 1 1 "first"; post "asv" 2 3 4 "second"])
    by (repeat constructor).
  split; [exact Hcalls|].
  destruct (annotation_ids_monotonic []) as (_ & _ & _ & _ & _ & _ & _ & _ & Hseq).
  cbn [serve serve_from snd] in Hseq.
  pose proof (Hseq _ Hcalls) as Hrun. cbn [length] in Hrun.
  rewrite Hrun. reflexivity.
Defined.

(** C9, as stated, fails for two calls that overlap: when both read the
    counter before either has incremented it, both return an annotation with
    the id 1 and both annotations are stored with that id. *)
Lemma overlapping_posts_share_id :
  let final := run_schedule [0; 1; 0; 0; 0; 1; 1; 1]
                 [post "kjv" 1 1 1 "first"; post "asv" 2 3 4 "second"] initial_globals in
  a_id <$> ANNOTATIONS final.2 = [1; 1]%Z
  ∧ omap returned final.1 ≠ []
  ∧ Forall (λ a, a_id a = 1%Z) (omap returned final.1)
  ∧ length (omap returned final.1) = 2
  ∧ ¬ ids_increase final.2.
Proof.
  split; [reflexivity|]. split; [discriminate|].
  split; [repeat constructor|]. split; [reflexivity|].
  unfold ids_increase. cbn. intros Hsorted.
  apply StronglySorted_inv in Hsorted as [_ Hlt].
  apply Forall_cons in Hlt as [Hlt _]. lia.
Qed.

(** ** Comparison of two translations *)

Lemma compare_side_missing (w : World) (t : string) (book chapter : Z)
    (verse : option Z) (result : gmap string CompareValue) (tr : list Event) :
  files w !! translation_file t = None →
  compare_side w t book chapter verse result tr =
  (tr, Raised (HTTPException 404
                 ("Database file " +:+ translation_file t +:+ " not found"))).
Proof.
  intros Hf. unfold compare_side.
  now rewrite run_bind, get_translation_db_run, get_db_connection_run, Hf.
Qed.

Lemma compare_side_dir (w : World) (t : string) (book chapter : Z)
    (verse : option Z) (result : gmap string CompareValue) (tr : list Event) :
  files w !! translation_file t = Some FDir →
  compare_side w t book chapter verse result tr =
  (tr, Raised (sqlite3_Error "unable to open database file")).
Proof.
  intros Hf. unfold compare_side.
  now rewrite run_bind, get_translation_db_run, get_db_connection_run, Hf.
Qed.

(* One side on a connected dataset: the statement is run and the connection
   closed; the side is recorded unless an int of the request cannot be bound *)
Lemma compare_side_run (w : World) (t : string) (book chapter : Z)
    (verse : option Z) (result : gmap string CompareValue) (tr : list Event)
    (db : Database) :
  files w !! translation_file t = Some (FFile db) →
  ∃ sql params,
    compare_side w t book chapter verse result tr =
    (tr ++ [EConnect (translation_file t); EExecute (translation_file t) sql params;
            EClose (translation_file t)],
     match verses_of db (upper t +:+ "_verses") with
     | Rows _ =>
         if forallb sqlite_int (book :: chapter :: option_list (truthy verse))
         then Returned (<[upper t := side_value db t book chapter verse]> result)
         else Raised int_too_large
     | EngineError _ =>
         Returned (<[upper t := side_value db t book chapter verse]> result)
     end).
Proof.
  intros Hf. unfold compare_side, side_value.
  rewrite run_bind, (get_translation_db_open _ _ _ _ Hf).
  unfold try_finally, try_except_sqlite.
  destruct (truthy verse) as [v|]; eexists _, _;
    rewrite run_bind, execute_run_any;
    cbn [conn_db conn_path forallb bindable option_list option_rect];
    (destruct (verses_of db _) as [tbl|msg]; cbn [qmap];
     [|cbv [mret Py_ret py_ret close emit]; cbn [conn_path];
       rewrite <- !app_assoc; reflexivity]).
  - destruct (sqlite_int book && (sqlite_int chapter && (sqlite_int v && true)))%bool.
    + destruct (head _); cbv [mret Py_ret py_ret close emit]; cbn [conn_path];
        rewrite <- !app_assoc; reflexivity.
    + cbv [close emit int_too_large]; cbn [conn_path]; rewrite <- !app_assoc; reflexivity.
  - destruct (sqlite_int book && (sqlite_int chapter && true))%bool;
      cbv [mret Py_ret py_ret close emit int_too_large]; cbn [conn_path];
      rewrite <- !app_assoc; reflexivity.
Qed.

(* Only the verse that is looked up is bound *)
Lemma truthy_bound (book chapter : Z) (verse : option Z) :
  forallb sqlite_int (book :: chapter :: option_list verse) = true →
  forallb sqlite_int (book :: chapter :: option_list (truthy verse)) = true.
Proof.
  destruct verse as [v|]; [|exact (λ H, H)].
  unfold truthy. destruct (decide (v = 0%Z)); [|exact (λ H, H)].
  cbn. now intros [-> [-> _]%andb_prop]%andb_prop.
Qed.

Lemma compare_side_open (w : World) (t : string) (book chapter : Z)
    (verse : option Z) (result : gmap string CompareValue) (tr : list Event)
    (db : Database) :
  files w !! translation_file t = Some (FFile db) →
  forallb sqlite_int (book :: chapter :: option_list verse) = true →
  ∃ sql params,
    compare_side w t book chapter verse result tr =
    (tr ++ [EConnect (translation_file t); EExecute (translation_file t) sql params;
            EClose (translation_file t)],
     Returned (<[upper t := side_value db t book chapter verse]> result)).
Proof.
  intros Hf Hints.
  destruct (compare_side_run w t book chapter verse result tr db Hf)
    as (sql & params & Hrun).
  exists sql, params. rewrite Hrun, (truthy_bound _ _ _ Hints).
  now destruct (verses_of db _).
Qed.

Lemma compare_translations_run (w : World) (translation1 translation2 : string)
    (book chapter : Z) (verse : option Z) (tr : list Event) :
  compare_translations w translation1 translation2 book chapter verse tr =
  match compare_side w translation1 book chapter verse ∅ tr with
  | (tr1, Returned result1) => compare_side w translation2 book chapter verse result1 tr1
  | (tr1, Raised e) => (tr1, Raised e)
  end.
Proof.
  unfold compare_translations. cbn [compare_loop]. rewrite run_bind.
  destruct (compare_side w translation1 book chapter verse ∅ tr) as [tr1 [result1|e]];
    [|reflexivity].
  rewrite run_bind.
  destruct (compare_side w translation2 book chapter verse result1 tr1) as [tr2 [result2|e]];
    reflexivity.
Qed.

(** C1, as the code has it.  For identifiers of letters, digits and
    underscores and numbers in the 64-bit range: when the files of both
    translations exist as SQLite files, the call returns a result with an
    entry for both identifiers in upper case, both datasets having been
    queried: per side, a verse that is not there is recorded as "Verse not
    found", an engine error as "Error: ...", a chapter without verses as an
    empty list, and none of these stops the other side.  A dataset whose file
    does not exist is not recorded: the call raises the 404 "Database file
    ... not found", at the first side before anything is queried, at the
    second side after the first dataset was connected, queried and closed. *)
Theorem compare_sides_when_resolved (w : World) (translation1 translation2 : string)
    (book chapter : Z) (verse : option Z) :
  allow_listed translation1 = true →
  allow_listed translation2 = true →
  forallb sqlite_int (book :: chapter :: option_list verse) = true →
  let call := compare_translations w translation1 translation2 book chapter verse in
  (∀ db1 db2,
     files w !! translation_file translation1 = Some (FFile db1) →
     files w !! translation_file translation2 = Some (FFile db2) →
     reports_both_sides w translation1 translation2 book chapter verse
     ∧ outcome_of call
       = Returned (<[upper translation2 := side_value db2 translation2 book chapter verse]>
                     (<[upper translation1 := side_value db1 translation1 book chapter verse]>
                        ∅))
     ∧ (event_path <$> filter (λ ev, is_execute ev = true) (trace_of call))
       = [Some (translation_file translation1); Some (translation_file translation2)])
  ∧ (files w !! translation_file translation1 = None →
       run call
       = ([], Raised (HTTPException 404
                        ("Database file " +:+ translation_file translation1
                         +:+ " not found"))))
  ∧ (∀ db1,
       files w !! translation_file translation1 = Some (FFile db1) →
       files w !! translation_file translation2 = None →
       ∃ sql params,
         run call
         = ([EConnect (translation_file translation1);
             EExecute (translation_file translation1) sql params;
             EClose (translation_file translation1)],
            Raised (HTTPException 404
                      ("Database file " +:+ translation_file translation2
                       +:+ " not found")))).
Proof.
  intros _ _ Hints call. split; [|split].
  - intros db1 db2 Hf1 Hf2.
    destruct (compare_side_open w translation1 book chapter verse ∅ [] db1 Hf1 Hints)
      as (sql1 & params1 & Hside1).
    destruct (compare_side_open w translation2 book chapter verse
                (<[upper translation1 := side_value db1 translation1 book chapter verse]> ∅)
                ([] ++ [EConnect (translation_file translation1);
                        EExecute (translation_file translation1) sql1 params1;
                        EClose (translation_file translation1)]) db2 Hf2 Hints)
      as (sql2 & params2 & Hside2).
    assert (Hrun : run call = _)
      by (unfold run, call; rewrite compare_translations_run, Hside1, Hside2;
          reflexivity).
    assert (Hout : outcome_of call = _) by (unfold outcome_of; rewrite Hrun; reflexivity).
    split; [|split].
    + eexists. split; [exact Hout|]. split.
      * destruct (decide (upper translation1 = upper translation2)) as [Heq|Hne].
        -- rewrite Heq, lookup_insert_eq. eauto.
        -- rewrite lookup_insert_ne, lookup_insert_eq by congruence. eauto.
      * rewrite lookup_insert_eq. eauto.
    + exact Hout.
    + unfold trace_of. rewrite Hrun. reflexivity.
  - intros Hf1. unfold run, call.
    now rewrite compare_translations_run, (compare_side_missing _ _ _ _ _ _ _ Hf1).
  - intros db1 Hf1 Hf2. unfold run, call.
    destruct (compare_side_open w translation1 book chapter verse ∅ [] db1 Hf1 Hints)
      as (sql1 & params1 & Hside1).
    exists sql1, params1.
    now rewrite compare_translations_run, Hside1, (compare_side_missing _ _ _ _ _ _ _ Hf2).
Qed.

Lemma compare_sides_when_resolved_witness :
  allow_listed "kjv" = true
  ∧ allow_listed "bad" = true
  ∧ forallb sqlite_int (1 :: 1 :: option_list (Some 9999))%Z = true
  ∧ files Examples.world !! translation_file "kjv" = Some (FFile Examples.kjv_db)
  ∧ files Examples.world !! translation_file "bad" = Some (FFile Examples.untitled_db)
  ∧ reports_both_sides Examples.world "kjv" "bad" 1 1 (Some 9999%Z)
  ∧ outcome_of (compare_translations Examples.world "kjv" "bad" 1 1 (Some 9999%Z))
    = Returned (<["BAD" := CmpMessage "Error: no such table: BAD_verses"]>
                  (<["KJV" := CmpMessage "Verse not found"]> ∅)).
Proof.
  split; [reflexivity|]. split; [reflexivity|]. split; [reflexivity|].
  split; [reflexivity|]. split; [reflexivity|].
  destruct (compare_sides_when_resolved Examples.world "kjv" "bad" 1 1 (Some 9999%Z)
              eq_refl eq_refl eq_refl)
    as (Hboth & _ & _).
  destruct (Hboth Examples.kjv_db Examples.untitled_db eq_refl eq_refl)
    as (Hreports & Hout & _).
  split; [exact Hreports|exact Hout].
Defined.

(** C1, as stated, fails when the file of one translation does not exist:
    the call raises and returns no result at all. *)
Lemma compare_missing_dataset_aborts :
  ¬ reports_both_sides Examples.world "kjv" "nope" 1 1 None.
Proof.
  intros (result & Hout & _).
  vm_compute in Hout. discriminate.
Qed.

(* Without a verse to look up, a side records the chapter or an engine error *)
Lemma side_value_chapter (db : Database) (t : string) (book chapter : Z)
    (verse : option Z) :
  truthy verse = None →
  (∃ rows, side_value db t book chapter verse = CmpChapter rows)
  ∨ (∃ msg, side_value db t book chapter verse = CmpMessage ("Error: " +:+ msg)).
Proof.
  intros Hv. unfold side_value. rewrite Hv.
  destruct (verses_of db _) as [tbl|msg]; eauto.
Qed.

Lemma compare_translations_entries (w : World) (translation1 translation2 : string)
    (book chapter : Z) (verse : option Z) (result : gmap string CompareValue)
    (k : string) (val : CompareValue) :
  outcome_of (compare_translations w translation1 translation2 book chapter verse)
  = Returned result →
  result !! k = Some val →
  ∃ db t, val = side_value db t book chapter verse.
Proof.
  unfold outcome_of, run. rewrite compare_translations_run.
  destruct (files w !! translation_file translation1) as [[|db1]|] eqn:Hf1.
  - rewrite (compare_side_dir _ _ _ _ _ _ _ Hf1). discriminate.
  - destruct (compare_side_run w translation1 book chapter verse ∅ [] db1 Hf1)
      as (sql1 & params1 & ->).
    set (first := <[upper translation1 := side_value db1 translation1 book chapter verse]>
                    (∅ : gmap string CompareValue)).
    assert (Hsecond : ∀ tr1,
              (compare_side w translation2 book chapter verse first tr1).2
              = Returned result →
              result !! k = Some val →
              ∃ db t, val = side_value db t book chapter verse).
    { intros tr1.
      destruct (files w !! translation_file translation2) as [[|db2]|] eqn:Hf2.
      - rewrite (compare_side_dir _ _ _ _ _ _ _ Hf2). discriminate.
      - destruct (compare_side_run w translation2 book chapter verse first tr1 db2 Hf2)
          as (sql2 & params2 & ->).
        cbn [snd]. intros Hret Hlook.
        assert (Hresult : result = <[upper translation2 :=
                                       side_value db2 translation2 book chapter verse]> first).
        { destruct (verses_of db2 _); [|congruence].
          destruct (forallb sqlite_int _); congruence. }
        subst result.
        apply lookup_insert_Some in Hlook as [[_ <-]|[_ Hlook]]; [eauto|].
        apply lookup_insert_Some in Hlook as [[_ <-]|[_ Hlook]]; [eauto|].
        rewrite lookup_empty in Hlook. discriminate.
      - rewrite (compare_side_missing _ _ _ _ _ _ _ Hf2). discriminate. }
    destruct (verses_of db1 _); [destruct (forallb sqlite_int _); [|discriminate]|];
      fold first; intros Hret; apply (Hsecond _ Hret).
  - rewrite (compare_side_missing _ _ _ _ _ _ _ Hf1). discriminate.
Qed.

(** C10.  With verse = 0 the comparison is the one made without a verse:
    [if verse:] holds for the non-zero values only, so the call with verse 0
    is the whole-chapter call, statement for statement, and every entry of
    its result is a list of chapter rows or an engine error, never a single
    verse nor "Verse not found". *)
Theorem compare_verse_zero_is_chapter (w : World) (translation1 translation2 : string)
    (book chapter : Z) :
  compare_translations w translation1 translation2 book chapter (Some 0%Z)
  = compare_translations w translation1 translation2 book chapter None
  ∧ (∀ verse v, truthy verse = Some v ↔ verse = Some v ∧ v ≠ 0%Z)
  ∧ (∀ result k val,
       outcome_of (compare_translations w translation1 translation2 book chapter
                     (Some 0%Z)) = Returned result →
       result !! k = Some val →
       (∃ rows, val = CmpChapter rows)
       ∨ (∃ msg, val = CmpMessage ("Error: " +:+ msg))).
Proof.
  split; [reflexivity|]. split.
  - intros verse v. unfold truthy. destruct verse as [v'|]; [|split; [discriminate|]].
    + destruct (decide (v' = 0%Z)) as [->|Hne]; split.
      * discriminate.
      * intros [[= <-] Hv]. contradiction.
      * intros [= <-]. now split.
      * intros [[= <-] _]. reflexivity.
    + intros [Hv _]. discriminate.
  - intros result k val Hout Hlook.
    destruct (compare_translations_entries _ _ _ _ _ _ _ _ _ Hout Hlook)
      as (db & t & ->).
    now apply side_value_chapter.
Qed.

Lemma compare_verse_zero_is_chapter_witness :
  ∃ rows,
    outcome_of (compare_translations Examples.world "kjv" "kjv" 1 2 (Some 0%Z))
    = Returned {[ "KJV" := CmpChapter rows ]}
    ∧ length rows = 2.
Proof.
  destruct (compare_verse_zero_is_chapter Examples.world "kjv" "kjv" 1 2) as (Heq & _).
  unfold outcome_of, run. rewrite Heq.
  eexists. split; reflexivity.
Defined.

(** ** Search *)

Lemma like_percent (s : string) : like "%" s = true.
Proof. induction s as [|c s IH]; [reflexivity|]. cbn in *. now rewrite IH. Qed.

Lemma like_star (pattern s : string) :
  like (String "%" pattern) s
  = (like pattern s
     || match s with
        | EmptyString => false
        | String _ s' => like (String "%" pattern) s'
        end)%bool.
Proof. destruct s; reflexivity. Qed.

Lemma like_literal_prefix (query s : string) :
  wildcard_free query = true →
  like (query +:+ "%") s = prefix_nocase query s.
Proof.
  revert s. induction query as [|c query IH]; intros s Hfree.
  - change (EmptyString +:+ "%") with "%". rewrite like_percent. now destruct s.
  - cbn in Hfree. apply andb_prop in Hfree as [Hc Hfree].
    apply negb_true_iff, orb_false_elim in Hc as [Hc1 Hc2].
    change (String c query +:+ "%") with (String c (query +:+ "%")).
    cbn [like]. rewrite Hc1, Hc2.
    destruct s as [|d s]; [reflexivity|].
    cbn [prefix_nocase]. now rewrite IH.
Qed.

(* On a query without wildcards, the LIKE of search_verses is the
   case-blind substring test *)
Lemma like_contains (query s : string) :
  wildcard_free query = true →
  like ("%" +:+ query +:+ "%") s = contains_nocase query s.
Proof.
  intros Hfree. change ("%" +:+ query +:+ "%") with (String "%" (query +:+ "%")).
  induction s as [|d s IH]; rewrite like_star, like_literal_prefix by assumption.
  - reflexivity.
  - cbn [contains_nocase]. now rewrite IH.
Qed.

Lemma take_elem {A} (x : A) (n : nat) (l : list A) : x ∈ take n l → x ∈ l.
Proof. intros Hx. eapply elem_of_sublist; [exact Hx|apply sublist_take]. Qed.

Lemma take_StronglySorted {A} (R : relation A) (n : nat) (l : list A) :
  StronglySorted R l → StronglySorted R (take n l).
Proof.
  intros Hs. revert n. induction Hs as [|x l Hl IH Hx]; intros [|n]; cbn;
    try constructor; [apply IH|].
  apply Forall_forall. intros y Hy. rewrite Forall_forall in Hx.
  apply Hx. eapply take_elem, Hy.
Qed.

Lemma filter_none {A} (P : A → Prop) `{!∀ x, Decision (P x)} (l : list A) :
  Forall (λ x, ¬ P x) l → filter P l = [].
Proof.
  induction 1 as [|x l Hx Hl IH]; [reflexivity|].
  rewrite filter_cons, decide_False by assumption. exact IH.
Qed.

(* A text without NUL is read whole by LIKE *)
Lemma cut_nul_free (s : string) : nul_free s = true → cut_nul s = s.
Proof.
  induction s as [|c s IH]; [reflexivity|]. cbn.
  intros [Hc Hs]%andb_prop. apply negb_true_iff in Hc. now rewrite Hc, IH.
Qed.

Lemma nul_free_pattern (query : string) :
  nul_free query = true → cut_nul ("%" +:+ query +:+ "%") = "%" +:+ query +:+ "%".
Proof.
  intros Hq. apply cut_nul_free.
  change ("%" +:+ query +:+ "%") with (String "%" (query +:+ "%")). cbn.
  induction query as [|c query IH]; [reflexivity|].
  change (String c query +:+ "%") with (String c (query +:+ "%")).
  cbn in Hq |- *. apply andb_prop in Hq as [-> Hq]. now apply IH.
Qed.

(* What LIKE finds in the part of a text it reads is in the text *)
Lemma prefix_nocase_cut_nul (needle s : string) :
  prefix_nocase needle (cut_nul s) = true → prefix_nocase needle s = true.
Proof.
  revert s. induction needle as [|a needle IH]; intros s; [reflexivity|].
  destruct s as [|b s]; [discriminate|]. cbn [cut_nul].
  destruct (Ascii.eqb b Ascii.zero); [discriminate|]. cbn [prefix_nocase].
  intros [-> Hrest]%andb_prop. now apply IH.
Qed.

Lemma contains_nocase_cut_nul (needle s : string) :
  contains_nocase needle (cut_nul s) = true → contains_nocase needle s = true.
Proof.
  induction s as [|b s IH]; [exact (λ H, H)|].
  assert (Hcut : cut_nul (String b s)
                 = if Ascii.eqb b Ascii.zero then EmptyString else String b (cut_nul s))
    by reflexivity.
  destruct (Ascii.eqb b Ascii.zero); rewrite Hcut.
  - destruct needle; [reflexivity|discriminate].
  - cbn [contains_nocase]. intros [Hhere|Hlater]%orb_prop.
    + rewrite <- Hcut in Hhere. apply prefix_nocase_cut_nul in Hhere.
      now rewrite Hhere.
    + rewrite (IH Hlater). apply orb_true_r.
Qed.

Lemma like_failure_fits {A} (query : string) (table : QueryResult A) :
  pattern_fits query = true → like_failure ("%" +:+ query +:+ "%") table = None.
Proof.
  unfold pattern_fits, like_failure. intros Hfits%negb_true_iff. rewrite Hfits.
  now destruct table as [[|row rows]|msg].
Qed.

(* The rows the statement of search_verses selects *)
Lemma search_verses_outcome (w : World) (translation query : string) (book : option Z)
    (db : Database) (tbl : list VerseRow) :
  files w !! translation_file translation = Some (FFile db) →
  verses_of db (upper translation +:+ "_verses") = Rows tbl →
  outcome_of (search_verses w translation query book) =
  if forallb sqlite_int (option_list book) then
    match like_failure ("%" +:+ query +:+ "%") (Rows tbl) with
    | Some msg => Raised (HTTPException 500 ("Error in search: " +:+ msg))
    | None =>
        Returned
          (map verse_of_row
             (take 100
                (order_by by_chapter_verse
                   (match book with
                    | Some b =>
                        filter (λ r, r_book_id r = b)
                          (filter (λ r, sqlite_like ("%" +:+ query +:+ "%") (r_text r)) tbl)
                    | None =>
                        filter (λ r, sqlite_like ("%" +:+ query +:+ "%") (r_text r)) tbl
                    end))))
    end
  else Raised int_too_large.
Proof.
  intros Hf Htbl. unfold outcome_of, run, search_verses.
  rewrite run_bind, (get_translation_db_open _ _ _ _ Hf).
  unfold try_finally, try_except_sqlite.
  rewrite run_bind, execute_with_run. cbn [conn_db conn_path]. rewrite Htbl.
  cbn [qmap].
  destruct book as [b|]; cbn [app forallb bindable option_list option_rect].
  - destruct (sqlite_int b && true)%bool; [|reflexivity].
    destruct (like_failure _ _); reflexivity.
  - destruct (like_failure _ _); reflexivity.
Qed.

(* The parts of the search contract the handler keeps for a pattern within
   the engine's limit and a book id in the 64-bit range: at most 100 rows,
   ascending (chapter, verse) order, the book scope, every text matching the
   LIKE pattern, and the empty list (no error) when nothing matches *)
Lemma search_verses_shape (w : World) (translation query : string) (book : option Z)
    (db : Database) (tbl : list VerseRow) :
  files w !! translation_file translation = Some (FFile db) →
  verses_of db (upper translation +:+ "_verses") = Rows tbl →
  forallb sqlite_int (option_list book) = true →
  pattern_fits query = true →
  ∃ rows,
    outcome_of (search_verses w translation query book)
    = Returned (map verse_of_row rows)
    ∧ length rows ≤ 100
    ∧ StronglySorted by_chapter_verse rows
    ∧ Forall (λ r, r ∈ tbl
                   ∧ sqlite_like ("%" +:+ query +:+ "%") (r_text r) = true
                   ∧ ∀ b, book = Some b → r_book_id r = b) rows
    ∧ (Forall (λ r, sqlite_like ("%" +:+ query +:+ "%") (r_text r) = false) tbl
       → rows = []).
Proof.
  intros Hf Htbl Hints Hfits.
  rewrite (search_verses_outcome _ _ _ _ _ _ Hf Htbl), Hints,
    (like_failure_fits _ _ Hfits).
  set (matching := filter (λ r, sqlite_like ("%" +:+ query +:+ "%") (r_text r)) tbl).
  set (scoped := match book with
                 | Some b => filter (λ r, r_book_id r = b) matching
                 | None => matching
                 end).
  assert (Hscoped : ∀ r, r ∈ scoped →
            r ∈ tbl ∧ sqlite_like ("%" +:+ query +:+ "%") (r_text r) = true
            ∧ ∀ b, book = Some b → r_book_id r = b).
  { intros r Hr. unfold scoped, matching in Hr. destruct book as [b|].
    - apply list_elem_of_filter in Hr as [Hb Hr].
      apply list_elem_of_filter in Hr as [Hlike Hr].
      apply Is_true_true in Hlike.
      repeat split; [assumption..|]. now intros b' [= <-].
    - apply list_elem_of_filter in Hr as [Hlike Hr].
      apply Is_true_true in Hlike.
      repeat split; [assumption..|]. discriminate. }
  exists (take 100 (order_by by_chapter_verse scoped)).
  split; [reflexivity|]. split; [|split; [|split]].
  - rewrite length_take. lia.
  - apply take_StronglySorted, order_by_StronglySorted; apply _.
  - apply Forall_forall. intros r Hr. apply Hscoped.
    apply take_elem in Hr. now rewrite order_by_Permutation in Hr.
  - intros Hnone.
    assert (Hm : matching = []).
    { unfold matching. apply filter_none.
      eapply Forall_impl; [exact Hnone|]. cbv beta. intros r ->. exact (λ H, H). }
    unfold scoped. rewrite Hm. now destruct book.
Qed.

(** C4, at a query made of a wildcard.  The handler passes the query to LIKE
    between two %, unescaped: for the query "_" in book 2 it returns a verse
    whose text has no underscore in it.  For a pattern within the engine's
    limit and a book id in the 64-bit range the other parts of the contract
    hold (search_verses_shape), and so does this one for a query without %,
    _ and NUL (search_verses_literal). *)
Theorem search_wildcard_not_substring :
  outcome_of (search_verses Examples.world "kjv" "_" (Some 2%Z))
  = Returned [mkVerse 1 "Now these are the names of the children of Israel"]
  ∧ contains_nocase "_" "Now these are the names of the children of Israel" = false
  ∧ ¬ rows_contain_query Examples.world "kjv" "_" (Some 2%Z).
Proof.
  split; [reflexivity|]. split; [reflexivity|].
  intros Hclaim. specialize (Hclaim _ eq_refl).
  apply Forall_cons in Hclaim as [Hrow _]. discriminate Hrow.
Qed.

(* On queries without wildcards and without NUL, within the engine's limit,
   every returned text contains the query *)
Lemma search_verses_literal (w : World) (translation query : string) (book : option Z)
    (db : Database) (tbl : list VerseRow) :
  wildcard_free query = true →
  nul_free query = true →
  pattern_fits query = true →
  files w !! translation_file translation = Some (FFile db) →
  verses_of db (upper translation +:+ "_verses") = Rows tbl →
  rows_contain_query w translation query book.
Proof.
  intros Hfree Hnul Hfits Hf Htbl verses Hout.
  rewrite (search_verses_outcome _ _ _ _ _ _ Hf Htbl),
    (like_failure_fits _ _ Hfits) in Hout.
  destruct (forallb sqlite_int (option_list book)); [|discriminate].
  injection Hout as <-.
  apply Forall_forall. intros v Hv.
  apply list_elem_of_In, in_map_iff in Hv as (r & <- & Hr).
  apply list_elem_of_In, take_elem in Hr. rewrite order_by_Permutation in Hr.
  assert (Hlike : sqlite_like ("%" +:+ query +:+ "%") (r_text r) = true).
  { destruct book as [b|].
    - apply list_elem_of_filter in Hr as [_ Hr].
      apply list_elem_of_filter in Hr as [Hlike _]. now apply Is_true_true.
    - apply list_elem_of_filter in Hr as [Hlike _]. now apply Is_true_true. }
  unfold sqlite_like in Hlike.
  rewrite (nul_free_pattern _ Hnul), like_contains in Hlike by assumption.
  cbn [verse_of_row text]. now apply contains_nocase_cut_nul.
Qed.

(** ** Listing the translations *)

Lemma scan_file_skip (w : World) (filename : string) (conn : option Connection)
    (translations_list : list Translation) (tr : list Event) :
  endswith filename ".db" = false →
  scan_file w filename conn translations_list tr = (tr, Returned (conn, translations_list)).
Proof. intros Hext. unfold scan_file. now rewrite Hext. Qed.

Ltac scan_file_done :=
  eexists _, _; split; [|split];
  [ cbv [mbind Py_bind py_bind emit close mret Py_ret py_ret raise conn_path];
    cbn [option_list]; rewrite ?app_nil_r; reflexivity
  | rewrite !filter_app; cbn; now rewrite ?app_nil_r
  | rewrite !filter_app; cbn; now rewrite ?app_nil_r ].

(* One dataset file: the scan goes on whatever happens, keeps the entry if
   there is one, logs the exception if there is one, and runs the catalog
   statement once if the file could be opened *)
Lemma scan_file_dataset (w : World) (filename : string) (conn : option Connection)
    (translations_list : list Translation) (tr : list Event) :
  endswith filename ".db" = true →
  ∃ tr' conn',
    scan_file w filename conn translations_list tr
    = (tr', Returned (conn', translations_list ++ option_list (catalog_entry w filename)))
    ∧ filter (λ ev, is_print ev = true) tr'
      = filter (λ ev, is_print ev = true) tr ++ option_list (catalog_report w filename)
    ∧ filter (λ ev, is_execute ev = true) tr'
      = filter (λ ev, is_execute ev = true) tr ++ option_list (catalog_query w filename).
Proof.
  intros Hext. unfold scan_file, catalog_entry, catalog_report, catalog_query, read_catalog.
  rewrite Hext. cbv zeta. rewrite run_bind. unfold try_except at 1.
  rewrite run_bind, get_db_connection_run.
  destruct (files w !! path_join BASE_DB_PATH filename) as [[|db]|].
  - (* a directory *)
    destruct conn; scan_file_done.
  - (* a SQLite file *)
    cbv [mret Py_ret py_ret]. rewrite run_bind. unfold try_except.
    rewrite run_bind, execute_run by reflexivity. cbn [conn_db conn_path].
    destruct (translations db) as [[|row rows]|msg]; cbn [qmap take head];
      [scan_file_done| |scan_file_done].
    unfold Translation_of_row.
    destruct (cat_translation row) as [t|], (cat_title row) as [ti|]; scan_file_done.
  - (* no file at the path *)
    destruct conn; scan_file_done.
Qed.

Lemma omap_cons_option_list {A B} (f : A → option B) (x : A) (l : list A) :
  omap f (x :: l) = option_list (f x) ++ omap f l.
Proof. cbn. now destruct (f x). Qed.

Lemma scan_files_spec (w : World) (filenames : list string) (conn : option Connection)
    (translations_list : list Translation) (tr : list Event) :
  let found := filter (λ filename, endswith filename ".db") filenames in
  ∃ tr',
    scan_files w filenames conn translations_list tr
    = (tr', Returned (translations_list ++ omap (catalog_entry w) found))
    ∧ filter (λ ev, is_print ev = true) tr'
      = filter (λ ev, is_print ev = true) tr ++ omap (catalog_report w) found
    ∧ filter (λ ev, is_execute ev = true) tr'
      = filter (λ ev, is_execute ev = true) tr ++ omap (catalog_query w) found.
Proof.
  revert conn translations_list tr.
  induction filenames as [|filename rest IH]; intros conn translations_list tr found.
  - exists tr. cbn. now rewrite !app_nil_r.
  - cbn [scan_files]. rewrite run_bind. unfold found. rewrite filter_cons.
    destruct (endswith filename ".db") eqn:Hext.
    + rewrite decide_True by now apply Is_true_true.
      destruct (scan_file_dataset w filename conn translations_list tr Hext)
        as (tr1 & conn1 & -> & Hprint & Hexec).
      cbn [fst snd].
      destruct (IH conn1 (translations_list ++ option_list (catalog_entry w filename)) tr1)
        as (tr' & -> & Hprint' & Hexec').
      exists tr'. rewrite !omap_cons_option_list.
      rewrite Hprint', Hexec', Hprint, Hexec, <- !app_assoc. repeat split.
    + rewrite decide_False by now apply Is_true_false.
      rewrite (scan_file_skip _ _ _ _ _ Hext). cbn [fst snd].
      apply IH.
Qed.

(** C5.  listTranslations goes through every .db file of the base directory
    and never stops on one of them: a file that cannot be opened, whose
    catalog cannot be read or whose catalog row is malformed is logged and
    skipped; the catalog statement (LIMIT 1) is run once on each file that
    could be opened, and its row, when well formed, is the one entry of that
    file in the result; the result lists these entries in directory order,
    and the call raises the 404 "No translations found" exactly when there is
    no entry. *)
Theorem get_all_translations_scan (w : World) :
  let entries := omap (catalog_entry w) (datasets w) in
  let call := get_all_translations w in
  (entries = [] ↔ outcome_of call = Raised (HTTPException 404 "No translations found"))
  ∧ (entries ≠ [] ↔ outcome_of call = Returned entries)
  ∧ filter (λ ev, is_print ev = true) (trace_of call)
    = omap (catalog_report w) (datasets w)
  ∧ filter (λ ev, is_execute ev = true) (trace_of call)
    = omap (catalog_query w) (datasets w).
Proof.
  intros entries call.
  destruct (scan_files_spec w (listdir_base w) None [] []) as (tr' & Hscan & Hprint & Hexec).
  fold (datasets w) in Hscan, Hprint, Hexec. cbn [app] in Hscan, Hprint, Hexec.
  fold entries in Hscan.
  assert (Hrun : run call =
                 (tr', match entries with
                       | [] => Raised (HTTPException 404 "No translations found")
                       | _ => Returned entries
                       end)).
  { unfold run, call, get_all_translations. rewrite run_bind, Hscan.
    destruct entries; reflexivity. }
  unfold outcome_of, trace_of. rewrite Hrun. cbn [fst snd].
  split; [|split; [|split; assumption]].
  - destruct entries; split; (reflexivity || discriminate).
  - destruct entries; split; try (reflexivity || discriminate).
    intros Hne. now destruct Hne.
Qed.

Lemma get_all_translations_scan_witness :
  datasets Examples.world = ["KJV.db"; "BAD.db"; "translations.db"; "K-V.db"]
  ∧ translation <$> omap (catalog_entry Examples.world) (datasets Examples.world)
    = ["KJV"; "KJV"; "K-V"]
  ∧ filter (λ ev, is_print ev = true) (trace_of (get_all_translations Examples.world))
    = [EPrint "Error reading BAD.db: validation error for Translation"].
Proof.
  destruct (get_all_translations_scan Examples.world) as (_ & _ & Hprint & _).
  split; [reflexivity|]. split; [reflexivity|].
  rewrite Hprint. reflexivity.
Defined.

(** * Further properties of the handlers *)

(** ** Single verse *)

Lemma get_translation_db_fails (w : World) (translation_id : string) :
  (∀ db, files w !! translation_file translation_id ≠ Some (FFile db)) →
  ∃ e, ∀ tr, get_translation_db w translation_id tr = (tr, Raised e).
Proof.
  intros Hf. unfold get_translation_db. fold (translation_file translation_id).
  destruct (files w !! translation_file translation_id) as [[|db]|] eqn:Hlook.
  - eexists. intros tr. now rewrite get_db_connection_run, Hlook.
  - destruct (Hf db eq_refl).
  - eexists. intros tr. now rewrite get_db_connection_run, Hlook.
Qed.

Lemma get_single_verse_outcome (w : World) (translation_id : string)
    (book_id chapter verse : Z) (db : Database) :
  files w !! translation_file translation_id = Some (FFile db) →
  outcome_of (get_single_verse w translation_id book_id chapter verse) =
  match verses_of db (upper translation_id +:+ "_verses") with
  | EngineError msg => Raised (HTTPException 500 ("Error fetching verse: " +:+ msg))
  | Rows tbl =>
      if forallb sqlite_int [book_id; chapter; verse] then
        match head (filter (λ r, r_book_id r = book_id ∧ r_chapter r = chapter
                                 ∧ r_verse r = verse) tbl) with
        | None => Raised (HTTPException 404 "Verse not found")
        | Some row => Returned (verse_of_row row)
        end
      else Raised int_too_large
  end.
Proof.
  intros Hf. unfold outcome_of, run, get_single_verse.
  rewrite run_bind, (get_translation_db_open _ _ _ _ Hf).
  unfold try_finally, try_except_sqlite.
  rewrite run_bind, execute_run_any. cbn [conn_db conn_path forallb bindable].
  destruct (verses_of db _) as [tbl|msg]; [|reflexivity].
  cbn [qmap].
  destruct (sqlite_int book_id && (sqlite_int chapter && (sqlite_int verse && true)))%bool;
    [|reflexivity].
  destruct (head _); reflexivity.
Qed.

Lemma get_single_verse_resolved (w : World) (translation_id : string)
    (book_id chapter verse : Z) (x : Verse) :
  outcome_of (get_single_verse w translation_id book_id chapter verse) = Returned x →
  ∃ db tbl row,
    files w !! translation_file translation_id = Some (FFile db)
    ∧ verses_of db (upper translation_id +:+ "_verses") = Rows tbl
    ∧ forallb sqlite_int [book_id; chapter; verse] = true
    ∧ head (filter (λ r, r_book_id r = book_id ∧ r_chapter r = chapter
                         ∧ r_verse r = verse) tbl) = Some row
    ∧ x = verse_of_row row.
Proof.
  intros Hout.
  destruct (files w !! translation_file translation_id) as [[|db]|] eqn:Hf.
  - destruct (get_translation_db_fails w translation_id) as [e He];
      [intros db; rewrite Hf; discriminate|].
    unfold outcome_of, run, get_single_verse in Hout.
    rewrite run_bind, He in Hout. discriminate.
  - rewrite (get_single_verse_outcome _ _ _ _ _ _ Hf) in Hout.
    destruct (verses_of db _) as [tbl|msg] eqn:Htbl; [|discriminate].
    destruct (forallb sqlite_int _) eqn:Hints; [|discriminate].
    destruct (head _) as [row|] eqn:Hhead; [|discriminate].
    injection Hout as <-. now exists db, tbl, row.
  - destruct (get_translation_db_fails w translation_id) as [e He];
      [intros db; rewrite Hf; discriminate|].
    unfold outcome_of, run, get_single_verse in Hout.
    rewrite run_bind, He in Hout. discriminate.
Qed.



(** X2.  For an identifier of letters, digits and underscores, a verse that
    get_single_verse returns is one of the verses get_verses_in_chapter
    returns for the same book and chapter. *)
Theorem single_verse_in_chapter (w : World) (translation_id : string)
    (book_id chapter verse_number : Z) (x : Verse) :
  allow_listed translation_id = true →
  outcome_of (get_single_verse w translation_id book_id chapter verse_number)
  = Returned x →
  ∃ verses,
    outcome_of (get_verses_in_chapter w translation_id book_id chapter) = Returned verses
    ∧ x ∈ verses.
Proof.
  intros _ Hout.
  apply get_single_verse_resolved in Hout
    as (db & tbl & row & Hf & Htbl & Hints & Hhead & ->).
  rewrite (get_verses_in_chapter_outcome _ _ _ _ _ _ Hf Htbl).
  assert (Hbound : forallb sqlite_int [book_id; chapter] = true) by bound.
  rewrite Hbound.
  assert (Hrow : row ∈ filter (λ r, r_book_id r = book_id ∧ r_chapter r = chapter) tbl).
  { apply head_Some_elem_of in Hhead.
    apply list_elem_of_filter in Hhead as [(Hb & Hc & _) Hin].
    apply list_elem_of_filter. tauto. }
  rewrite <- (order_by_Permutation by_verse) in Hrow.
  destruct (order_by by_verse _) as [|r rows] eqn:Hrows; [inversion Hrow|].
  eexists. split; [reflexivity|].
  apply list_elem_of_In, in_map, list_elem_of_In, Hrow.
Qed.

Lemma single_verse_in_chapter_witness :
  allow_listed "kjv" = true
  ∧ outcome_of (get_single_verse Examples.world "kjv" 1 1 3)
    = Returned (mkVerse 3 "And God said, Let there be light: and there was light.")
  ∧ ∃ verses,
      outcome_of (get_verses_in_chapter Examples.world "kjv" 1 1) = Returned verses
      ∧ mkVerse 3 "And God said, Let there be light: and there was light." ∈ verses.
Proof.
  split; [reflexivity|]. split; [reflexivity|].
  exact (single_verse_in_chapter Examples.world "kjv" 1 1 3 _ eq_refl eq_refl).
Defined.

Lemma compare_translations_outcome (w : World) (translation1 translation2 : string)
    (book chapter : Z) (verse : option Z) (db1 db2 : Database) :
  files w !! translation_file translation1 = Some (FFile db1) →
  files w !! translation_file translation2 = Some (FFile db2) →
  forallb sqlite_int (book :: chapter :: option_list verse) = true →
  outcome_of (compare_translations w translation1 translation2 book chapter verse)
  = Returned (<[upper translation2 := side_value db2 translation2 book chapter verse]>
                (<[upper translation1 := side_value db1 translation1 book chapter verse]>
                   ∅)).
Proof.
  intros Hf1 Hf2 Hints. unfold outcome_of, run. rewrite compare_translations_run.
  destruct (compare_side_open w translation1 book chapter verse ∅ [] db1 Hf1 Hints)
    as (sql1 & params1 & ->).
  match goal with
  | |- context [compare_side w translation2 book chapter verse ?r ?tr] =>
      destruct (compare_side_open w translation2 book chapter verse r tr db2 Hf2 Hints)
        as (sql2 & params2 & ->)
  end.
  reflexivity.
Qed.

(* What a side of the comparison records for a verse, against what
   get_single_verse answers for it *)
Lemma side_value_single_verse (w : World) (t : string) (book chapter v : Z)
    (db : Database) :
  files w !! translation_file t = Some (FFile db) →
  forallb sqlite_int [book; chapter; v] = true →
  v ≠ 0%Z →
  match outcome_of (get_single_verse w t book chapter v) with
  | Returned x => side_value db t book chapter (Some v) = CmpVerse x
  | Raised e =>
      (e = HTTPException 404 "Verse not found"
       ∧ side_value db t book chapter (Some v) = CmpMessage "Verse not found")
      ∨ (∃ msg, e = HTTPException 500 ("Error fetching verse: " +:+ msg)
                ∧ side_value db t book chapter (Some v) = CmpMessage ("Error: " +:+ msg))
  end.
Proof.
  intros Hf Hints Hv. rewrite (get_single_verse_outcome _ _ _ _ _ _ Hf).
  unfold side_value, truthy. rewrite decide_False by exact Hv.
  destruct (verses_of db _) as [tbl|msg]; [|right; eauto].
  rewrite Hints.
  destruct (head _) as [row|]; [reflexivity|left; split; reflexivity].
Qed.

(** X3.  For identifiers of letters, digits and underscores, numbers in the
    64-bit range, a verse number other than 0 and two resolved datasets, what
    compare_translations records for a translation is what get_single_verse
    answers for it: the verse when it returns one, "Verse not found" when it
    raises the 404, "Error: ..." with the engine's message when it raises the
    500.  (The entry of the first translation is replaced by the second
    when both identifiers are the same in upper case.) *)
Theorem compare_agrees_with_single_verse (w : World) (translation1 translation2 : string)
    (book chapter v : Z) (db1 db2 : Database) :
  allow_listed translation1 = true →
  allow_listed translation2 = true →
  forallb sqlite_int [book; chapter; v] = true →
  files w !! translation_file translation1 = Some (FFile db1) →
  files w !! translation_file translation2 = Some (FFile db2) →
  v ≠ 0%Z →
  ∃ result,
    outcome_of (compare_translations w translation1 translation2 book chapter (Some v))
    = Returned result
    ∧ ∀ t, t = translation2 ∨ (t = translation1 ∧ upper translation1 ≠ upper translation2) →
        match outcome_of (get_single_verse w t book chapter v) with
        | Returned x => result !! upper t = Some (CmpVerse x)
        | Raised e =>
            (e = HTTPException 404 "Verse not found"
             ∧ result !! upper t = Some (CmpMessage "Verse not found"))
            ∨ (∃ msg, e = HTTPException 500 ("Error fetching verse: " +:+ msg)
                      ∧ result !! upper t = Some (CmpMessage ("Error: " +:+ msg)))
        end.
Proof.
  intros _ _ Hints Hf1 Hf2 Hv. eexists. split.
  { apply (compare_translations_outcome _ _ _ _ _ _ db1 db2 Hf1 Hf2). exact Hints. }
  intros t [->|[-> Hne]].
  - rewrite lookup_insert_eq.
    pose proof (side_value_single_verse w translation2 book chapter v db2 Hf2 Hints Hv)
      as Hside.
    destruct (outcome_of (get_single_verse w translation2 book chapter v)) as [x|e].
    + now rewrite Hside.
    + destruct Hside as [[-> ->]|(msg & -> & ->)]; [left|right]; eauto.
  - rewrite lookup_insert_ne, lookup_insert_eq by congruence.
    pose proof (side_value_single_verse w translation1 book chapter v db1 Hf1 Hints Hv)
      as Hside.
    destruct (outcome_of (get_single_verse w translation1 book chapter v)) as [x|e].
    + now rewrite Hside.
    + destruct Hside as [[-> ->]|(msg & -> & ->)]; [left|right]; eauto.
Qed.

Lemma compare_agrees_with_single_verse_witness :
  allow_listed "kjv" = true
  ∧ allow_listed "bad" = true
  ∧ forallb sqlite_int [1; 1; 3]%Z = true
  ∧ files Examples.world !! translation_file "kjv" = Some (FFile Examples.kjv_db)
  ∧ files Examples.world !! translation_file "bad" = Some (FFile Examples.untitled_db)
  ∧ (3 ≠ 0)%Z
  ∧ ∃ result,
      outcome_of (compare_translations Examples.world "kjv" "bad" 1 1 (Some 3%Z))
      = Returned result
      ∧ result !! "KJV"
        = Some (CmpVerse (mkVerse 3 "And God said, Let there be light: and there was light.")).
Proof.
  split; [reflexivity|]. split; [reflexivity|]. split; [reflexivity|].
  split; [reflexivity|]. split; [reflexivity|]. split; [discriminate|].
  destruct (compare_agrees_with_single_verse Examples.world "kjv" "bad" 1 1 3
              Examples.kjv_db Examples.untitled_db eq_refl eq_refl eq_refl eq_refl eq_refl)
    as (result & Hout & Hsides); [discriminate|].
  exists result. split; [exact Hout|].
  assert (Hne : upper "kjv" ≠ upper "bad") by (vm_compute; discriminate).
  pose proof (Hsides "kjv" (or_intror (conj eq_refl Hne))) as Hside.
  assert (Hsingle : outcome_of (get_single_verse Examples.world "kjv" 1 1 3)
                    = Returned (mkVerse 3 "And God said, Let there be light: and there was light."))
    by (vm_compute; reflexivity).
  rewrite Hsingle in Hside. exact Hside.
Defined.

(** ** Statistics *)

Lemma execute_count_run {A} (conn : Connection) (sql : string)
    (meaning : Database → QueryResult A) (count : list A → Z) (tr : list Event) :
  execute_count conn sql meaning count tr =
  (tr ++ [EExecute (conn_path conn) sql []],
   match meaning (conn_db conn) with
   | Rows rows => Returned (count rows)
   | EngineError msg => Raised (sqlite3_Error msg)
   end).
Proof.
  unfold execute_count. rewrite run_bind. unfold emit.
  destruct (meaning (conn_db conn)); reflexivity.
Qed.

Lemma get_translation_stats_outcome (w : World) (translation_id : string) (db : Database) :
  files w !! translation_file translation_id = Some (FFile db) →
  outcome_of (get_translation_stats w translation_id) =
  match books_of db (upper translation_id +:+ "_books"),
        verses_of db (upper translation_id +:+ "_verses") with
  | Rows books, Rows tbl =>
      Returned (mkStats (Z.of_nat (length books))
                        (Z.of_nat (length (remove_dups (map r_chapter tbl))))
                        (Z.of_nat (length tbl)))
  | EngineError msg, _ | Rows _, EngineError msg =>
      Raised (HTTPException 500 ("Error fetching statistics: " +:+ msg))
  end.
Proof.
  intros Hf. unfold outcome_of, run, get_translation_stats.
  rewrite run_bind, (get_translation_db_open _ _ _ _ Hf).
  unfold try_finally, try_except_sqlite.
  rewrite run_bind, execute_count_run. cbn [conn_db conn_path].
  destruct (books_of db _) as [books|msg]; [|reflexivity].
  rewrite run_bind, execute_count_run. cbn [conn_db conn_path].
  destruct (verses_of db _) as [tbl|msg] eqn:Htbl; [|reflexivity].
  rewrite run_bind, execute_count_run. cbn [conn_db conn_path]. rewrite Htbl.
  reflexivity.
Qed.

Lemma length_remove_dups_set (l : list Z) :
  length (remove_dups l) = size (list_to_set l : gset Z).
Proof.
  rewrite <- (size_list_to_set (C := gset Z) (remove_dups l)) by apply NoDup_remove_dups.
  f_equal. apply set_eq. intros x.
  now rewrite !elem_of_list_to_set, elem_of_remove_dups.
Qed.

(** X4.  On a resolved dataset with both relations readable, for an
    identifier of letters, digits and underscores,
    get_translation_stats returns the number of book rows, the number of
    verse rows and, as chapters_count, the number of distinct chapter numbers
    over all books together: it is at most the number of verses, it is 0
    exactly when there is no verse, and it never exceeds the largest chapter
    number, however many books there are. *)
Theorem get_translation_stats_spec (w : World) (translation_id : string)
    (db : Database) (books : list BookRow) (tbl : list VerseRow) :
  allow_listed translation_id = true →
  files w !! translation_file translation_id = Some (FFile db) →
  books_of db (upper translation_id +:+ "_books") = Rows books →
  verses_of db (upper translation_id +:+ "_verses") = Rows tbl →
  ∃ stats,
    outcome_of (get_translation_stats w translation_id) = Returned stats
    ∧ books_count stats = Z.of_nat (length books)
    ∧ verses_count stats = Z.of_nat (length tbl)
    ∧ chapters_count stats = Z.of_nat (size (list_to_set (r_chapter <$> tbl) : gset Z))
    ∧ (0 ≤ chapters_count stats ≤ verses_count stats)%Z
    ∧ (chapters_count stats = 0%Z ↔ tbl = [])
    ∧ ∀ largest, Forall (λ r, (1 ≤ r_chapter r ≤ largest)%Z) tbl →
                 (chapters_count stats ≤ Z.max 0 largest)%Z.
Proof.
  intros _ Hf Hbooks Htbl. eexists. split.
  { rewrite (get_translation_stats_outcome _ _ _ Hf), Hbooks, Htbl. reflexivity. }
  cbn [books_count verses_count chapters_count].
  assert (Hlen : length (remove_dups (map r_chapter tbl)) ≤ length tbl).
  { rewrite <- (length_map r_chapter tbl).
    apply submseteq_length, NoDup_submseteq; [apply NoDup_remove_dups|].
    intros x. now rewrite elem_of_remove_dups. }
  split; [reflexivity|]. split; [reflexivity|]. split; [|split; [lia|split]].
  - now rewrite length_remove_dups_set.
  - split.
    + intros Hzero. destruct tbl as [|r tbl']; [reflexivity|].
      assert (Hin : r_chapter r ∈ remove_dups (map r_chapter (r :: tbl')))
        by (apply elem_of_remove_dups; left).
      destruct (remove_dups _); [inversion Hin|discriminate Hzero].
    + now intros ->.
  - intros largest Hrange. rewrite length_remove_dups_set.
    assert (Hsub : (list_to_set (map r_chapter tbl) : gset Z)
                   ⊆ list_to_set (seqZ 1 (Z.max 0 largest))).
    { intros c. rewrite !elem_of_list_to_set, elem_of_seqZ.
      rewrite list_elem_of_In, in_map_iff. intros (r & <- & Hr).
      rewrite Forall_forall in Hrange. apply list_elem_of_In, Hrange in Hr. lia. }
    apply subseteq_size in Hsub.
    rewrite (size_list_to_set (seqZ 1 (Z.max 0 largest))) in Hsub by apply NoDup_seqZ.
    rewrite length_seqZ in Hsub. lia.
Qed.

Lemma get_translation_stats_spec_witness :
  allow_listed "kjv" = true
  ∧ files Examples.world !! translation_file "kjv" = Some (FFile Examples.kjv_db)
  ∧ books_of Examples.kjv_db (upper "kjv" +:+ "_books")
    = Rows [mkBookRow 2 "Exodus"; mkBookRow 1 "Genesis"]
  ∧ verses_of Examples.kjv_db (upper "kjv" +:+ "_verses") = Rows Examples.kjv_verses
  ∧ ∃ stats,
      outcome_of (get_translation_stats Examples.world "kjv") = Returned stats
      ∧ books_count stats = 2%Z ∧ verses_count stats = 7%Z
      ∧ (chapters_count stats ≤ 3)%Z.
Proof.
  split; [reflexivity|].
  split; [reflexivity|]. split; [reflexivity|]. split; [reflexivity|].
  destruct (get_translation_stats_spec Examples.world "kjv" Examples.kjv_db
              [mkBookRow 2 "Exodus"; mkBookRow 1 "Genesis"] Examples.kjv_verses
              eq_refl eq_refl eq_refl eq_refl)
    as (stats & Hout & Hbooks & Hverses & _ & _ & _ & Hlargest).
  exists stats. split; [exact Hout|]. split; [exact Hbooks|]. split; [exact Hverses|].
  apply (Hlargest 3%Z). repeat constructor; cbn; lia.
Defined.




(** ** Books *)

(** X6.  On a resolved dataset whose books relation is readable, for an
    identifier of letters, digits and underscores,
    get_books_for_translation returns every book of the relation exactly
    once, in ascending order of id; a relation without rows gives the empty
    list, not an error. *)
Theorem get_books_for_translation_spec (w : World) (translation_id : string)
    (db : Database) (books : list BookRow) :
  allow_listed translation_id = true →
  files w !! translation_file translation_id = Some (FFile db) →
  books_of db (upper translation_id +:+ "_books") = Rows books →
  ∃ result,
    outcome_of (get_books_for_translation w translation_id) = Returned result
    ∧ result ≡ₚ map (λ row, mkBook (b_id row) (b_name row)) books
    ∧ StronglySorted (λ a b, (id a ≤ id b)%Z) result
    ∧ (books = [] → result = []).
Proof.
  intros _ Hf Hbooks. eexists. split.
  { unfold outcome_of. rewrite (get_books_for_translation_run _ _ _ Hf), Hbooks.
    reflexivity. }
  split; [|split].
  - apply Permutation_map, order_by_Permutation.
  - assert (Hs : StronglySorted by_id (order_by by_id books))
      by (apply order_by_StronglySorted; apply _).
    induction Hs as [|row rows Hrows IH Hrow]; cbn [map]; constructor; [exact IH|].
    apply Forall_forall. intros b Hb.
    apply list_elem_of_In, in_map_iff in Hb as (row' & <- & Hin).
    rewrite Forall_forall in Hrow. apply Hrow, list_elem_of_In, Hin.
  - now intros ->.
Qed.

Lemma get_books_for_translation_spec_witness :
  allow_listed "kjv" = true
  ∧ files Examples.world !! translation_file "kjv" = Some (FFile Examples.kjv_db)
  ∧ books_of Examples.kjv_db (upper "kjv" +:+ "_books")
    = Rows [mkBookRow 2 "Exodus"; mkBookRow 1 "Genesis"]
  ∧ ∃ result,
      outcome_of (get_books_for_translation Examples.world "kjv") = Returned result
      ∧ length result = 2
      ∧ StronglySorted (λ a b, (id a ≤ id b)%Z) result.
Proof.
  split; [reflexivity|]. split; [reflexivity|]. split; [reflexivity|].
  destruct (get_books_for_translation_spec Examples.world "kjv" Examples.kjv_db
              [mkBookRow 2 "Exodus"; mkBookRow 1 "Genesis"] eq_refl eq_refl eq_refl)
    as (result & Hout & Hperm & Hsorted & _).
  exists result. split; [exact Hout|]. split; [|exact Hsorted].
  now rewrite Hperm.
Defined.

(** ** Connections *)

Lemma quiet_ret {A} (a : A) : quiet (mret a).
Proof. intros tr. exists []. split; [symmetry; apply app_nil_r|constructor]. Qed.

Lemma quiet_raise {A} (e : PyExc) : quiet (@raise A e).
Proof. intros tr. exists []. split; [symmetry; apply app_nil_r|constructor]. Qed.

Lemma quiet_bind {A B} (m : Py A) (f : A → Py B) :
  quiet m → (∀ a, quiet (f a)) → quiet (m ≫= f).
Proof.
  intros Hm Hf tr. destruct (Hm tr) as (evs & Htr & Hevs). rewrite run_bind.
  destruct (m tr) as [tr1 [a|e]]; cbn [fst] in Htr; subst tr1.
  - destruct (Hf a (tr ++ evs)) as (evs' & Htr' & Hevs').
    exists (evs ++ evs'). split; [now rewrite Htr', app_assoc|now apply Forall_app].
  - now exists evs.
Qed.

Lemma quiet_execute_with {A} (conn : Connection) (sql : string) (params : list SqlParam)
    (meaning : Database → QueryResult A) (failure : Database → option string) :
  quiet (execute_with conn sql params meaning failure).
Proof.
  intros tr. rewrite execute_with_run. eexists. split; [reflexivity|].
  repeat constructor.
Qed.

Lemma quiet_execute {A} (conn : Connection) (sql : string) (params : list SqlParam)
    (meaning : Database → QueryResult A) :
  quiet (execute conn sql params meaning).
Proof. apply quiet_execute_with. Qed.

Lemma quiet_execute_count {A} (conn : Connection) (sql : string)
    (meaning : Database → QueryResult A) (count : list A → Z) :
  quiet (execute_count conn sql meaning count).
Proof.
  intros tr. rewrite execute_count_run. eexists. split; [reflexivity|].
  repeat constructor.
Qed.

Lemma quiet_try_except_sqlite {A} (body : Py A) (handler : string → Py A) :
  quiet body → (∀ msg, quiet (handler msg)) → quiet (try_except_sqlite body handler).
Proof.
  intros Hbody Hh tr. destruct (Hbody tr) as (evs & Htr & Hevs).
  unfold try_except_sqlite.
  destruct (body tr) as [tr1 [a|[sc d|msg|msg|msg|msg]]]; cbn [fst] in Htr; subst tr1;
    try (now exists evs).
  destruct (Hh msg (tr ++ evs)) as (evs' & Htr' & Hevs').
  exists (evs ++ evs'). split; [now rewrite Htr', app_assoc|now apply Forall_app].
Qed.

Lemma quiet_foldl (open : list string) (evs : list Event) :
  Forall (λ ev, ∀ open, track open ev = open) evs → foldl track open evs = open.
Proof.
  intros Hevs. revert open. induction Hevs as [|ev evs Hev _ IH]; intros open.
  - reflexivity.
  - cbn [foldl]. now rewrite Hev.
Qed.

(* conn = get_db_connection(...); try: body finally: conn.close() *)
Lemma releases_scoped {A} (w : World) (db_path : string) (body : Connection → Py A) :
  (∀ conn, quiet (body conn)) →
  releases (conn ← get_db_connection w db_path; try_finally (body conn) (close conn)).
Proof.
  intros Hbody tr. rewrite run_bind, get_db_connection_run.
  destruct (files w !! db_path) as [[|db]|];
    try (exists []; split; [symmetry; apply app_nil_r|reflexivity]).
  unfold try_finally, close, emit.
  destruct (Hbody (mkConnection db_path db) (tr ++ [EConnect db_path]))
    as (evs & Htr & Hevs).
  destruct (body _ _) as [tr1 r]; cbn [fst] in Htr; subst tr1. cbn [conn_path fst].
  exists ([EConnect db_path] ++ evs ++ [EClose db_path]). split.
  - now rewrite <- !app_assoc.
  - rewrite !foldl_app. cbn [foldl track].
    rewrite (quiet_foldl _ _ Hevs). cbn [close_one].
    now rewrite decide_True by reflexivity.
Qed.

Lemma releases_bind {A B} (m : Py A) (f : A → Py B) :
  releases m → (∀ a, releases (f a)) → releases (m ≫= f).
Proof.
  intros Hm Hf tr. destruct (Hm tr) as (evs & Htr & Hevs). rewrite run_bind.
  destruct (m tr) as [tr1 [a|e]]; cbn [fst] in Htr; subst tr1.
  - destruct (Hf a (tr ++ evs)) as (evs' & Htr' & Hevs').
    exists (evs ++ evs'). split; [now rewrite Htr', app_assoc|].
    now rewrite foldl_app, Hevs.
  - now exists evs.
Qed.

Lemma releases_quiet {A} (m : Py A) : quiet m → releases m.
Proof.
  intros Hm tr. destruct (Hm tr) as (evs & Htr & Hevs).
  exists evs. split; [exact Htr|]. now apply quiet_foldl.
Qed.

Lemma releases_still_open {A} (m : Py A) : releases m → still_open (trace_of m) = [].
Proof.
  intros Hm. destruct (Hm []) as (evs & Htr & Hevs).
  unfold still_open, trace_of, run. now rewrite Htr.
Qed.

Ltac quiet_body :=
  repeat first
    [ apply quiet_execute
    | apply quiet_execute_with
    | apply quiet_execute_count
    | apply quiet_try_except_sqlite; [|intros ?]
    | apply quiet_bind; [|intros ?]
    | apply quiet_ret
    | apply quiet_raise
    | match goal with
      | |- quiet (match ?x with _ => _ end) => destruct x
      | |- quiet (if ?x then _ else _) => destruct x
      | |- quiet (let _ := _ in _) => cbv zeta
      end ].

Lemma compare_side_releases (w : World) (t : string) (book chapter : Z)
    (verse : option Z) (result : gmap string CompareValue) :
  releases (compare_side w t book chapter verse result).
Proof. apply releases_scoped. intros conn. quiet_body. Qed.

Lemma scan_file_releases (w : World) (filename : string) (conn : option Connection)
    (translations_list : list Translation) :
  ∀ tr, ∃ evs,
    (scan_file w filename conn translations_list tr).1 = tr ++ evs
    ∧ foldl track [] evs = [].
Proof.
  intros tr. unfold scan_file.
  destruct (endswith filename ".db");
    [|exists []; split; [symmetry; apply app_nil_r|reflexivity]].
  cbv zeta. rewrite run_bind. unfold try_except at 1.
  rewrite run_bind, get_db_connection_run.
  destruct (files w !! path_join BASE_DB_PATH filename) as [[|db]|].
  - destruct conn as [c|]; eexists;
      (split;
       [ cbv [mbind Py_bind py_bind emit close mret Py_ret py_ret fst];
         rewrite <- ?app_assoc; reflexivity
       | reflexivity ]).
  - cbv [mret Py_ret py_ret]. rewrite run_bind. unfold try_except.
    rewrite run_bind, execute_run by reflexivity. cbn [conn_db conn_path].
    destruct (translations db) as [[|row rows]|msg]; cbn [qmap take head];
      try unfold Translation_of_row;
      try destruct (cat_translation row) as [t|], (cat_title row) as [ti|];
      eexists;
      (split;
       [ cbv [mbind Py_bind py_bind emit close mret Py_ret py_ret raise conn_path fst];
         rewrite <- ?app_assoc; reflexivity
       | cbn [foldl track close_one app]; now rewrite decide_True by reflexivity ]).
  - destruct conn as [c|]; eexists;
      (split;
       [ cbv [mbind Py_bind py_bind emit close mret Py_ret py_ret fst];
         rewrite <- ?app_assoc; reflexivity
       | reflexivity ]).
Qed.

Lemma scan_files_releases (w : World) (filenames : list string) (conn : option Connection)
    (translations_list : list Translation) :
  releases (scan_files w filenames conn translations_list).
Proof.
  revert conn translations_list.
  induction filenames as [|filename rest IH]; intros conn translations_list.
  - apply releases_quiet, quiet_ret.
  - cbn [scan_files]. apply releases_bind; [intros tr; apply scan_file_releases|].
    intros st. apply IH.
Qed.

(** X7.  No handler leaves a connection open: whatever the request and
    whatever happens on the way (missing dataset, engine error, nothing
    found), every connection opened during the call has been closed when the
    call ends. *)
Theorem handlers_release_connections (w : World) (t t' query : string)
    (book chapter verse_number start_chapter start_verse end_chapter end_verse : Z)
    (scope verse : option Z) :
  still_open (trace_of (get_all_translations w)) = []
  ∧ still_open (trace_of (get_books_for_translation w t)) = []
  ∧ still_open (trace_of (get_chapter_counts w t book)) = []
  ∧ still_open (trace_of (get_verses_in_chapter w t book chapter)) = []
  ∧ still_open (trace_of (get_single_verse w t book chapter verse_number)) = []
  ∧ still_open (trace_of (search_verses w t query scope)) = []
  ∧ still_open (trace_of (get_passage w t book start_chapter start_verse
                            end_chapter end_verse)) = []
  ∧ still_open (trace_of (get_cross_references w t book chapter verse_number)) = []
  ∧ still_open (trace_of (get_translation_stats w t)) = []
  ∧ still_open (trace_of (compare_translations w t t' book chapter verse)) = [].
Proof.
  repeat split; apply releases_still_open.
  - unfold get_all_translations. apply releases_bind; [apply scan_files_releases|].
    intros l. apply releases_quiet. destruct l; [apply quiet_raise|apply quiet_ret].
  - apply releases_scoped. intros conn. quiet_body.
  - apply releases_scoped. intros conn. quiet_body.
  - apply releases_scoped. intros conn. quiet_body.
  - apply releases_scoped. intros conn. quiet_body.
  - apply releases_scoped. intros conn. quiet_body.
  - apply releases_scoped. intros conn. quiet_body.
  - apply releases_scoped. intros conn. quiet_body.
  - apply releases_scoped. intros conn. quiet_body.
  - unfold compare_translations. cbn [compare_loop].
    apply releases_bind; [apply compare_side_releases|]. intros r1.
    apply releases_bind; [apply compare_side_releases|]. intros r2.
    apply releases_quiet, quiet_ret.
Qed.

(** ** Identifiers *)

(** X8.  The translation-scoped handlers read the identifier in upper case
    only: two identifiers that are the same in upper case (such as "kjv" and
    "KJV") give the same computation, statement for statement and result for
    result. *)
Theorem handlers_ignore_case (w : World) (t t' other query : string)
    (book chapter verse_number start_chapter start_verse end_chapter end_verse : Z)
    (scope verse : option Z) :
  upper t = upper t' →
  get_books_for_translation w t = get_books_for_translation w t'
  ∧ get_chapter_counts w t book = get_chapter_counts w t' book
  ∧ get_verses_in_chapter w t book chapter = get_verses_in_chapter w t' book chapter
  ∧ get_single_verse w t book chapter verse_number
    = get_single_verse w t' book chapter verse_number
  ∧ search_verses w t query scope = search_verses w t' query scope
  ∧ get_passage w t book start_chapter start_verse end_chapter end_verse
    = get_passage w t' book start_chapter start_verse end_chapter end_verse
  ∧ get_translation_stats w t = get_translation_stats w t'
  ∧ compare_translations w t other book chapter verse
    = compare_translations w t' other book chapter verse
  ∧ compare_translations w other t book chapter verse
    = compare_translations w other t' book chapter verse.
Proof.
  intros Hupper.
  unfold get_books_for_translation, get_chapter_counts, get_verses_in_chapter,
    get_single_verse, search_verses, get_passage, get_translation_stats,
    compare_translations, compare_loop, compare_side, get_translation_db.
  rewrite Hupper. repeat split.
Qed.

Lemma handlers_ignore_case_witness :
  upper "Kjv" = upper "KJV"
  ∧ get_passage Examples.world "Kjv" 1 1 2 2 1 = get_passage Examples.world "KJV" 1 1 2 2 1.
Proof.
  split; [reflexivity|].
  destruct (handlers_ignore_case Examples.world "Kjv" "KJV" "asv" "light"
              1 1 1 1 2 2 1 None None eq_refl)
    as (_ & _ & _ & _ & _ & Hpassage & _).
  exact Hpassage.
Defined.

Lemma upper_ascii_slash (c : ascii) : upper_ascii c = "/"%char ↔ c = "/"%char.
Proof. destruct c as [[] [] [] [] [] [] [] []]; split; (reflexivity || discriminate). Qed.

Lemma prefix_slash_upper (s suffix : string) :
  String.prefix "/" (upper s +:+ suffix) = String.prefix "/" (s +:+ suffix).
Proof.
  destruct s as [|c s]; [reflexivity|].
  change (upper (String c s) +:+ suffix) with (String (upper_ascii c) (upper s +:+ suffix)).
  change (String c s +:+ suffix) with (String c (s +:+ suffix)).
  cbn [String.prefix].
  destruct (ascii_dec "/" (upper_ascii c)) as [Hu|Hu], (ascii_dec "/" c) as [Hc|Hc];
    try reflexivity.
  - now destruct (upper s +:+ suffix), (s +:+ suffix).
  - symmetry in Hu. apply (proj1 (upper_ascii_slash c)) in Hu. congruence.
  - subst c. destruct Hu. reflexivity.
Qed.

(** X9.  The dataset file of an identifier is <ID in upper case>.db in the
    base directory, unless the identifier starts with "/": then the base
    directory is dropped and the file is looked up at the absolute path
    <ID in upper case>.db. *)
Theorem translation_file_shape (translation_id : string) :
  (String.prefix "/" translation_id = false →
     translation_file translation_id
     = "bible_databases/formats/sqlite/" +:+ upper translation_id +:+ ".db")
  ∧ (String.prefix "/" translation_id = true →
       translation_file translation_id = upper translation_id +:+ ".db").
Proof.
  assert (Hprefix : String.prefix "/" (upper translation_id +:+ ".db")
                    = String.prefix "/" translation_id).
  { rewrite prefix_slash_upper. destruct translation_id as [|c s]; [reflexivity|].
    change (String c s +:+ ".db") with (String c (s +:+ ".db")). cbn [String.prefix].
    destruct (ascii_dec "/" c); [|reflexivity].
    now destruct (s +:+ ".db"), s. }
  unfold translation_file, path_join. rewrite Hprefix.
  split; intros ->; reflexivity.
Qed.

Lemma translation_file_shape_witness :
  String.prefix "/" "/tmp/other" = true
  ∧ translation_file "/tmp/other" = "/TMP/OTHER.db".
Proof.
  split; [reflexivity|].
  exact (proj2 (translation_file_shape "/tmp/other") eq_refl).
Defined.

(** ** Reading the annotation store *)

Lemma filter_by_book_parsed (book : Z) (l : list AnnotationDict) :
  Forall (λ a, ∃ b, a_book a = str b) l →
  filter_by_book book l = Returned (filter (λ a, a_book a = str book) l).
Proof.
  induction 1 as [|a l [b Hb] Hl IH]; [reflexivity|].
  cbn [filter_by_book]. rewrite Hb, int_str, IH, filter_cons, Hb.
  destruct (decide (b = book)) as [->|Hne].
  - now rewrite decide_True.
  - rewrite decide_False; [reflexivity|]. intros Heq. now apply str_inj in Heq.
Qed.

Lemma optional_filter {A B} (P : B → A → Prop) (Hdec : ∀ b a, Decision (P b a))
    (o : option B) (l : list A) :
  let l' := match o with Some b => filter (P b) l | None => l end in
  l' `sublist_of` l ∧ ∀ a, a ∈ l' ↔ a ∈ l ∧ (∀ b, o = Some b → P b a).
Proof.
  destruct o as [b|]; cbn.
  - split; [apply sublist_filter|]. intros a. rewrite list_elem_of_filter. split.
    + intros [HP Ha]. split; [exact Ha|]. now intros b' [= <-].
    + intros [Ha HP]. split; [now apply HP|exact Ha].
  - split; [reflexivity|]. intros a. split; [|tauto].
    intros Ha. split; [exact Ha|]. discriminate.
Qed.

(* Every stored annotation has the decimal text of a number as its book *)
Lemma serve_from_parsed (rqs : list AnnotationRequest) (g : Globals) :
  Forall (λ a, ∃ b, a_book a = str b) (ANNOTATIONS g) →
  Forall (λ a, ∃ b, a_book a = str b) (ANNOTATIONS (serve_from g rqs).2).
Proof.
  revert g. induction rqs as [|rq rqs IH]; intros g Hg; [exact Hg|].
  cbn [serve_from]. destruct (handle g rq) as [resp g1] eqn:Hh.
  specialize (IH g1). destruct (serve_from g1 rqs) as [resps g2]. cbn [snd] in *.
  apply IH. clear IH.
  destruct rq as [translation book chapter verse note|translation book chapter verse];
    cbn in Hh; injection Hh as <- <-; [|exact Hg].
  cbn [ANNOTATIONS]. apply Forall_app. split; [exact Hg|].
  constructor; [|constructor]. now exists book.
Qed.

Lemma get_annotations_parsed (translation : option string) (book chapter verse : option Z)
    (g : Globals) :
  Forall (λ a, ∃ b, a_book a = str b) (ANNOTATIONS g) →
  ∃ result,
    get_annotations translation book chapter verse g = Returned result
    ∧ result `sublist_of` ANNOTATIONS g
    ∧ ∀ a, a ∈ result ↔
        a ∈ ANNOTATIONS g
        ∧ (∀ t, translation = Some t → t ≠ EmptyString → a_translation a = upper t)
        ∧ (∀ b, book = Some b → a_book a = str b)
        ∧ (∀ c, chapter = Some c → a_chapter a = c)
        ∧ (∀ v, verse = Some v → a_verse a = v).
Proof.
  intros Hparsed. unfold get_annotations.
  set (l1 := match translation with
             | Some t => if decide (t = EmptyString) then ANNOTATIONS g
                         else filter (λ a, a_translation a = upper t) (ANNOTATIONS g)
             | None => ANNOTATIONS g
             end).
  assert (H1 : l1 `sublist_of` ANNOTATIONS g
               ∧ ∀ a, a ∈ l1 ↔
                   a ∈ ANNOTATIONS g
                   ∧ (∀ t, translation = Some t → t ≠ EmptyString →
                           a_translation a = upper t)).
  { unfold l1. destruct translation as [t|];
      [destruct (decide (t = EmptyString)) as [->|Hne]|].
    - split; [reflexivity|]. intros a. split; [|tauto].
      intros Ha. split; [exact Ha|]. intros t [= <-] Hne. now destruct Hne.
    - split; [apply sublist_filter|]. intros a. rewrite list_elem_of_filter. split.
      + intros [Ht Ha]. split; [exact Ha|]. now intros t' [= <-] _.
      + intros [Ha Ht]. split; [now apply Ht|exact Ha].
    - split; [reflexivity|]. intros a. split; [|tauto].
      intros Ha. split; [exact Ha|]. discriminate. }
  clearbody l1. destruct H1 as [Hsub1 Hin1].
  assert (Hparsed1 : Forall (λ a, ∃ b, a_book a = str b) l1).
  { apply Forall_forall. intros a Ha. rewrite Forall_forall in Hparsed.
    apply Hparsed. eapply elem_of_sublist; eassumption. }
  destruct (optional_filter (λ b a, a_book a = str b) (λ b a, decide _) book l1)
    as [Hsub2 Hin2].
  cbv beta in Hsub2, Hin2.
  set (l2 := match book with Some b => _ | None => _ end) in Hsub2, Hin2.
  assert (Hbook : match book with
                  | Some b => filter_by_book b l1
                  | None => Returned l1
                  end = Returned l2).
  { unfold l2. destruct book as [b|]; [now apply filter_by_book_parsed|reflexivity]. }
  rewrite Hbook. clearbody l2.
  destruct (optional_filter (λ c a, a_chapter a = c) (λ c a, decide _) chapter l2)
    as [Hsub3 Hin3].
  set (l3 := match chapter with
             | Some c => filter (λ a, a_chapter a = c) l2
             | None => l2
             end) in *.
  clearbody l3.
  destruct (optional_filter (λ v a, a_verse a = v) (λ v a, decide _) verse l3)
    as [Hsub4 Hin4].
  eexists. split; [reflexivity|]. split.
  - etransitivity; [exact Hsub4|]. etransitivity; [exact Hsub3|].
    etransitivity; [exact Hsub2|exact Hsub1].
  - intros a. rewrite Hin4, Hin3, Hin2, Hin1. tauto.
Qed.

(** X10.  On every store the process can reach, get_annotations never
    raises: it returns, in the order of the store, exactly the annotations
    that pass every filter given: translation compared in upper case (an
    empty translation filters nothing), book compared with the decimal text
    stored for the annotation, chapter and verse compared as numbers (0
    included). *)
Theorem get_annotations_filters (rqs : list AnnotationRequest)
    (translation : option string) (book chapter verse : option Z) :
  let g := (serve rqs).2 in
  ∃ result,
    get_annotations translation book chapter verse g = Returned result
    ∧ result `sublist_of` ANNOTATIONS g
    ∧ ∀ a, a ∈ result ↔
        a ∈ ANNOTATIONS g
        ∧ (∀ t, translation = Some t → t ≠ EmptyString → a_translation a = upper t)
        ∧ (∀ b, book = Some b → a_book a = str b)
        ∧ (∀ c, chapter = Some c → a_chapter a = c)
        ∧ (∀ v, verse = Some v → a_verse a = v).
Proof.
  intros g. apply get_annotations_parsed.
  apply (serve_from_parsed rqs initial_globals). constructor.
Qed.

Lemma filter_snoc_True {A} (P : A → Prop) `{!∀ x, Decision (P x)} (l : list A) (a : A) :
  P a → filter P (l ++ [a]) = filter P l ++ [a].
Proof. intros Ha. now rewrite filter_app, filter_cons, decide_True. Qed.

(** X11.  An annotation can be read back with the coordinates it was posted
    with: after add_annotation on a reachable store, get_annotations with the
    same translation, book, chapter and verse returns a list that ends with
    the annotation just created. *)
Theorem annotation_read_back (rqs : list AnnotationRequest)
    (translation : string) (book chapter verse : Z) (note : string) :
  let (a, g') := add_annotation translation book chapter verse note (serve rqs).2 in
  ∃ result,
    get_annotations (Some translation) (Some book) (Some chapter) (Some verse) g'
    = Returned result
    ∧ last result = Some a.
Proof.
  pose proof (serve_from_parsed rqs initial_globals ltac:(constructor)) as Hparsed.
  fold (serve rqs) in Hparsed.
  set (g := (serve rqs).2) in *. unfold add_annotation.
  set (a := mkAnnotation _ _ _ _ _ _).
  unfold get_annotations. cbn [ANNOTATIONS].
  set (l1 := if decide (translation = EmptyString) then ANNOTATIONS g ++ [a]
             else filter (λ x, a_translation x = upper translation) (ANNOTATIONS g ++ [a])).
  assert (H1 : ∃ l, l1 = l ++ [a] ∧ Forall (λ x, ∃ b, a_book x = str b) l).
  { unfold l1. destruct (decide (translation = EmptyString)).
    - now exists (ANNOTATIONS g).
    - eexists. split.
      + rewrite filter_app, filter_cons, decide_True by reflexivity. reflexivity.
      + apply Forall_forall. intros x Hx. apply list_elem_of_filter in Hx as [_ Hx].
        rewrite Forall_forall in Hparsed. now apply Hparsed. }
  clearbody l1. destruct H1 as (l & -> & Hl).
  rewrite filter_by_book_parsed
    by (apply Forall_app; split; [exact Hl|repeat constructor; now exists book]).
  eexists. split; [reflexivity|].
  rewrite !filter_snoc_True by reflexivity.
  apply last_snoc.
Qed.

Lemma upper_empty (s : string) : upper s = EmptyString ↔ s = EmptyString.
Proof. destruct s; split; (reflexivity || discriminate). Qed.

(** X12.  The annotation store does not distinguish the case of the
    translation: two identifiers that are the same in upper case create the
    same annotation and select the same annotations. *)
Theorem annotations_ignore_case (t t' : string) (book chapter verse : Z) (note : string)
    (book_filter chapter_filter verse_filter : option Z) (g : Globals) :
  upper t = upper t' →
  add_annotation t book chapter verse note g = add_annotation t' book chapter verse note g
  ∧ get_annotations (Some t) book_filter chapter_filter verse_filter g
    = get_annotations (Some t') book_filter chapter_filter verse_filter g.
Proof.
  intros Hupper. unfold add_annotation, get_annotations. rewrite Hupper.
  split; [reflexivity|].
  destruct (decide (t = EmptyString)) as [Ht|Ht], (decide (t' = EmptyString)) as [Ht'|Ht'];
    try reflexivity.
  - destruct Ht'. apply upper_empty. rewrite <- Hupper. now apply upper_empty.
  - destruct Ht. apply upper_empty. rewrite Hupper. now apply upper_empty.
Qed.

Lemma annotations_ignore_case_witness :
  upper "kjv" = upper "KJV"
  ∧ get_annotations (Some "kjv") None None None
      (serve [PostAnnotation "Kjv" 1 1 1 "note"; PostAnnotation "asv" 1 1 1 "other"]).2
    = get_annotations (Some "KJV") None None None
        (serve [PostAnnotation "Kjv" 1 1 1 "note"; PostAnnotation "asv" 1 1 1 "other"]).2.
Proof.
  split; [reflexivity|].
  exact (proj2 (annotations_ignore_case "kjv" "KJV" 0 0 0 EmptyString None None None
                  _ eq_refl)).
Defined.

(** ** Passages and chapters *)

Section OrderByFilter.
Context {A : Type} (R : relation A) `{!RelDecision R, !Total R, !Transitive R}.
Context (P : A → Prop) `{!∀ x, Decision (P x)}.

Lemma insert_by_head (x : A) (l : list A) : Forall (R x) l → insert_by R x l = x :: l.
Proof.
  destruct 1 as [|y l Hy _]; [reflexivity|]. cbn. now rewrite decide_True.
Qed.

Lemma filter_insert_by (x : A) (l : list A) :
  StronglySorted R l →
  filter P (insert_by R x l)
  = if decide (P x) then insert_by R x (filter P l) else filter P l.
Proof.
  induction 1 as [|y l Hl IH Hy]; cbn [insert_by].
  - rewrite filter_cons, filter_nil. now destruct (decide (P x)).
  - destruct (decide (R x y)) as [Hxy|Hxy].
    + rewrite filter_cons. destruct (decide (P x)) as [Hx|Hx]; [|reflexivity].
      rewrite insert_by_head; [reflexivity|].
      apply Forall_forall. intros z Hz. apply list_elem_of_filter in Hz as [_ Hz].
      apply elem_of_cons in Hz as [->|Hz]; [exact Hxy|].
      rewrite Forall_forall in Hy. transitivity y; [exact Hxy|now apply Hy].
    + rewrite filter_cons, IH, (filter_cons P y).
      destruct (decide (P x)) as [Hx|Hx], (decide (P y)) as [HPy|HPy]; try reflexivity.
      cbn [insert_by]. now rewrite decide_False.
Qed.

(* Selecting rows of a sorted result is sorting the selected rows *)
Lemma filter_order_by (l : list A) : filter P (order_by R l) = order_by R (filter P l).
Proof.
  induction l as [|x l IH]; [reflexivity|]. cbn [order_by].
  rewrite filter_insert_by by now apply order_by_StronglySorted.
  rewrite filter_cons, IH. now destruct (decide (P x)).
Qed.
End OrderByFilter.

Lemma filter_map_comm {A B} (f : A → B) (Q : B → Prop) `{!∀ y, Decision (Q y)}
    (l : list A) :
  filter Q (map f l) = map f (filter (λ x, Q (f x)) l).
Proof.
  induction l as [|x l IH]; [reflexivity|]. cbn [map].
  rewrite !filter_cons, IH. now destruct (decide (Q (f x))).
Qed.

Lemma get_verses_in_chapter_resolved (w : World) (translation_id : string)
    (book_id chapter : Z) (verses : list Verse) :
  outcome_of (get_verses_in_chapter w translation_id book_id chapter) = Returned verses →
  ∃ db tbl,
    files w !! translation_file translation_id = Some (FFile db)
    ∧ verses_of db (upper translation_id +:+ "_verses") = Rows tbl
    ∧ forallb sqlite_int [book_id; chapter] = true
    ∧ verses = map verse_of_row
                 (order_by by_verse
                    (filter (λ r, r_book_id r = book_id ∧ r_chapter r = chapter) tbl)).
Proof.
  intros Hout.
  destruct (files w !! translation_file translation_id) as [[|db]|] eqn:Hf;
    try (destruct (get_translation_db_fails w translation_id) as [e He];
         [intros db'; rewrite Hf; discriminate|];
         unfold outcome_of, run, get_verses_in_chapter in Hout;
         rewrite run_bind, He in Hout; discriminate).
  exists db.
  destruct (verses_of db (upper translation_id +:+ "_verses")) as [tbl|msg] eqn:Htbl.
  - exists tbl. rewrite (get_verses_in_chapter_outcome _ _ _ _ _ _ Hf Htbl) in Hout.
    destruct (forallb sqlite_int _); [|discriminate].
    destruct (order_by by_verse _); [discriminate|]. injection Hout as <-. auto.
  - unfold outcome_of, run, get_verses_in_chapter in Hout.
    rewrite run_bind, (get_translation_db_open _ _ _ _ Hf) in Hout.
    unfold try_finally, try_except_sqlite in Hout.
    rewrite run_bind, execute_run_any in Hout. cbn [conn_db conn_path] in Hout.
    rewrite Htbl in Hout. discriminate.
Qed.

(* Verses made from rows sorted by verse number are sorted by verse number *)
Lemma verses_sorted (rows : list VerseRow) :
  StronglySorted by_verse rows →
  StronglySorted (λ a b, (verse a ≤ verse b)%Z) (map verse_of_row rows).
Proof.
  induction 1 as [|row rows Hrows IH Hrow]; cbn [map]; constructor; [exact IH|].
  apply Forall_forall. intros v Hv.
  apply list_elem_of_In, in_map_iff in Hv as (row' & <- & Hin).
  rewrite Forall_forall in Hrow. apply Hrow, list_elem_of_In, Hin.
Qed.

(** X13.  A passage within one chapter is the chapter cut to the verse
    range: for an identifier of letters, digits and underscores and verse
    bounds in the 64-bit range, when get_verses_in_chapter returns the verses
    of a chapter, get_passage from start_verse to end_verse of that chapter
    returns those of them whose number is in [start_verse, end_verse], each
    once and in ascending order of verse number, and raises the 404 "Passage
    not found" when there is none. *)
Theorem passage_in_chapter_cuts_chapter (w : World) (translation_id : string)
    (book_id chapter start_verse end_verse : Z) (verses : list Verse) :
  allow_listed translation_id = true →
  forallb sqlite_int [start_verse; end_verse] = true →
  outcome_of (get_verses_in_chapter w translation_id book_id chapter) = Returned verses →
  let call := get_passage w translation_id book_id chapter start_verse chapter end_verse in
  match filter (λ v, (start_verse ≤ verse v ≤ end_verse)%Z) verses with
  | [] => outcome_of call = Raised (HTTPException 404 "Passage not found")
  | selected =>
      ∃ result, outcome_of call = Returned result
                ∧ result ≡ₚ selected
                ∧ StronglySorted (λ a b, (verse a ≤ verse b)%Z) result
  end.
Proof.
  intros _ Hverses Hout call.
  apply get_verses_in_chapter_resolved in Hout as (db & tbl & Hf & Htbl & Hints & ->).
  assert (Hbound : forallb sqlite_int [book_id; chapter; start_verse; chapter; end_verse]
                   = true) by bound.
  unfold call. rewrite (get_passage_outcome _ _ _ _ _ _ _ _ _ Hf Htbl Hbound).
  rewrite decide_True by reflexivity.
  rewrite filter_map_comm. cbn [verse_of_row verse].
  rewrite (filter_order_by by_verse), list_filter_filter.
  rewrite (list_filter_iff (in_one_chapter book_id chapter start_verse end_verse)
             (λ r, (start_verse ≤ r_verse r ≤ end_verse)%Z
                   ∧ r_book_id r = book_id ∧ r_chapter r = chapter))
    by (intros r; unfold in_one_chapter; tauto).
  set (sel := filter _ tbl).
  assert (Hsorted : StronglySorted (λ a b, (verse a ≤ verse b)%Z)
                      (map verse_of_row (order_by by_verse sel)))
    by (apply verses_sorted, order_by_StronglySorted; apply _).
  destruct (order_by by_verse sel) as [|row rows]; [reflexivity|].
  eexists. split; [reflexivity|]. split; [reflexivity|exact Hsorted].
Qed.

Lemma passage_in_chapter_cuts_chapter_witness :
  allow_listed "kjv" = true
  ∧ forallb sqlite_int [2; 3]%Z = true
  ∧ ∃ verses result,
      outcome_of (get_verses_in_chapter Examples.world "kjv" 1 1) = Returned verses
      ∧ outcome_of (get_passage Examples.world "kjv" 1 1 2 1 3) = Returned result
      ∧ result ≡ₚ filter (λ v, (2 ≤ verse v ≤ 3)%Z) verses.
Proof.
  split; [reflexivity|]. split; [reflexivity|].
  pose proof (passage_in_chapter_cuts_chapter Examples.world "kjv" 1 1 2 3 _
                eq_refl eq_refl eq_refl) as Hcut.
  destruct Hcut as (result & Hout & Hperm & _).
  eexists _, result. split; [reflexivity|]. split; [exact Hout|exact Hperm].
Defined.

(** X14.  A passage within one chapter whose start verse is after its end
    verse is never found: on a resolved dataset with a readable verses
    relation, for an identifier of letters, digits and underscores and
    numbers in the 64-bit range, the handler raises the 404 "Passage not
    found". *)
Theorem passage_empty_range (w : World) (translation_id : string)
    (book_id chapter start_verse end_verse : Z) (db : Database) (tbl : list VerseRow) :
  allow_listed translation_id = true →
  forallb sqlite_int [book_id; chapter; start_verse; end_verse] = true →
  files w !! translation_file translation_id = Some (FFile db) →
  verses_of db (upper translation_id +:+ "_verses") = Rows tbl →
  (end_verse < start_verse)%Z →
  outcome_of (get_passage w translation_id book_id chapter start_verse chapter end_verse)
  = Raised (HTTPException 404 "Passage not found").
Proof.
  intros _ Hints Hf Htbl Hrange.
  assert (Hbound : forallb sqlite_int [book_id; chapter; start_verse; chapter; end_verse]
                   = true) by bound.
  rewrite (get_passage_outcome _ _ _ _ _ _ _ _ _ Hf Htbl Hbound).
  rewrite decide_True by reflexivity.
  rewrite filter_none; [reflexivity|].
  apply Forall_forall. intros r _. unfold in_one_chapter. lia.
Qed.

Lemma passage_empty_range_witness :
  allow_listed "kjv" = true
  ∧ forallb sqlite_int [1; 1; 3; 1]%Z = true
  ∧ files Examples.world !! translation_file "kjv" = Some (FFile Examples.kjv_db)
  ∧ verses_of Examples.kjv_db (upper "kjv" +:+ "_verses") = Rows Examples.kjv_verses
  ∧ (1 < 3)%Z
  ∧ outcome_of (get_passage Examples.world "kjv" 1 1 3 1 1)
    = Raised (HTTPException 404 "Passage not found").
Proof.
  split; [reflexivity|]. split; [reflexivity|].
  split; [reflexivity|]. split; [reflexivity|]. split; [lia|].
  apply (passage_empty_range Examples.world "kjv" 1 1 3 1
           Examples.kjv_db Examples.kjv_verses eq_refl eq_refl eq_refl eq_refl). lia.
Defined.

(** X15.  When the start chapter is after the end chapter, get_passage does
    not fail by itself and does not swap the bounds: on a resolved dataset
    with a readable verses relation, for an identifier of letters, digits and
    underscores and numbers in the 64-bit range, it selects the verses of
    the end chapter up to end_verse and the verses of the start chapter from
    start_verse on, nothing of the chapters in between, and returns them in
    ascending (chapter, verse) order, the end chapter first; 404 when both
    parts are empty. *)
Theorem passage_reversed_chapters (w : World) (translation_id : string)
    (book_id start_chapter start_verse end_chapter end_verse : Z)
    (db : Database) (tbl : list VerseRow) :
  allow_listed translation_id = true →
  forallb sqlite_int [book_id; start_chapter; start_verse; end_chapter; end_verse] = true →
  files w !! translation_file translation_id = Some (FFile db) →
  verses_of db (upper translation_id +:+ "_verses") = Rows tbl →
  (end_chapter < start_chapter)%Z →
  let end_part :=
    filter (λ r, r_book_id r = book_id ∧ r_chapter r = end_chapter
                 ∧ (r_verse r ≤ end_verse)%Z) tbl in
  let start_part :=
    filter (λ r, r_book_id r = book_id ∧ r_chapter r = start_chapter
                 ∧ (start_verse ≤ r_verse r)%Z) tbl in
  ∃ rows,
    rows ≡ₚ end_part ++ start_part
    ∧ StronglySorted
        (λ a b, (r_chapter a < r_chapter b
                 ∨ (r_chapter a = r_chapter b ∧ r_verse a ≤ r_verse b))%Z)
        rows
    ∧ outcome_of (get_passage w translation_id book_id start_chapter start_verse
                    end_chapter end_verse)
      = match rows with
        | [] => Raised (HTTPException 404 "Passage not found")
        | _ => Returned (map verse_of_row rows)
        end.
Proof.
  intros _ Hints Hf Htbl Horder end_part start_part.
  exists (order_by by_chapter_verse
            (filter (in_chapter_span book_id start_chapter start_verse
                       end_chapter end_verse) tbl)).
  split; [|split].
  - rewrite order_by_Permutation. unfold end_part, start_part.
    rewrite <- filter_or_app by (intros r; cbv beta; lia).
    erewrite list_filter_iff; [reflexivity|].
    intros r. unfold in_chapter_span. cbv beta. lia.
  - apply order_by_StronglySorted; apply _.
  - rewrite (get_passage_outcome _ _ _ _ _ _ _ _ _ Hf Htbl Hints).
    rewrite decide_False by lia. now destruct (order_by by_chapter_verse _).
Qed.

Lemma passage_reversed_chapters_witness :
  allow_listed "kjv" = true
  ∧ forallb sqlite_int [1; 3; 1; 1; 1]%Z = true
  ∧ files Examples.world !! translation_file "kjv" = Some (FFile Examples.kjv_db)
  ∧ verses_of Examples.kjv_db (upper "kjv" +:+ "_verses") = Rows Examples.kjv_verses
  ∧ (1 < 3)%Z
  ∧ ∃ rows,
      length rows = 2
      ∧ outcome_of (get_passage Examples.world "kjv" 1 3 1 1 1)
        = Returned (map verse_of_row rows).
Proof.
  split; [reflexivity|]. split; [reflexivity|].
  split; [reflexivity|]. split; [reflexivity|]. split; [lia|].
  destruct (passage_reversed_chapters Examples.world "kjv" 1 3 1 1 1
              Examples.kjv_db Examples.kjv_verses eq_refl eq_refl eq_refl eq_refl)
    as (rows & Hperm & _ & Hout); [lia|].
  exists rows.
  assert (Hlen : length rows = 2) by now rewrite Hperm.
  split; [exact Hlen|]. rewrite Hout. now destruct rows.
Defined.

(** ** Search on a literal query *)

Lemma search_verses_literal_outcome (w : World) (translation query : string)
    (scope : option Z) (db : Database) (tbl : list VerseRow) :
  wildcard_free query = true →
  nul_free query = true →
  pattern_fits query = true →
  forallb sqlite_int (option_list scope) = true →
  files w !! translation_file translation = Some (FFile db) →
  verses_of db (upper translation +:+ "_verses") = Rows tbl →
  outcome_of (search_verses w translation query scope) =
  Returned
    (map verse_of_row
       (take 100
          (order_by by_chapter_verse
             (filter (λ r, contains_nocase query (cut_nul (r_text r)) = true)
                (match scope with
                 | Some b => filter (λ r, r_book_id r = b) tbl
                 | None => tbl
                 end))))).
Proof.
  intros Hfree Hnul Hfits Hints Hf Htbl.
  rewrite (search_verses_outcome _ _ _ _ _ _ Hf Htbl), Hints,
    (like_failure_fits _ _ Hfits).
  do 4 f_equal.
  assert (Hlike : ∀ l : list VerseRow,
            filter (λ r, sqlite_like ("%" +:+ query +:+ "%") (r_text r)) l
            = filter (λ r, contains_nocase query (cut_nul (r_text r)) = true) l).
  { intros l. apply list_filter_iff. intros r. unfold sqlite_like.
    rewrite (nul_free_pattern _ Hnul), like_contains by exact Hfree.
    apply Is_true_true. }
  destruct scope as [b|]; [|apply Hlike].
  rewrite Hlike, !list_filter_filter. apply list_filter_iff. intros r. tauto.
Qed.

(** X16.  For an identifier of letters, digits and underscores, a query
    without %, _ and NUL whose pattern is within the engine's limit of 50000
    bytes, and a book id in the 64-bit range, on a resolved dataset whose
    verses relation is readable and holds texts without NUL: search_verses
    returns the first 100 of the rows whose text contains the query (ASCII
    letters compared without case), within the book when one is given, in
    ascending (chapter, verse) order.  Every returned verse is such a row,
    and when at most 100 rows match they are all returned. *)
Theorem search_verses_literal_query (w : World) (translation query : string)
    (scope : option Z) (db : Database) (tbl : list VerseRow) :
  allow_listed translation = true →
  wildcard_free query = true →
  nul_free query = true →
  pattern_fits query = true →
  forallb sqlite_int (option_list scope) = true →
  files w !! translation_file translation = Some (FFile db) →
  verses_of db (upper translation +:+ "_verses") = Rows tbl →
  Forall (λ r, nul_free (r_text r) = true) tbl →
  let matching :=
    filter (λ r, contains_nocase query (r_text r) = true)
      (match scope with
       | Some b => filter (λ r, r_book_id r = b) tbl
       | None => tbl
       end) in
  ∃ sorted rows,
    sorted ≡ₚ matching
    ∧ StronglySorted
        (λ a b, (r_chapter a < r_chapter b
                 ∨ (r_chapter a = r_chapter b ∧ r_verse a ≤ r_verse b))%Z)
        sorted
    ∧ rows = take 100 sorted
    ∧ outcome_of (search_verses w translation query scope)
      = Returned (map verse_of_row rows)
    ∧ length rows = Nat.min 100 (length matching)
    ∧ (∀ r, r ∈ rows →
         r ∈ tbl ∧ contains_nocase query (r_text r) = true
         ∧ ∀ b, scope = Some b → r_book_id r = b)
    ∧ (length matching ≤ 100 → rows ≡ₚ matching).
Proof.
  intros _ Hfree Hnul Hfits Hints Hf Htbl Htexts matching.
  exists (order_by by_chapter_verse matching),
         (take 100 (order_by by_chapter_verse matching)).
  split; [apply order_by_Permutation|].
  split; [apply order_by_StronglySorted; apply _|].
  split; [reflexivity|]. split.
  { rewrite (search_verses_literal_outcome _ _ _ _ db tbl Hfree Hnul Hfits Hints Hf Htbl).
    do 4 f_equal. unfold matching.
    assert (Hscoped : Forall (λ r, nul_free (r_text r) = true)
                        (match scope with
                         | Some b => filter (λ r, r_book_id r = b) tbl
                         | None => tbl
                         end)).
    { destruct scope as [b|]; [|exact Htexts].
      apply Forall_forall. intros r Hr. apply list_elem_of_filter in Hr as [_ Hr].
      rewrite Forall_forall in Htexts. now apply Htexts. }
    induction Hscoped as [|r l Hr Hl IH]; [reflexivity|].
    rewrite !filter_cons, IH, (cut_nul_free _ Hr). reflexivity. }
  split; [now rewrite length_take, order_by_length|]. split.
  - intros r Hr. apply take_elem in Hr. rewrite order_by_Permutation in Hr.
    unfold matching in Hr. apply list_elem_of_filter in Hr as [Hcontains Hr].
    destruct scope as [b|].
    + apply list_elem_of_filter in Hr as [Hb Hr].
      repeat split; [assumption..|]. now intros b' [= <-].
    + repeat split; [assumption..|]. discriminate.
  - intros Hlen. rewrite take_ge by now rewrite order_by_length.
    apply order_by_Permutation.
Qed.

Lemma search_verses_literal_query_witness :
  allow_listed "kjv" = true
  ∧ wildcard_free "GOD" = true
  ∧ nul_free "GOD" = true
  ∧ pattern_fits "GOD" = true
  ∧ forallb sqlite_int (option_list (Some 1%Z)) = true
  ∧ files Examples.world !! translation_file "kjv" = Some (FFile Examples.kjv_db)
  ∧ verses_of Examples.kjv_db (upper "kjv" +:+ "_verses") = Rows Examples.kjv_verses
  ∧ Forall (λ r, nul_free (r_text r) = true) Examples.kjv_verses
  ∧ ∃ rows,
      outcome_of (search_verses Examples.world "kjv" "GOD" (Some 1%Z))
      = Returned (map verse_of_row rows)
      ∧ length rows = 3.
Proof.
  assert (Htexts : Forall (λ r, nul_free (r_text r) = true) Examples.kjv_verses)
    by (repeat constructor).
  split; [reflexivity|]. split; [reflexivity|]. split; [reflexivity|].
  split; [reflexivity|]. split; [reflexivity|]. split; [reflexivity|].
  split; [reflexivity|]. split; [exact Htexts|].
  destruct (search_verses_literal_query Examples.world "kjv" "GOD" (Some 1%Z)
              Examples.kjv_db Examples.kjv_verses eq_refl eq_refl eq_refl eq_refl
              eq_refl eq_refl eq_refl Htexts)
    as (sorted & rows & _ & _ & _ & Hout & Hlen & _).
  exists rows. split; [exact Hout|]. rewrite Hlen. reflexivity.
Defined.





(** ** Comparing a translation with itself *)

(** X18.  The result of compare_translations is keyed by the identifiers in
    upper case: for identifiers of letters, digits and underscores and
    numbers in the 64-bit range, two resolved translations whose identifiers
    differ in upper case give two entries; when they are the same in upper
    case (a translation compared with itself, "kjv" with "KJV") the result
    has the single entry of the second lookup. *)
Theorem compare_result_keys (w : World) (translation1 translation2 : string)
    (book chapter : Z) (verse : option Z) (db1 db2 : Database) :
  allow_listed translation1 = true →
  allow_listed translation2 = true →
  forallb sqlite_int (book :: chapter :: option_list verse) = true →
  files w !! translation_file translation1 = Some (FFile db1) →
  files w !! translation_file translation2 = Some (FFile db2) →
  ∃ result,
    outcome_of (compare_translations w translation1 translation2 book chapter verse)
    = Returned result
    ∧ (upper translation1 = upper translation2 →
         result = {[ upper translation2 := side_value db2 translation2 book chapter verse ]})
    ∧ (upper translation1 ≠ upper translation2 →
         dom result = {[ upper translation1; upper translation2 ]} ∧ size result = 2).
Proof.
  intros _ _ Hints Hf1 Hf2. eexists. split.
  { apply (compare_translations_outcome _ _ _ _ _ _ db1 db2 Hf1 Hf2 Hints). }
  split.
  - intros ->. now rewrite insert_insert_eq, insert_empty.
  - intros Hne. split.
    + rewrite !dom_insert_L, dom_empty_L, union_empty_r_L. apply union_comm_L.
    + rewrite map_size_insert_None
        by (rewrite lookup_insert_ne by exact Hne; apply lookup_empty).
      rewrite map_size_insert_None by apply lookup_empty.
      now rewrite map_size_empty.
Qed.

Lemma compare_result_keys_witness :
  allow_listed "kjv" = true
  ∧ allow_listed "KJV" = true
  ∧ forallb sqlite_int (1 :: 3 :: option_list None)%Z = true
  ∧ files Examples.world !! translation_file "kjv" = Some (FFile Examples.kjv_db)
  ∧ files Examples.world !! translation_file "KJV" = Some (FFile Examples.kjv_db)
  ∧ ∃ result,
      outcome_of (compare_translations Examples.world "kjv" "KJV" 1 3 None)
      = Returned result
      ∧ size result = 1.
Proof.
  split; [reflexivity|]. split; [reflexivity|]. split; [reflexivity|].
  split; [reflexivity|]. split; [reflexivity|].
  destruct (compare_result_keys Examples.world "kjv" "KJV" 1 3 None
              Examples.kjv_db Examples.kjv_db eq_refl eq_refl eq_refl eq_refl eq_refl)
    as (result & Hout & Hsame & _).
  exists result. split; [exact Hout|].
  rewrite (Hsame eq_refl). apply map_size_singleton.
Defined.

(** ** Wrapping the verse text of the quote image *)

Lemma append_assoc (a b c : string) : (a +:+ b) +:+ c = a +:+ (b +:+ c).
Proof.
  induction a as [|x a IH]; [reflexivity|].
  change (String x a +:+ b) with (String x (a +:+ b)).
  change (String x (a +:+ b) +:+ c) with (String x ((a +:+ b) +:+ c)).
  change (String x a +:+ (b +:+ c)) with (String x (a +:+ (b +:+ c))).
  now rewrite IH.
Qed.

Lemma join_cons (a : string) (l : list string) :
  l ≠ [] → String.concat " " (a :: l) = a +:+ " " +:+ String.concat " " l.
Proof. destruct l; [contradiction|reflexivity]. Qed.

Lemma join_merge (a b : string) (l : list string) :
  String.concat " " ((a +:+ " " +:+ b) :: l) = String.concat " " (a :: b :: l).
Proof.
  destruct l as [|c l]; [reflexivity|].
  rewrite !join_cons by discriminate. now rewrite !append_assoc.
Qed.

Lemma join_app_eq (l x y : list string) :
  x ≠ [] → y ≠ [] → String.concat " " x = String.concat " " y →
  String.concat " " (l ++ x) = String.concat " " (l ++ y).
Proof.
  intros Hx Hy Heq. induction l as [|a l IH]; [exact Heq|].
  cbn [app]. rewrite !join_cons; [now rewrite IH| |];
    intros Hnil; apply app_eq_nil in Hnil as [_ Hnil]; contradiction.
Qed.

Section QuoteImageFacts.
Variable fits : string → bool.

Lemma wrap_loop_join (words : list string) (current_line : string) (lines : list string) :
  String.concat " " (wrap_loop fits words current_line lines)
  = String.concat " " (lines ++ current_line :: words).
Proof.
  revert current_line lines.
  induction words as [|word rest IH]; intros current_line lines; [reflexivity|].
  cbn [wrap_loop]. destruct (fits _).
  - rewrite IH. apply join_app_eq; [discriminate..|apply join_merge].
  - rewrite IH. now rewrite <- app_assoc.
Qed.

Lemma wrap_loop_lines (all_words : list string) (words : list string)
    (current_line : string) (lines : list string) :
  let ok line := fits line = true ∨ line ∈ all_words in
  words ⊆ all_words → ok current_line → Forall ok lines →
  Forall ok (wrap_loop fits words current_line lines).
Proof.
  intros ok. revert current_line lines.
  induction words as [|word rest IH]; intros current_line lines Hwords Hcur Hlines.
  - cbn. apply Forall_app. split; [exact Hlines|].
    constructor; [exact Hcur|constructor].
  - cbn [wrap_loop]. destruct (fits _) eqn:Hfits.
    + apply IH; [|now left|exact Hlines].
      intros x Hx. apply Hwords. now right.
    + apply IH.
      * intros x Hx. apply Hwords. now right.
      * right. apply Hwords. now left.
      * apply Forall_app. split; [exact Hlines|].
        constructor; [exact Hcur|constructor].
Qed.

Lemma wrap_loop_length (words : list string) (current_line : string) (lines : list string) :
  length lines + 1 ≤ length (wrap_loop fits words current_line lines)
  ≤ length lines + 1 + length words.
Proof.
  revert current_line lines.
  induction words as [|word rest IH]; intros current_line lines.
  - cbn. rewrite length_app. cbn. lia.
  - cbn [wrap_loop length]. destruct (fits _).
    + specialize (IH (current_line +:+ " " +:+ word) lines). lia.
    + specialize (IH word (lines ++ [current_line])).
      rewrite length_app in IH. cbn in IH. lia.
Qed.

(** X19.  Wrapping loses nothing: when the text has a word, the lines
    joined with single spaces are the words of the text joined with single
    spaces, and there are at least one line and at most as many lines as
    words. *)
Theorem wrap_verse_text_keeps_words (verse_text : string) (lines : list string) :
  wrap_verse_text fits verse_text = Some lines →
  String.concat " " lines = String.concat " " (split verse_text)
  ∧ 1 ≤ length lines ≤ length (split verse_text).
Proof.
  unfold wrap_verse_text. destruct (split verse_text) as [|word rest]; [discriminate|].
  intros [= <-]. split.
  - apply wrap_loop_join.
  - pose proof (wrap_loop_length rest word []) as Hlen. cbn in Hlen |- *. lia.
Qed.

(** X20.  Every line drawn fits the width, except a line made of a single
    word that is too wide by itself: each line either passes the width test
    or is one of the words of the text. *)
Theorem wrap_verse_text_lines_fit (verse_text : string) (lines : list string) :
  wrap_verse_text fits verse_text = Some lines →
  Forall (λ line, fits line = true ∨ line ∈ split verse_text) lines.
Proof.
  unfold wrap_verse_text. destruct (split verse_text) as [|word rest] eqn:Hsplit;
    [discriminate|].
  intros [= <-]. apply (wrap_loop_lines (word :: rest)).
  - intros x Hx. now right.
  - right. now left.
  - constructor.
Qed.
End QuoteImageFacts.

Lemma wrap_verse_text_keeps_words_witness :
  wrap_verse_text (λ line, Nat.leb (String.length line) 10)
    "And God said, Let there be light"
  = Some ["And God"; "said, Let"; "there be"; "light"]
  ∧ String.concat " " ["And God"; "said, Let"; "there be"; "light"]
    = String.concat " " (split "And God said, Let there be light").
Proof.
  split; [reflexivity|].
  exact (proj1 (wrap_verse_text_keeps_words (λ line, Nat.leb (String.length line) 10)
                  "And God said, Let there be light"
                  ["And God"; "said, Let"; "there be"; "light"] eq_refl)).
Defined.

Lemma wrap_verse_text_lines_fit_witness :
  wrap_verse_text (λ line, Nat.leb (String.length line) 4) "In the beginning"
  = Some ["In"; "the"; "beginning"]
  ∧ Forall (λ line, Nat.leb (String.length line) 4 = true
                    ∨ line ∈ split "In the beginning")
      ["In"; "the"; "beginning"].
Proof.
  split; [reflexivity|].
  exact (wrap_verse_text_lines_fit (λ line, Nat.leb (String.length line) 4)
           "In the beginning" ["In"; "the"; "beginning"] eq_refl).
Defined.

Lemma split_from_nil (s : string) :
  (let (word, words) := split_from s in cons_word word words) = []
  ↔ all_chars is_space s = true.
Proof.
  induction s as [|c s IH]; [easy|].
  cbn [split_from all_chars]. destruct (split_from s) as [word words].
  destruct (is_space c); cbn [andb].
  - exact IH.
  - split; discriminate.
Qed.

(** X21.  The text layout of the quote image fails on a verse without any
    word: words[0] raises IndexError exactly when the verse text is empty or
    made of white space only, whatever the font. *)
Theorem wrap_verse_text_no_word (fits : string → bool) (verse_text : string) :
  wrap_verse_text fits verse_text = None ↔ all_chars is_space verse_text = true.
Proof.
  rewrite <- split_from_nil. fold (split verse_text). unfold wrap_verse_text.
  destruct (split verse_text); split; (reflexivity || discriminate).
Qed.

(** ** The renaming scripts *)

Lemma append_length (a b : string) :
  String.length (a +:+ b) = String.length a + String.length b.
Proof.
  induction a as [|x a IH]; [reflexivity|].
  change (String x a +:+ b) with (String x (a +:+ b)). cbn. now rewrite IH.
Qed.

Lemma str_take_app (a b : string) : str_take (String.length a) (a +:+ b) = a.
Proof.
  induction a as [|x a IH]; [now destruct b|].
  change (String x a +:+ b) with (String x (a +:+ b)). cbn. now rewrite IH.
Qed.

Lemma str_drop_app (a b : string) : str_drop (String.length a) (a +:+ b) = b.
Proof.
  induction a as [|x a IH]; [now destruct b|].
  change (String x a +:+ b) with (String x (a +:+ b)). cbn. exact IH.
Qed.

Lemma str_take_drop (i : nat) (s : string) : str_take i s +:+ str_drop i s = s.
Proof.
  revert i. induction s as [|x s IH]; intros [|i]; try reflexivity.
  cbn [str_take str_drop].
  change (String x (str_take i s) +:+ str_drop i s)
    with (String x (str_take i s +:+ str_drop i s)).
  now rewrite IH.
Qed.

Lemma rfind_app (c : ascii) (a b : string) :
  rfind c (a +:+ b)
  = match rfind c b with
    | Some i => Some (String.length a + i)
    | None => rfind c a
    end.
Proof.
  induction a as [|x a IH].
  { change (EmptyString +:+ b) with b. now destruct (rfind c b). }
  change (String x a +:+ b) with (String x (a +:+ b)). cbn [rfind String.length].
  rewrite IH. now destruct (rfind c b).
Qed.

(** X22.  uppercase.py gives a dataset file the name the locator looks for:
    for an identifier without "/" that is not made of dots only, the file
    <ID>.db is renamed to <ID in upper case>.db (the extension is kept as it
    is), which is the file get_translation_db opens for that identifier. *)
Theorem new_file_name_is_located (translation_id : string) :
  rfind "/" translation_id = None →
  has_non_dot translation_id = true →
  new_file_name (translation_id +:+ ".db") = upper translation_id +:+ ".db"
  ∧ path_join BASE_DB_PATH (new_file_name (translation_id +:+ ".db"))
    = translation_file translation_id.
Proof.
  intros Hsep Hdots.
  assert (Hname : new_file_name (translation_id +:+ ".db") = upper translation_id +:+ ".db").
  { unfold new_file_name, splitext.
    rewrite !rfind_app, Hsep. cbn [rfind Ascii.eqb Bool.eqb].
    rewrite Nat.add_0_r. cbn [Nat.leb str_drop andb].
    rewrite str_take_app, str_drop_app, Hdots. reflexivity. }
  split; [exact Hname|]. now rewrite Hname.
Qed.

Lemma new_file_name_is_located_witness :
  rfind "/" "kjv" = None ∧ has_non_dot "kjv" = true
  ∧ new_file_name "kjv.db" = "KJV.db"
  ∧ path_join BASE_DB_PATH (new_file_name "kjv.db") = translation_file "kjv".
Proof.
  split; [reflexivity|]. split; [reflexivity|].
  exact (new_file_name_is_located "kjv" eq_refl eq_refl).
Defined.

Lemma all_chars_app (p : ascii → bool) (a b : string) :
  all_chars p (a +:+ b) = (all_chars p a && all_chars p b)%bool.
Proof.
  induction a as [|x a IH]; [reflexivity|].
  change (String x a +:+ b) with (String x (a +:+ b)). cbn.
  now rewrite IH, andb_assoc.
Qed.

Lemma substring_take_drop (n m : nat) (s : string) :
  substring n m s = str_take m (str_drop n s).
Proof.
  revert n m. induction s as [|x s IH]; intros [|n] [|m]; try reflexivity.
  - cbn. now rewrite IH.
  - cbn. now rewrite IH.
  - cbn. now rewrite IH.
Qed.

Lemma str_take_all (s : string) : str_take (String.length s) s = s.
Proof. induction s as [|x s IH]; [reflexivity|]. cbn. now rewrite IH. Qed.

Lemma str_drop_length (i : nat) (s : string) :
  i ≤ String.length s → String.length (str_drop i s) = String.length s - i.
Proof.
  revert i. induction s as [|x s IH]; intros [|i] Hi; try reflexivity.
  cbn in *. apply IH. lia.
Qed.

Lemma endswith_split (s suffix : string) :
  endswith s suffix = true → ∃ stem, s = stem +:+ suffix.
Proof.
  unfold endswith. intros Hend. apply andb_prop in Hend as [Hlen Heq].
  apply Nat.leb_le in Hlen. apply String.eqb_eq in Heq.
  rewrite substring_take_drop in Heq.
  set (i := String.length s - String.length suffix) in *.
  assert (Hdrop : String.length (str_drop i s) = String.length suffix)
    by (rewrite str_drop_length; lia).
  rewrite <- Hdrop, str_take_all in Heq.
  exists (str_take i s). now rewrite <- Heq, str_take_drop.
Qed.

Lemma lower_app (a b : string) : lower (a +:+ b) = lower a +:+ lower b.
Proof.
  induction a as [|x a IH]; [reflexivity|].
  change (String x a +:+ b) with (String x (a +:+ b)). cbn [lower].
  change (String (lower_ascii x) (lower a) +:+ lower b)
    with (String (lower_ascii x) (lower a +:+ lower b)).
  now rewrite IH.
Qed.

Lemma prefix_slash_upper_name (s : string) : String.prefix "/" (upper s) = String.prefix "/" s.
Proof.
  destruct s as [|c s]; [reflexivity|]. cbn [upper String.prefix].
  destruct (ascii_dec "/" (upper_ascii c)) as [Hu|Hu], (ascii_dec "/" c) as [Hc|Hc].
  - now destruct (upper s), s.
  - symmetry in Hu. apply (proj1 (upper_ascii_slash c)) in Hu. congruence.
  - subst c. destruct Hu. reflexivity.
  - reflexivity.
Qed.

(** X23.  rename_to_uppercase.py renames every .db entry it meets, the
    extension included: for an ASCII name that ends with .db the "already
    uppercase" branch and the "file already exists" warning are never taken,
    whatever exists at the target, the entry is moved to the name in upper
    case, and that name no longer ends with .db. *)
Theorem rename_step_always_moves (path_exists : string → bool) (filename : string) :
  all_chars is_ascii filename = true →
  endswith filename ".db" = true →
  rename_step path_exists filename
  = Move (path_join BASE_DB_PATH filename) (path_join BASE_DB_PATH (upper filename))
  ∧ endswith (upper filename) ".db" = false.
Proof.
  intros _ Hext.
  assert (Hlow : ∀ s, endswith s ".db" = true →
            all_chars (λ c, negb (is_ascii_lower c)) s = false).
  { intros s Hs. apply endswith_split in Hs as [stem ->].
    rewrite all_chars_app. apply andb_false_r. }
  assert (Hupper : endswith (upper filename) ".db" = false).
  { destruct (endswith (upper filename) ".db") eqn:Hend; [|reflexivity].
    apply Hlow in Hend. now rewrite upper_no_lower in Hend. }
  split; [|exact Hupper].
  unfold rename_step. rewrite Hext.
  assert (Hne : String.eqb filename (upper filename) = false).
  { apply String.eqb_neq. intros Heq. rewrite <- Heq in Hupper. congruence. }
  rewrite Hne.
  assert (Hsame : lower (path_join BASE_DB_PATH filename)
                  = lower (path_join BASE_DB_PATH (upper filename))).
  { rewrite !path_join_base, prefix_slash_upper_name.
    destruct (String.prefix "/" filename).
    - now rewrite lower_upper.
    - now rewrite !lower_app, lower_upper. }
  rewrite Hsame, String.eqb_refl, andb_false_r. reflexivity.
Qed.

Lemma rename_step_always_moves_witness :
  all_chars is_ascii "KJV.db" = true
  ∧ endswith "KJV.db" ".db" = true
  ∧ rename_step (λ _, true) "KJV.db"
    = Move "bible_databases/formats/sqlite/KJV.db" "bible_databases/formats/sqlite/KJV.DB".
Proof.
  split; [reflexivity|]. split; [reflexivity|].
  exact (proj1 (rename_step_always_moves (λ _, true) "KJV.db" eq_refl eq_refl)).
Defined.

(** ** Chapters of a book *)

(** X24.  On a resolved dataset with a readable verses relation, for an
    identifier of letters, digits and underscores and a book id in the 64-bit
    range, get_chapter_counts raises the 404 "No chapters found for given book"
    exactly when the book has no verse; otherwise its dictionary has one
    entry for each chapter in which the book has a verse, and no other, and
    the entry is the number of verses of the book in that chapter. *)
Theorem get_chapter_counts_spec (w : World) (translation_id : string) (book_id : Z)
    (db : Database) (tbl : list VerseRow) :
  allow_listed translation_id = true →
  sqlite_int book_id = true →
  files w !! translation_file translation_id = Some (FFile db) →
  verses_of db (upper translation_id +:+ "_verses") = Rows tbl →
  let call := get_chapter_counts w translation_id book_id in
  let in_chapter c := filter (λ r, r_book_id r = book_id ∧ r_chapter r = c) tbl in
  ((∀ r, r ∈ tbl → r_book_id r ≠ book_id) ↔
     outcome_of call = Raised (HTTPException 404 "No chapters found for given book"))
  ∧ (∀ counts, outcome_of call = Returned counts →
       ∀ c n, counts !! c = Some n ↔
              in_chapter c ≠ [] ∧ n = Z.of_nat (length (in_chapter c))).
Proof.
  intros _ Hint Hf Htbl call in_chapter. unfold call.
  rewrite (get_chapter_counts_outcome _ _ _ _ _ Hf Htbl), Hint.
  set (sel := filter (λ r, r_book_id r = book_id) tbl).
  assert (Hsame : ∀ c, filter (λ r, r_chapter r = c) sel = in_chapter c).
  { intros c. unfold sel, in_chapter. rewrite list_filter_filter.
    apply list_filter_iff. intros r. tauto. }
  assert (Hitems : ∀ c n, (c, n) ∈ group_count_by_chapter sel ↔
            in_chapter c ≠ [] ∧ n = Z.of_nat (length (in_chapter c))).
  { intros c n. rewrite group_count_elem, Hsame. split; intros [Hc Hn]; split; try exact Hn.
    - destruct Hc as (r & Hr & Hrc). intros Hnil.
      assert (Hin : r ∈ filter (λ r, r_chapter r = c) sel)
        by (apply list_elem_of_filter; now split).
      rewrite Hsame, Hnil in Hin. inversion Hin.
    - destruct (in_chapter c) as [|r rest] eqn:Hrows; [contradiction|].
      assert (Hin : r ∈ filter (λ r, r_chapter r = c) sel)
        by (rewrite Hsame, Hrows; left).
      apply list_elem_of_filter in Hin as [Hrc Hin]. now exists r. }
  split; [split|].
  - intros Hnone.
    assert (Hsel : sel = []).
    { unfold sel. apply filter_none, Forall_forall. exact Hnone. }
    rewrite Hsel. reflexivity.
  - intros Hout r Hr Hb.
    destruct (group_count_by_chapter sel) as [|item items] eqn:Hgroup; [|discriminate].
    assert (Hin : r ∈ sel) by (apply list_elem_of_filter; now split).
    assert (Hitem : (r_chapter r, Z.of_nat (length (filter (λ x, r_chapter x = r_chapter r) sel)))
                    ∈ group_count_by_chapter sel).
    { apply group_count_elem. split; [now exists r|reflexivity]. }
    rewrite Hgroup in Hitem. inversion Hitem.
  - intros counts Hout c n.
    destruct (group_count_by_chapter sel) as [|item items] eqn:Hgroup; [discriminate|].
    injection Hout as <-.
    rewrite py_dict_lookup by (rewrite <- Hgroup; apply group_count_NoDup).
    apply Hitems.
Qed.

Lemma get_chapter_counts_spec_witness :
  allow_listed "kjv" = true
  ∧ sqlite_int 66 = true
  ∧ files Examples.world !! translation_file "kjv" = Some (FFile Examples.kjv_db)
  ∧ verses_of Examples.kjv_db (upper "kjv" +:+ "_verses") = Rows Examples.kjv_verses
  ∧ outcome_of (get_chapter_counts Examples.world "kjv" 66)
    = Raised (HTTPException 404 "No chapters found for given book").
Proof.
  split; [reflexivity|]. split; [reflexivity|].
  split; [reflexivity|]. split; [reflexivity|].
  destruct (get_chapter_counts_spec Examples.world "kjv" 66
              Examples.kjv_db Examples.kjv_verses eq_refl eq_refl eq_refl eq_refl)
    as [Hnone _].
  apply Hnone. intros r Hr.
  assert (Hall : Forall (λ r, r_book_id r ≠ 66%Z) Examples.kjv_verses)
    by (repeat constructor; discriminate).
  rewrite Forall_forall in Hall. exact (Hall r Hr).
Defined.

(** X25.  On a resolved dataset with a readable verses relation, for an
    identifier of letters, digits and underscores and numbers in the 64-bit
    range, get_verses_in_chapter raises the 404 "No verses found for given chapter"
    exactly when the book has no verse in the chapter; otherwise it returns
    each verse row of that book and chapter exactly once, in ascending order
    of verse number. *)
Theorem get_verses_in_chapter_spec (w : World) (translation_id : string)
    (book_id chapter : Z) (db : Database) (tbl : list VerseRow) :
  allow_listed translation_id = true →
  forallb sqlite_int [book_id; chapter] = true →
  files w !! translation_file translation_id = Some (FFile db) →
  verses_of db (upper translation_id +:+ "_verses") = Rows tbl →
  let call := get_verses_in_chapter w translation_id book_id chapter in
  let in_chapter := filter (λ r, r_book_id r = book_id ∧ r_chapter r = chapter) tbl in
  (in_chapter = [] ↔
     outcome_of call = Raised (HTTPException 404 "No verses found for given chapter"))
  ∧ (in_chapter ≠ [] →
       ∃ rows, outcome_of call = Returned (map verse_of_row rows)
               ∧ rows ≡ₚ in_chapter
               ∧ StronglySorted (λ a b, (r_verse a ≤ r_verse b)%Z) rows).
Proof.
  intros _ Hints Hf Htbl call in_chapter. unfold call.
  rewrite (get_verses_in_chapter_outcome _ _ _ _ _ _ Hf Htbl), Hints. fold in_chapter.
  split; [split|].
  - intros ->. reflexivity.
  - intros Hout. destruct (order_by by_verse in_chapter) eqn:Hrows; [|discriminate].
    now apply (order_by_nil by_verse).
  - intros Hne. exists (order_by by_verse in_chapter).
    split; [|split; [apply order_by_Permutation|apply order_by_StronglySorted; apply _]].
    destruct (order_by by_verse in_chapter) eqn:Hrows; [|reflexivity].
    apply (proj1 (order_by_nil by_verse _)) in Hrows. contradiction.
Qed.

Lemma get_verses_in_chapter_spec_witness :
  allow_listed "kjv" = true
  ∧ forallb sqlite_int [1; 1]%Z = true
  ∧ files Examples.world !! translation_file "kjv" = Some (FFile Examples.kjv_db)
  ∧ verses_of Examples.kjv_db (upper "kjv" +:+ "_verses") = Rows Examples.kjv_verses
  ∧ ∃ rows,
      outcome_of (get_verses_in_chapter Examples.world "kjv" 1 1)
      = Returned (map verse_of_row rows)
      ∧ length rows = 3.
Proof.
  split; [reflexivity|]. split; [reflexivity|].
  split; [reflexivity|]. split; [reflexivity|].
  destruct (get_verses_in_chapter_spec Examples.world "kjv" 1 1
              Examples.kjv_db Examples.kjv_verses eq_refl eq_refl eq_refl eq_refl)
    as [_ Hrows].
  destruct Hrows as (rows & Hout & Hperm & _); [vm_compute; discriminate|].
  exists rows. split; [exact Hout|]. now rewrite Hperm.
Defined.

(** ** A dataset that does not exist *)

(** X26.  Every translation-scoped handler answers an identifier without
    dataset file in the same way: it raises the 404 "Database file <path>
    not found" with the path the locator derived, and does so before
    connecting or executing anything.  compare_translations does so for its
    first translation. *)
Theorem missing_dataset_is_404 (w : World) (t other query : string)
    (book chapter verse_number start_chapter start_verse end_chapter end_verse : Z)
    (scope verse : option Z) :
  files w !! translation_file t = None →
  let not_found :=
    HTTPException 404 ("Database file " +:+ translation_file t +:+ " not found") in
  run (get_books_for_translation w t) = ([], Raised not_found)
  ∧ run (get_chapter_counts w t book) = ([], Raised not_found)
  ∧ run (get_verses_in_chapter w t book chapter) = ([], Raised not_found)
  ∧ run (get_single_verse w t book chapter verse_number) = ([], Raised not_found)
  ∧ run (search_verses w t query scope) = ([], Raised not_found)
  ∧ run (get_passage w t book start_chapter start_verse end_chapter end_verse)
    = ([], Raised not_found)
  ∧ run (get_translation_stats w t) = ([], Raised not_found)
  ∧ run (compare_translations w t other book chapter verse) = ([], Raised not_found).
Proof.
  intros Hf not_found.
  assert (Hdb : ∀ tr, get_translation_db w t tr = (tr, Raised not_found)).
  { intros tr. now rewrite get_translation_db_run, get_db_connection_run, Hf. }
  unfold run, get_books_for_translation, get_chapter_counts, get_verses_in_chapter,
    get_single_verse, search_verses, get_passage, get_translation_stats.
  rewrite !run_bind, !Hdb.
  repeat (split; [reflexivity|]).
  rewrite compare_translations_run.
  now rewrite (compare_side_missing _ _ _ _ _ _ _ Hf).
Qed.

Lemma missing_dataset_is_404_witness :
  files Examples.world !! translation_file "nope" = None
  ∧ run (get_translation_stats Examples.world "nope")
    = ([], Raised (HTTPException 404
                     "Database file bible_databases/formats/sqlite/NOPE.db not found")).
Proof.
  split; [reflexivity|].
  destruct (missing_dataset_is_404 Examples.world "nope" "kjv" "light"
              1 1 1 1 1 1 1 None None eq_refl)
    as (_ & _ & _ & _ & _ & _ & Hstats & _).
  exact Hstats.
Defined.

(** ** Renaming twice *)

Lemma append_nil_r (s : string) : s +:+ EmptyString = s.
Proof.
  induction s as [|x s IH]; [reflexivity|].
  change (String x s +:+ EmptyString) with (String x (s +:+ EmptyString)). now rewrite IH.
Qed.

Lemma upper_ascii_dot (c : ascii) : Ascii.eqb (upper_ascii c) "." = Ascii.eqb c ".".
Proof. destruct c as [[] [] [] [] [] [] [] []]; reflexivity. Qed.

Lemma upper_ascii_sep (c : ascii) : Ascii.eqb (upper_ascii c) "/" = Ascii.eqb c "/".
Proof. destruct c as [[] [] [] [] [] [] [] []]; reflexivity. Qed.

Lemma rfind_upper (c : ascii) (s : string) :
  (∀ x, Ascii.eqb (upper_ascii x) c = Ascii.eqb x c) → rfind c (upper s) = rfind c s.
Proof.
  intros Hc. induction s as [|x s IH]; [reflexivity|].
  cbn [upper rfind]. now rewrite IH, Hc.
Qed.

Lemma str_take_upper (i : nat) (s : string) : str_take i (upper s) = upper (str_take i s).
Proof.
  revert i. induction s as [|x s IH]; intros [|i]; try reflexivity.
  cbn. now rewrite IH.
Qed.

Lemma str_drop_upper (i : nat) (s : string) : str_drop i (upper s) = upper (str_drop i s).
Proof.
  revert i. induction s as [|x s IH]; intros [|i]; try reflexivity.
  cbn. now rewrite IH.
Qed.

Lemma has_non_dot_upper (s : string) : has_non_dot (upper s) = has_non_dot s.
Proof.
  induction s as [|x s IH]; [reflexivity|]. cbn. now rewrite IH, upper_ascii_dot.
Qed.

Lemma rfind_lt (c : ascii) (s : string) (i : nat) :
  rfind c s = Some i → i < String.length s.
Proof.
  revert i. induction s as [|x s IH]; intros i; [discriminate|].
  cbn [rfind String.length]. destruct (rfind c s) as [j|].
  - intros [= <-]. specialize (IH j eq_refl). lia.
  - destruct (Ascii.eqb x c); [|discriminate]. intros [= <-]. lia.
Qed.

Lemma str_take_length (i : nat) (s : string) :
  i ≤ String.length s → String.length (str_take i s) = i.
Proof.
  revert i. induction s as [|x s IH]; intros [|i] Hi; try reflexivity.
  - cbn in Hi. lia.
  - cbn in *. rewrite IH; lia.
Qed.

(* Where the last [c] of [p] is, seen from a cut of [p] at [d] *)
Lemma rfind_cut (c : ascii) (p : string) (d : nat) :
  d ≤ String.length p →
  rfind c p
  = match rfind c (str_drop d p) with
    | Some i => Some (d + i)
    | None => rfind c (str_take d p)
    end.
Proof.
  intros Hd. rewrite <- (str_take_drop d p) at 1.
  rewrite rfind_app, str_take_length by exact Hd. reflexivity.
Qed.

Lemma rfind_drop_at (c : ascii) (p : string) (d : nat) :
  rfind c p = Some d → rfind c (str_drop d p) = Some 0.
Proof.
  intros Hd. pose proof (rfind_lt _ _ _ Hd) as Hlt.
  rewrite (rfind_cut c p d) in Hd by lia.
  destruct (rfind c (str_drop d p)) as [i|].
  - injection Hd as Hi. f_equal. lia.
  - apply rfind_lt in Hd. rewrite str_take_length in Hd; lia.
Qed.

Lemma rfind_before_cut (c : ascii) (p : string) (d : nat) :
  d ≤ String.length p →
  match rfind c p with Some i => S i | None => 0 end ≤ d →
  rfind c (str_drop d p) = None ∧ rfind c (str_take d p) = rfind c p.
Proof.
  intros Hd Hle. rewrite (rfind_cut c p d) in Hle |- * by exact Hd.
  destruct (rfind c (str_drop d p)) as [i|]; [lia|]. now split.
Qed.

Lemma splitext_upper_whole (filename : string) :
  splitext filename = (filename, EmptyString) →
  splitext (upper filename) = (upper filename, EmptyString).
Proof.
  unfold splitext.
  rewrite (rfind_upper "/") by apply upper_ascii_sep.
  rewrite (rfind_upper ".") by apply upper_ascii_dot.
  destruct (rfind "." filename) as [d|] eqn:Hdot; [|reflexivity].
  rewrite str_take_upper, str_drop_upper, has_non_dot_upper.
  destruct (Nat.leb _ d && has_non_dot _)%bool; [|reflexivity].
  intros [= Htake Hdrop]. exfalso.
  apply rfind_lt in Hdot.
  apply (f_equal String.length) in Htake. rewrite str_take_length in Htake; lia.
Qed.

Lemma splitext_split (filename : string) (d : nat) :
  let fi := match rfind "/" filename with Some i => S i | None => 0 end in
  rfind "." filename = Some d → fi ≤ d →
  has_non_dot (str_drop fi (str_take d filename)) = true →
  splitext filename = (str_take d filename, str_drop d filename)
  ∧ splitext (upper (str_take d filename) +:+ str_drop d filename)
    = (upper (str_take d filename), str_drop d filename).
Proof.
  intros fi Hdot Hle Hdots.
  pose proof (rfind_lt _ _ _ Hdot) as Hlt.
  pose proof (rfind_drop_at _ _ _ Hdot) as Hdot_drop.
  destruct (rfind_before_cut "/" filename d ltac:(lia) Hle) as [Hsep_drop Hsep_take].
  assert (Hlen : String.length (upper (str_take d filename)) = d)
    by (rewrite upper_length, str_take_length; lia).
  split.
  - unfold splitext. fold fi. rewrite Hdot, Hdots.
    apply Nat.leb_le in Hle. now rewrite Hle.
  - set (u := upper (str_take d filename)) in *.
    set (r := str_drop d filename) in *.
    assert (Htake : str_take d (u +:+ r) = u) by (rewrite <- Hlen; apply str_take_app).
    assert (Hdrop : str_drop d (u +:+ r) = r) by (rewrite <- Hlen; apply str_drop_app).
    unfold splitext. rewrite !rfind_app, Hdot_drop, Hsep_drop, Hlen, Nat.add_0_r.
    rewrite Htake, Hdrop. unfold u.
    rewrite (rfind_upper "/") by apply upper_ascii_sep. rewrite Hsep_take. fold fi.
    rewrite str_drop_upper, has_non_dot_upper, Hdots.
    apply Nat.leb_le in Hle. now rewrite Hle.
Qed.

(** X27.  Running uppercase.py again changes no name: the name it gives a
    file (names read as ASCII text) is left as it is by a second run, and the first run keeps the
    extension of the file as it is. *)
Theorem new_file_name_idempotent (filename : string) :
  new_file_name (new_file_name filename) = new_file_name filename
  ∧ (splitext (new_file_name filename)).2 = (splitext filename).2.
Proof.
  destruct (rfind "." filename) as [d|] eqn:Hdot.
  - set (fi := match rfind "/" filename with Some i => S i | None => 0 end).
    destruct (Nat.leb fi d && has_non_dot (str_drop fi (str_take d filename)))%bool
      eqn:Hcond.
    + apply andb_prop in Hcond as [Hle Hdots]. apply Nat.leb_le in Hle.
      destruct (splitext_split filename d Hdot Hle Hdots) as [Hsplit Hsplit'].
      unfold new_file_name. rewrite Hsplit, Hsplit'. cbn [snd].
      now rewrite upper_idemp.
    + assert (Hno : splitext filename = (filename, EmptyString))
        by (unfold splitext; fold fi; now rewrite Hdot, Hcond).
      unfold new_file_name. rewrite Hno, append_nil_r.
      rewrite (splitext_upper_whole _ Hno). cbn [snd].
      now rewrite upper_idemp, append_nil_r.
  - assert (Hno : splitext filename = (filename, EmptyString))
      by (unfold splitext; now rewrite Hdot).
    unfold new_file_name. rewrite Hno, append_nil_r.
    rewrite (splitext_upper_whole _ Hno). cbn [snd].
    now rewrite upper_idemp, append_nil_r.
Qed.

(** ** Comparison of a whole chapter *)

Lemma get_verses_in_chapter_outcome_any (w : World) (translation_id : string)
    (book_id chapter : Z) (db : Database) :
  files w !! translation_file translation_id = Some (FFile db) →
  forallb sqlite_int [book_id; chapter] = true →
  outcome_of (get_verses_in_chapter w translation_id book_id chapter) =
  match verses_of db (upper translation_id +:+ "_verses") with
  | EngineError msg => Raised (HTTPException 500 ("Error fetching verses: " +:+ msg))
  | Rows tbl =>
      match order_by by_verse
              (filter (λ r, r_book_id r = book_id ∧ r_chapter r = chapter) tbl) with
      | [] => Raised (HTTPException 404 "No verses found for given chapter")
      | rows => Returned (map verse_of_row rows)
      end
  end.
Proof.
  intros Hf Hints.
  destruct (verses_of db (upper translation_id +:+ "_verses")) as [tbl|msg] eqn:Htbl.
  - now rewrite (get_verses_in_chapter_outcome _ _ _ _ _ _ Hf Htbl), Hints.
  - unfold outcome_of, run, get_verses_in_chapter.
    rewrite run_bind, (get_translation_db_open _ _ _ _ Hf).
    unfold try_finally, try_except_sqlite.
    rewrite run_bind, execute_run_any. cbn [conn_db conn_path]. now rewrite Htbl.
Qed.

(* What a side of the comparison records for a chapter, against what
   get_verses_in_chapter answers for it *)
Lemma side_value_whole_chapter (w : World) (t : string) (book chapter : Z)
    (verse : option Z) (db : Database) :
  files w !! translation_file t = Some (FFile db) →
  forallb sqlite_int [book; chapter] = true →
  truthy verse = None →
  match outcome_of (get_verses_in_chapter w t book chapter) with
  | Returned verses =>
      ∃ rows, side_value db t book chapter verse = CmpChapter rows
              ∧ map (λ r, mkVerse (cv_verse r) (cv_text r)) rows ≡ₚ verses
              ∧ StronglySorted (λ a b, (cv_verse a ≤ cv_verse b)%Z) rows
              ∧ Forall (λ r, cv_chapter r = chapter) rows
  | Raised e =>
      (e = HTTPException 404 "No verses found for given chapter"
       ∧ side_value db t book chapter verse = CmpChapter [])
      ∨ (∃ msg, e = HTTPException 500 ("Error fetching verses: " +:+ msg)
                ∧ side_value db t book chapter verse = CmpMessage ("Error: " +:+ msg))
  end.
Proof.
  intros Hf Hints Hv. rewrite (get_verses_in_chapter_outcome_any _ _ _ _ _ Hf Hints).
  unfold side_value. rewrite Hv.
  destruct (verses_of db _) as [tbl|msg]; [|right; eauto].
  set (sel := filter (λ r, r_book_id r = book ∧ r_chapter r = chapter) tbl).
  assert (Hchapter : Forall (λ r, r_chapter r = chapter) (order_by by_verse sel)).
  { rewrite order_by_Permutation. apply Forall_forall. intros r Hr.
    unfold sel in Hr. now apply list_elem_of_filter in Hr as [[_ Hc] _]. }
  assert (Hsorted : StronglySorted by_verse (order_by by_verse sel))
    by (apply order_by_StronglySorted; apply _).
  destruct (order_by by_verse sel) as [|row rows]; [left; split; reflexivity|].
  eexists. split; [reflexivity|]. split; [|split].
  - rewrite map_map. reflexivity.
  - clear -Hsorted. induction Hsorted as [|r l Hl IH Hr]; cbn [map]; constructor;
      [exact IH|].
    apply Forall_forall. intros c Hc.
    apply list_elem_of_In, in_map_iff in Hc as (r' & <- & Hin).
    rewrite Forall_forall in Hr. apply Hr, list_elem_of_In, Hin.
  - clear -Hchapter. induction Hchapter; cbn [map]; constructor; assumption.
Qed.

(* A verse that is not looked up is not bound *)
Lemma chapter_bound (book chapter : Z) (verse : option Z) :
  truthy verse = None →
  forallb sqlite_int [book; chapter] = true →
  forallb sqlite_int (book :: chapter :: option_list verse) = true.
Proof.
  destruct verse as [v|]; [|intros _; exact (λ H, H)].
  unfold truthy. destruct (decide (v = 0%Z)) as [->|]; [|discriminate].
  intros _. cbn. now intros [-> [-> _]%andb_prop]%andb_prop.
Qed.

(** X28.  For identifiers of letters, digits and underscores, a book and a
    chapter in the 64-bit range, a comparison without verse (or with verse
    0) and two resolved datasets, what compare_translations records for a
    translation is what get_verses_in_chapter answers for it: the same
    verses, in ascending order of verse number, each with the chapter
    number, or "Error: ..." with the engine's message where
    get_verses_in_chapter raises the 500; but where get_verses_in_chapter
    raises the 404 for a chapter without verses, the comparison records an
    empty list.  (The entry of the first translation is replaced by the
    second when both identifiers are the same in upper case.) *)
Theorem compare_agrees_with_chapter (w : World) (translation1 translation2 : string)
    (book chapter : Z) (verse : option Z) (db1 db2 : Database) :
  allow_listed translation1 = true →
  allow_listed translation2 = true →
  forallb sqlite_int [book; chapter] = true →
  files w !! translation_file translation1 = Some (FFile db1) →
  files w !! translation_file translation2 = Some (FFile db2) →
  truthy verse = None →
  ∃ result,
    outcome_of (compare_translations w translation1 translation2 book chapter verse)
    = Returned result
    ∧ ∀ t, t = translation2 ∨ (t = translation1 ∧ upper translation1 ≠ upper translation2) →
        match outcome_of (get_verses_in_chapter w t book chapter) with
        | Returned verses =>
            ∃ rows, result !! upper t = Some (CmpChapter rows)
                    ∧ map (λ r, mkVerse (cv_verse r) (cv_text r)) rows ≡ₚ verses
                    ∧ StronglySorted (λ a b, (cv_verse a ≤ cv_verse b)%Z) rows
                    ∧ Forall (λ r, cv_chapter r = chapter) rows
        | Raised e =>
            (e = HTTPException 404 "No verses found for given chapter"
             ∧ result !! upper t = Some (CmpChapter []))
            ∨ (∃ msg, e = HTTPException 500 ("Error fetching verses: " +:+ msg)
                      ∧ result !! upper t = Some (CmpMessage ("Error: " +:+ msg)))
        end.
Proof.
  intros _ _ Hints Hf1 Hf2 Hv. eexists. split.
  { apply (compare_translations_outcome _ _ _ _ _ _ db1 db2 Hf1 Hf2).
    now apply chapter_bound. }
  intros t [->|[-> Hne]].
  - rewrite lookup_insert_eq.
    pose proof (side_value_whole_chapter w translation2 book chapter verse db2 Hf2
                  Hints Hv) as Hside.
    destruct (outcome_of (get_verses_in_chapter w translation2 book chapter)) as [x|e].
    + destruct Hside as (rows & -> & Hrows). eauto.
    + destruct Hside as [[-> ->]|(msg & -> & ->)]; [left|right]; eauto.
  - rewrite lookup_insert_ne, lookup_insert_eq by congruence.
    pose proof (side_value_whole_chapter w translation1 book chapter verse db1 Hf1
                  Hints Hv) as Hside.
    destruct (outcome_of (get_verses_in_chapter w translation1 book chapter)) as [x|e].
    + destruct Hside as (rows & -> & Hrows). eauto.
    + destruct Hside as [[-> ->]|(msg & -> & ->)]; [left|right]; eauto.
Qed.

Lemma compare_agrees_with_chapter_witness :
  allow_listed "bad" = true
  ∧ allow_listed "kjv" = true
  ∧ forallb sqlite_int [1; 9]%Z = true
  ∧ files Examples.world !! translation_file "bad" = Some (FFile Examples.untitled_db)
  ∧ files Examples.world !! translation_file "kjv" = Some (FFile Examples.kjv_db)
  ∧ truthy (Some 0%Z) = None
  ∧ ∃ result,
      outcome_of (compare_translations Examples.world "bad" "kjv" 1 9 (Some 0%Z))
      = Returned result
      ∧ result !! "KJV" = Some (CmpChapter []).
Proof.
  split; [reflexivity|]. split; [reflexivity|]. split; [reflexivity|].
  split; [reflexivity|]. split; [reflexivity|]. split; [reflexivity|].
  destruct (compare_agrees_with_chapter Examples.world "bad" "kjv" 1 9 (Some 0%Z)
              Examples.untitled_db Examples.kjv_db eq_refl eq_refl eq_refl
              eq_refl eq_refl eq_refl)
    as (result & Hout & Hsides).
  exists result. split; [exact Hout|].
  pose proof (Hsides "kjv" (or_introl eq_refl)) as Hside.
  assert (Hchapter : outcome_of (get_verses_in_chapter Examples.world "kjv" 1 9)
                     = Raised (HTTPException 404 "No verses found for given chapter"))
    by (vm_compute; reflexivity).
  rewrite Hchapter in Hside.
  destruct Hside as [[_ Hside]|(msg & Hmsg & _)]; [exact Hside|].
  exfalso. injection Hmsg as Hstatus _. discriminate Hstatus.
Defined.

(** ** Numbers outside SQLite's INTEGER *)


